(** * Bol.com product tracker: ranking locator, extractor and daily scheduler

    A shallow embedding of [product_tracker.py], of [scheduler.py] and of the
    check handler of [app.py].

    - Python [str] values are Rocq strings over 8-bit code points.
    - A parsed page (the [BeautifulSoup] object) is the list of its elements
      in document order; each element carries its attribute dictionary and the
      answers of the DOM queries the extractor asks of it.
    - Effects (page fetches, the SQLite tables, the clock, exceptions) are
      threaded through a state-and-exception monad [M]; the network and the
      clock are oracles of a [World].
    - A time of the zone Europe/Amsterdam carries the UTC offset of its
      [tzinfo] beside its wall-clock fields, as [pytz] values do.
    - [print], [logger] calls and the randomised [time.sleep] delays between
      requests have no counterpart here. *)

From Stdlib Require Import ZArith Lia Ascii String.
From stdpp Require Import base decidable option list gmap strings sorting.


(* ===================================================================== *)
(** ** Python string primitives used by the sources *)
(* ===================================================================== *)

Module Py.

(** Code point of a character. *)
Definition ord (c : ascii) : nat := nat_of_ascii c.

(** [\d] of the [re] module on [str] patterns: a Unicode decimal digit; below
    code point 256 these are exactly [0]..[9]. *)
Definition is_decimal (c : ascii) : bool :=
  (48 <=? ord c)%nat && (ord c <=? 57)%nat.

(** One character of [str.isdigit]: the decimal digits and the superscript
    digits U+00B2, U+00B3 and U+00B9. *)
Definition is_digit_char (c : ascii) : bool :=
  is_decimal c || (ord c =? 178)%nat || (ord c =? 179)%nat || (ord c =? 185)%nat.

(** Whitespace of [str.strip] and of [\s]: TAB..CR, FS..US, space, NEL, NBSP. *)
Definition is_space (c : ascii) : bool :=
  ((9 <=? ord c)%nat && (ord c <=? 13)%nat)
  || ((28 <=? ord c)%nat && (ord c <=? 32)%nat)
  || (ord c =? 133)%nat || (ord c =? 160)%nat.

Definition is_upper (c : ascii) : bool := (65 <=? ord c)%nat && (ord c <=? 90)%nat.
Definition is_lower (c : ascii) : bool := (97 <=? ord c)%nat && (ord c <=? 122)%nat.
Definition to_upper (c : ascii) : ascii :=
  if is_lower c then ascii_of_nat (ord c - 32) else c.
Definition to_lower (c : ascii) : ascii :=
  if is_upper c then ascii_of_nat (ord c + 32) else c.

(** Truthiness of a [str]: non-empty. *)
Definition truthy (s : string) : bool :=
  match s with EmptyString => false | String _ _ => true end.

(** [len(s)] *)
Definition len (s : string) : nat := String.length s.

(** [s.startswith(p)] *)
Definition startswith (p s : string) : bool := String.prefix p s.

(** [sub in s] *)
Fixpoint contains (sub s : string) : bool :=
  String.prefix sub s
  || match s with
     | EmptyString => false
     | String _ rest => contains sub rest
     end.

(** [s[:n]] *)
Fixpoint slice_to (n : nat) (s : string) : string :=
  match n, s with
  | S n', String c rest => String c (slice_to n' rest)
  | _, _ => EmptyString
  end.

(** [s.lstrip()], [s.rstrip()], [s.strip()] *)
Fixpoint lstrip (s : string) : string :=
  match s with
  | String c rest => if is_space c then lstrip rest else s
  | EmptyString => EmptyString
  end.

Fixpoint rstrip (s : string) : string :=
  match s with
  | EmptyString => EmptyString
  | String c rest =>
      match rstrip rest with
      | EmptyString => if is_space c then EmptyString else String c EmptyString
      | r => String c r
      end
  end.

Definition strip (s : string) : string := rstrip (lstrip s).

(** [s.isdigit()]: at least one character, all of them digits. *)
Fixpoint all_chars (p : ascii -> bool) (s : string) : bool :=
  match s with
  | EmptyString => true
  | String c rest => p c && all_chars p rest
  end.

Definition isdigit (s : string) : bool := truthy s && all_chars is_digit_char s.

(** [s.replace(a, b)] for single characters. *)
Fixpoint replace_char (a b : ascii) (s : string) : string :=
  match s with
  | EmptyString => EmptyString
  | String c rest =>
      String (if Ascii.eqb c a then b else c) (replace_char a b rest)
  end.

(** [s.title()] on the ASCII letters: a letter that follows a letter is
    lowercased, any other letter is uppercased. A letter above code point 127
    is left as it is and starts a new word here, where Python treats it as a
    cased letter. *)
Fixpoint title_from (prev_cased : bool) (s : string) : string :=
  match s with
  | EmptyString => EmptyString
  | String c rest =>
      if is_upper c || is_lower c
      then String (if prev_cased then to_lower c else to_upper c) (title_from true rest)
      else String c (title_from false rest)
  end.

Definition title (s : string) : string := title_from false s.

(** [re.sub(r'\s+', ' ', s)]: every maximal run of whitespace becomes one
    space. *)
Fixpoint squeeze_from (in_run : bool) (s : string) : string :=
  match s with
  | EmptyString => EmptyString
  | String c rest =>
      if is_space c
      then (if in_run then squeeze_from true rest
            else String " " (squeeze_from true rest))
      else String c (squeeze_from false rest)
  end.

Definition re_sub_spaces (s : string) : string := squeeze_from false s.

(** [s.split(sep)] for a single-character separator. *)
Fixpoint split_on (sep : ascii) (s : string) : list string :=
  match s with
  | EmptyString => [EmptyString]
  | String c rest =>
      if Ascii.eqb c sep then EmptyString :: split_on sep rest
      else match split_on sep rest with
           | part :: parts => String c part :: parts
           | [] => [String c EmptyString]
           end
  end.

(** The longest prefix of decimal digits, and what follows it. *)
Fixpoint span_decimal (s : string) : string * string :=
  match s with
  | String c rest =>
      if is_decimal c
      then let '(ds, tl) := span_decimal rest in (String c ds, tl)
      else (EmptyString, s)
  | EmptyString => (EmptyString, EmptyString)
  end.

(** [re.search(r"/(\d{10,})/", s)], returning [match.group(1)]: the leftmost
    slash that is followed by ten or more digits and a slash. The quantifier
    is greedy and a digit is never a slash, so the group is the whole run. *)
Fixpoint re_search_id (s : string) : option string :=
  match s with
  | EmptyString => None
  | String c rest =>
      if Ascii.eqb c "/"
      then let '(ds, tl) := span_decimal rest in
           if (10 <=? len ds)%nat && startswith "/" tl then Some ds
           else re_search_id rest
      else re_search_id rest
  end.

(** [re.fullmatch(r"\d{10,}", s)] as a truth value. *)
Definition re_fullmatch_id (s : string) : bool :=
  (10 <=? len s)%nat && all_chars is_decimal s.

(** [re.search(r'/p/([^/]+)/(\d{10,})/', s)], returning [match.group(1)]:
    the leftmost [/p/] followed by a non-empty segment without slash, a
    slash, ten or more digits and a slash. *)
Fixpoint span_no_slash (s : string) : string * string :=
  match s with
  | String c rest =>
      if Ascii.eqb c "/" then (EmptyString, s)
      else let '(seg, tl) := span_no_slash rest in (String c seg, tl)
  | EmptyString => (EmptyString, EmptyString)
  end.

Definition slug_match_here (s : string) : option string :=
  if startswith "/p/" s then
    let '(slug, tl) := span_no_slash (String.substring 3 (len s - 3) s) in
    match tl with
    | String _ after =>
        let '(ds, tl') := span_decimal after in
        if truthy slug && (10 <=? len ds)%nat && startswith "/" tl'
        then Some slug else None
    | EmptyString => None
    end
  else None.

Fixpoint re_search_slug (s : string) : option string :=
  match slug_match_here s with
  | Some slug => Some slug
  | None =>
      match s with
      | EmptyString => None
      | String _ rest => re_search_slug rest
      end
  end.

End Py.

(* ===================================================================== *)
(** ** Parsed pages and product records *)
(* ===================================================================== *)

(** What [find("h2")], [find("h3")] and [find("span")] return below an
    element: [None] when there is no such descendant, otherwise the
    [get_text(strip=True)] of the first one. A [Tag] object is always truthy,
    so [a or b] on two such results is the first that is not [None]. *)
Record Found := {
  h2 : option string;
  h3 : option string;
  span : option string
}.

(** One element of a parsed page, as the extractor sees it. *)
Record Tag := {
  tag_name : string;
  attrs : gmap string string;  (** the attribute dictionary, [tag.get(key)] *)
  get_text : string;           (** [tag.get_text(strip=True)] *)
  find : Found;                (** queries below the element *)
  parent : Found               (** the same queries below [tag.parent] *)
}.

(** The [BeautifulSoup] object: every element of the page in document order,
    the order in which [find_all] reports its matches. *)
Definition Soup := list Tag.

Definition get (key : string) (t : Tag) : option string := attrs t !! key.

Definition py_or {A} (a b : option A) : option A :=
  match a with Some _ => a | None => b end.

(** Truthiness of an optional string: neither [None] nor empty. *)
Definition truthy_opt (o : option string) : bool :=
  match o with Some s => Py.truthy s | None => false end.

(** [soup.find_all("a", href=True)] *)
Definition find_all_a_href (soup : Soup) : list Tag :=
  filter (λ t, tag_name t = "a" ∧ is_Some (get "href" t)) soup.

(** [soup.find_all(attrs={"data-product-id": True})] *)
Definition find_all_data_product_id (soup : Soup) : list Tag :=
  filter (λ t, is_Some (get "data-product-id" t)) soup.

(** A product record, the dictionary with keys [id], [name] and [url]. *)
Record Product := {
  prod_id : string;
  prod_name : string;
  prod_url : string
}.

#[global] Instance Product_eq_dec : EqDecision Product.
Proof. solve_decision. Defined.

Definition UNKNOWN_PRODUCT : string := "Unknown Product".

(* ===================================================================== *)
(** ** [ProductTracker._extract_products_from_html] *)
(* ===================================================================== *)

(** The name of a product link: the chain of naming strategies of the first
    pass. The first branch whose condition holds is taken, also when it then
    leaves the default name in place. *)
Definition link_name (link : Tag) : string :=
  let title_elem := py_or (h2 (find link)) (h3 (find link)) in
  if truthy_opt title_elem then
    Py.slice_to 100 (default "" title_elem)
  else if truthy_opt (get "title" link) then
    Py.slice_to 100 (Py.strip (default "" (get "title" link)))
  else if Py.truthy (get_text link) then
    let text := get_text link in
    if (10 <? Py.len text)%nat && negb (Py.isdigit text)
       && negb (bool_decide (text ∈ ["Meer verkopers"; "Bekijk product"; "Bekijk details"]))
    then Py.slice_to 100 text
    else UNKNOWN_PRODUCT
  else if truthy_opt (get "aria-label" link) then
    Py.slice_to 100 (Py.strip (default "" (get "aria-label" link)))
  else if truthy_opt (get "data-testid" link)
          && Py.contains "product" (default "" (get "data-testid" link)) then
    let text_elem :=
      py_or (py_or (h2 (parent link)) (h3 (parent link))) (span (parent link)) in
    if truthy_opt text_elem then Py.slice_to 100 (default "" text_elem)
    else UNKNOWN_PRODUCT
  else UNKNOWN_PRODUCT.

Definition link_url (href : string) : string :=
  if Py.startswith "http" href then href
  else String.append "https://www.bol.com" href.

(** First pass: the loop over the product links. The accumulator is the pair
    of the mutable [products] list and the [seen_ids] set. *)
Fixpoint extract_links (links : list Tag) (products : list Product)
    (seen_ids : gset string) : list Product * gset string :=
  match links with
  | [] => (products, seen_ids)
  | link :: rest =>
      let href := default "" (get "href" link) in
      if Py.truthy href && Py.contains "/p/" href then
        match Py.re_search_id href with
        | Some product_id =>
            if bool_decide (product_id ∈ seen_ids)
            then extract_links rest products seen_ids
            else extract_links rest
                   (products ++ [{| prod_id := product_id;
                                    prod_name := link_name link;
                                    prod_url := link_url href |}])
                   ({[product_id]} ∪ seen_ids)
        | None => extract_links rest products seen_ids
        end
      else extract_links rest products seen_ids
  end.

(** The name of a card of the second pass. *)
Definition card_name (elem : Tag) : string :=
  let title_elem :=
    py_or (py_or (h2 (find elem)) (h3 (find elem))) (span (find elem)) in
  match title_elem with
  | Some text =>
      if Py.truthy text && (3 <? Py.len text)%nat then Py.slice_to 100 text
      else UNKNOWN_PRODUCT
  | None => UNKNOWN_PRODUCT
  end.

(** Second pass: the loop over the elements carrying [data-product-id]. *)
Fixpoint extract_cards (elems : list Tag) (products : list Product)
    (seen_ids : gset string) : list Product * gset string :=
  match elems with
  | [] => (products, seen_ids)
  | elem :: rest =>
      let pid := default "" (get "data-product-id" elem) in
      if Py.truthy pid && Py.re_fullmatch_id pid
         && negb (bool_decide (pid ∈ seen_ids))
      then extract_cards rest
             (products ++ [{| prod_id := pid;
                              prod_name := card_name elem;
                              prod_url := ("https://www.bol.com/nl/nl/p/" ++ pid ++ "/")%string |}])
             ({[pid]} ∪ seen_ids)
      else extract_cards rest products seen_ids
  end.

Definition _extract_products_from_html (soup : Soup) : list Product :=
  let '(products, seen_ids) := extract_links (find_all_a_href soup) [] ∅ in
  let '(products, _) :=
    extract_cards (find_all_data_product_id soup) products seen_ids in
  products.

(** *** Sample markup *)

Definition no_found : Found := {| h2 := None; h3 := None; span := None |}.

(** [<a href=href title=title></a>] *)
Definition anchor (href title : string) : Tag :=
  {| tag_name := "a";
     attrs := {[ "href" := href; "title" := title ]};
     get_text := ""; find := no_found; parent := no_found |}.

(** [<a href=href></a>]: a product link for which no naming strategy fires. *)
Definition bare_anchor (href : string) : Tag :=
  {| tag_name := "a"; attrs := {[ "href" := href ]};
     get_text := ""; find := no_found; parent := no_found |}.

(** [<div data-product-id=pid><span>text</span></div>] *)
Definition card (pid text : string) : Tag :=
  {| tag_name := "div"; attrs := {[ "data-product-id" := pid ]};
     get_text := text;
     find := {| h2 := None; h3 := None; span := Some text |};
     parent := no_found |}.

(* ===================================================================== *)
(** ** Clock values, tables, exceptions and the monad of effects *)
(* ===================================================================== *)

(** A [datetime]: the proleptic Gregorian ordinal of the day
    ([date.toordinal()]) and the wall-clock fields. *)
Record datetime := {
  ordinal : Z;
  hour : Z;
  minute : Z;
  second : Z;
  microsecond : Z
}.

Definition MAXORDINAL : Z := 3652059.  (* date.max.toordinal() *)

(** Python exceptions; every one of them is an [Exception]. *)
Inductive exn :=
  | ValueError (msg : string)
  | OverflowError (msg : string)
  | RequestException (msg : string)
  | WebDriverException (msg : string)
  | OtherError (msg : string).

Inductive Exc (A : Type) :=
  | Ret (a : A)
  | Raise (e : exn).
Arguments Ret {A} a.
Arguments Raise {A} e.

(** An HTTP response: the status code and the body, given by its parse. *)
Record Response := {
  status_code : Z;
  text : Soup
}.

Inductive Strategy := Mobile | Browser.

#[global] Instance Strategy_eq_dec : EqDecision Strategy.
Proof. solve_decision. Defined.

(** One page request: [session.get(url)] or [driver.get(url)] for the search
    URL of a keyword and a page number. *)
Record Fetch := {
  fetch_strategy : Strategy;
  fetch_keyword : string;
  fetch_page : nat
}.

(** A row of [tracked_products]. The TEXT column [created_at] is kept as the
    value [_parse_dt] reads from it, [None] when it has neither format. *)
Record TrackedRow := {
  tr_id : nat;
  tr_keyword : string;
  tr_product_id : string;
  tr_product_url : string;
  tr_product_name : option string;
  tr_active : Z;
  tr_created_at : option datetime;
  tr_stop_after_days : option Z;
  tr_daily_scheduler : Z
}.

(** A row of [product_tracking], without its autoincrement key. *)
Record HistoryRow := {
  hr_keyword : string;
  hr_product_id : string;
  hr_product_name : string;
  hr_position : option nat;
  hr_page_product : option nat;
  hr_date : datetime
}.

(** Everything the program mutates: the requests issued so far, the two
    tables, and the number of clock readings taken. *)
Record State := {
  fetches : list Fetch;
  tracked_products : list TrackedRow;
  product_tracking : list HistoryRow;
  ticks : nat
}.

(** The environment: what each request answers, whether Selenium is
    installed, whether Chrome starts, and what the clock shows at its n-th
    reading, as a naive local time and in UTC, with the table of the zone
    Europe/Amsterdam. A request that raises (transport error, timeout,
    decoding or parsing failure of the body) answers [Raise]. *)
Record World := {
  HAS_SELENIUM : bool;
  session_get : string → nat → Exc Response;
  chrome_start : Exc unit;
  driver_get : string → nat → Exc Soup;
  clock : nat → datetime;        (** [datetime.now()] *)
  utc_clock : nat → datetime;    (** the same clock read in UTC *)
  dutch_tz : datetime → Z        (** [pytz.timezone('Europe/Amsterdam')]: the
                                     UTC offset, in minutes, in force at a
                                     moment given in UTC *)
}.

Definition M (A : Type) : Type := State → Exc A * State.

Definition ret {A} (a : A) : M A := λ st, (Ret a, st).

Definition raise {A} (e : exn) : M A := λ st, (Raise e, st).

Definition bind {A B} (m : M A) (k : A → M B) : M B :=
  λ st, match m st with
        | (Ret a, st') => k a st'
        | (Raise e, st') => (Raise e, st')
        end.

(** [try: body except Exception as e: handler(e)] *)
Definition try_except {A} (body : M A) (handler : exn → M A) : M A :=
  λ st, match body st with
        | (Ret a, st') => (Ret a, st')
        | (Raise e, st') => handler e st'
        end.

(** [try: body except WebDriverException as wde: handler(wde)] *)
Definition try_except_wde {A} (body : M A) (handler : string → M A) : M A :=
  try_except body
    (λ e, match e with WebDriverException msg => handler msg | _ => raise e end).

#[global] Instance M_ret : MRet M := @ret.
#[global] Instance M_bind : MBind M := λ A B k m, bind m k.

(** Lifting an oracle's answer. *)
Definition lift {A} (r : Exc A) : M A := λ st, (r, st).

Definition log_fetch (f : Fetch) : M unit :=
  λ st, (Ret tt, {| fetches := fetches st ++ [f];
                    tracked_products := tracked_products st;
                    product_tracking := product_tracking st;
                    ticks := ticks st |}).

(** [datetime.now()] *)
Definition datetime_now (w : World) : M datetime :=
  λ st, (Ret (clock w (ticks st)),
         {| fetches := fetches st;
            tracked_products := tracked_products st;
            product_tracking := product_tracking st;
            ticks := S (ticks st) |}).

(* ===================================================================== *)
(** ** The two search strategies *)
(* ===================================================================== *)

Record TargetInfo := {
  found : bool;
  page : option nat;
  position_on_page : option nat;
  page_product : option nat
}.

Definition target_not_found : TargetInfo :=
  {| found := false; page := None; position_on_page := None; page_product := None |}.

(** [for pos, product in enumerate(page_products, pos): if product.get("id")
    == target_product_id: ... break]: the position of the first match. *)
Fixpoint find_on_page (target_product_id : string) (pos : nat)
    (page_products : list Product) : option nat :=
  match page_products with
  | [] => None
  | product :: rest =>
      if String.eqb (prod_id product) target_product_id then Some pos
      else find_on_page target_product_id (S pos) rest
  end.

(** The block "Check if target product is on this page", shared word for
    word by both strategies. [products] already holds the page's records. *)
Definition check_target (target_product_id : option string) (page : nat)
    (products page_products : list Product) (target_info : TargetInfo) : TargetInfo :=
  if truthy_opt target_product_id then
    match find_on_page (default "" target_product_id) 1 page_products with
    | Some pos =>
        {| found := true;
           page := Some page;
           position_on_page := Some pos;
           page_product := Some (length products - length page_products + pos) |}
    | None => target_info
    end
  else target_info.

Section Strategies.

Variable w : World.

(** The body of the [for page in range(1, max_pages + 1)] loop of
    [search_products_mobile]. The third component says whether the loop
    breaks. *)
Definition mobile_page (keyword : string) (target_product_id : option string)
    (page : nat) (products : list Product) (target_info : TargetInfo)
  : M (list Product * TargetInfo * bool) :=
  try_except
    (_ ← log_fetch {| fetch_strategy := Mobile; fetch_keyword := keyword;
                       fetch_page := page |};
     response ← lift (session_get w keyword page);
     if (status_code response =? 200)%Z then
       let page_products := _extract_products_from_html (text response) in
       let products := products ++ page_products in
       let target_info :=
         check_target target_product_id page products page_products target_info in
       ret (products, target_info, found target_info)
     else ret (products, target_info, true))
    (λ e, ret (products, target_info, true)).

Fixpoint mobile_loop (keyword : string) (target_product_id : option string)
    (pages : list nat) (products : list Product) (target_info : TargetInfo)
  : M (list Product * TargetInfo) :=
  match pages with
  | [] => ret (products, target_info)
  | page :: rest =>
      '(products, target_info, break) ←
        mobile_page keyword target_product_id page products target_info;
      if break : bool then ret (products, target_info)
      else mobile_loop keyword target_product_id rest products target_info
  end.

Definition search_products_mobile (keyword : string) (max_pages : nat)
    (target_product_id : option string) : M (list Product * TargetInfo) :=
  mobile_loop keyword target_product_id (seq 1 max_pages) [] target_not_found.

(** The body of the page loop of [search_products_browser]. The inner
    handler catches [WebDriverException] and breaks. Any other exception
    reaches the outer [except Exception], which returns the two locals as
    they stand; the loop carries the locals, so that handler sits here. *)
Definition browser_page (keyword : string) (target_product_id : option string)
    (page : nat) (products : list Product) (target_info : TargetInfo)
  : M (list Product * TargetInfo * bool) :=
  try_except
    (try_except_wde
       (_ ← log_fetch {| fetch_strategy := Browser; fetch_keyword := keyword;
                          fetch_page := page |};
        html ← lift (driver_get w keyword page);
        let page_products := _extract_products_from_html html in
        let products := products ++ page_products in
        let target_info :=
          check_target target_product_id page products page_products target_info in
        if found target_info then ret (products, target_info, true)
        else if (length page_products =? 0)%nat then ret (products, target_info, true)
        else ret (products, target_info, false))
       (λ wde, ret (products, target_info, true)))
    (λ e, ret (products, target_info, true)).

Fixpoint browser_loop (keyword : string) (target_product_id : option string)
    (pages : list nat) (products : list Product) (target_info : TargetInfo)
  : M (list Product * TargetInfo) :=
  match pages with
  | [] => ret (products, target_info)
  | page :: rest =>
      '(products, target_info, break) ←
        browser_page keyword target_product_id page products target_info;
      if break : bool then ret (products, target_info)
      else browser_loop keyword target_product_id rest products target_info
  end.

Definition search_products_browser (keyword : string) (max_pages : nat)
    (target_product_id : option string) : M (list Product * TargetInfo) :=
  if negb (HAS_SELENIUM w) then ret ([], target_not_found)
  else
    try_except
      (_ ← lift (chrome_start w);
       browser_loop keyword target_product_id (seq 1 max_pages) [] target_not_found)
      (λ e, ret ([], target_not_found)).

(* ===================================================================== *)
(** ** [ProductTracker.find_product_ranking] *)
(* ===================================================================== *)

Record LocateResult := {
  position : option nat;
  r_page_product : option nat;
  r_page : option nat;
  product : option Product;
  total_found : nat
}.

(** [for product in products: if product["id"] == target_product_id: ...
    break] *)
Fixpoint first_with_id (target_product_id : string) (products : list Product)
  : option Product :=
  match products with
  | [] => None
  | product :: rest =>
      if String.eqb (prod_id product) target_product_id then Some product
      else first_with_id target_product_id rest
  end.

Definition find_product_ranking (keyword target_product_id : string)
    (max_pages : nat) : M LocateResult :=
  '(products, target_info) ←
    search_products_mobile keyword max_pages (Some target_product_id);
  '(products, target_info) ←
    (if negb (found target_info) then
       '(browser_products, browser_target_info) ←
         search_products_browser keyword max_pages (Some target_product_id);
       if (0 <? length browser_products)%nat
       then ret (browser_products, browser_target_info)
       else ret (products, target_info)
     else ret (products, target_info));
  if found target_info then
    let target_product := first_with_id target_product_id products in
    ret {| position := position_on_page target_info;
           r_page_product := page_product target_info;
           r_page := page target_info;
           product := target_product;
           total_found := length products |}
  else
    ret {| position := None; r_page_product := None; r_page := None;
           product := None; total_found := length products |}.

End Strategies.

(* ===================================================================== *)
(** ** What one run of a strategy scans *)
(* ===================================================================== *)

(** The records a strategy obtains from one page, [None] when the request
    ends the strategy (an exception, or a status other than 200). *)
Definition mobile_records (w : World) (keyword : string) (page : nat)
  : option (list Product) :=
  match session_get w keyword page with
  | Ret response =>
      if (status_code response =? 200)%Z
      then Some (_extract_products_from_html (text response))
      else None
  | Raise _ => None
  end.

Definition browser_records (w : World) (keyword : string) (page : nat)
  : option (list Product) :=
  match driver_get w keyword page with
  | Ret html => Some (_extract_products_from_html html)
  | Raise _ => None
  end.

(** Whether the rendered strategy gets as far as its page loop. *)
Definition browser_available (w : World) : bool :=
  HAS_SELENIUM w && match chrome_start w with Ret _ => true | Raise _ => false end.

Definition page_records (w : World) (s : Strategy) (keyword : string) (page : nat)
  : option (list Product) :=
  match s with
  | Mobile => mobile_records w keyword page
  | Browser => browser_records w keyword page
  end.

(** The page loop, without its effects: the accumulated list, the match
    outcome and the number of pages requested. [stop_on_empty] is the extra
    exit of the rendered strategy. *)
Fixpoint scan (stop_on_empty : bool) (records : nat → option (list Product))
    (target_product_id : option string) (pages : list nat)
    (products : list Product) (target_info : TargetInfo)
  : list Product * TargetInfo * nat :=
  match pages with
  | [] => (products, target_info, 0)
  | page :: rest =>
      match records page with
      | None => (products, target_info, 1)
      | Some page_products =>
          let products := products ++ page_products in
          let target_info :=
            check_target target_product_id page products page_products target_info in
          if found target_info || (stop_on_empty && (length page_products =? 0)%nat)
          then (products, target_info, 1)
          else let '(ps, ti, n) :=
                 scan stop_on_empty records target_product_id rest products target_info in
               (ps, ti, S n)
      end
  end.

Definition fetch_of (s : Strategy) (keyword : string) (page : nat) : Fetch :=
  {| fetch_strategy := s; fetch_keyword := keyword; fetch_page := page |}.

Definition add_fetches (fs : list Fetch) (st : State) : State :=
  {| fetches := fetches st ++ fs;
     tracked_products := tracked_products st;
     product_tracking := product_tracking st;
     ticks := ticks st |}.

(* ===================================================================== *)
(** ** Reading the extractor's result *)
(* ===================================================================== *)

(** The record a product link stands for, if its [href] qualifies. *)
Definition link_candidate (link : Tag) : option Product :=
  let href := default "" (get "href" link) in
  if Py.truthy href && Py.contains "/p/" href then
    match Py.re_search_id href with
    | Some product_id =>
        Some {| prod_id := product_id; prod_name := link_name link;
                prod_url := link_url href |}
    | None => None
    end
  else None.

(** The record a [data-product-id] element stands for, if its value
    qualifies. *)
Definition card_candidate (elem : Tag) : option Product :=
  let pid := default "" (get "data-product-id" elem) in
  if Py.truthy pid && Py.re_fullmatch_id pid then
    Some {| prod_id := pid; prod_name := card_name elem;
            prod_url := ("https://www.bol.com/nl/nl/p/" ++ pid ++ "/")%string |}
  else None.

(** The records in the order the extractor meets them: every product link of
    the page, then every [data-product-id] element of the page. *)
Definition scan_candidates (soup : Soup) : list Product :=
  omap link_candidate (find_all_a_href soup)
  ++ omap card_candidate (find_all_data_product_id soup).

(** The records in document order: element by element, what the element
    stands for as a link and as a card. *)
Definition element_candidates (t : Tag) : list Product :=
  (if bool_decide (tag_name t = "a" ∧ is_Some (get "href" t))
   then option_list (link_candidate t) else [])
  ++ (if bool_decide (is_Some (get "data-product-id" t))
      then option_list (card_candidate t) else []).

Definition document_candidates (soup : Soup) : list Product :=
  soup ≫= element_candidates.

(** Keeping, of every identifier not seen before, the first record. *)
Fixpoint keep_first (seen : gset string) (candidates : list Product) : list Product :=
  match candidates with
  | [] => []
  | r :: rest =>
      if bool_decide (prod_id r ∈ seen) then keep_first seen rest
      else r :: keep_first ({[prod_id r]} ∪ seen) rest
  end.

(** [r] is the first record of [l] with its identifier. *)
Definition first_of_its_id (l : list Product) (r : Product) : Prop :=
  ∃ j, l !! j = Some r
       ∧ ∀ j' r', j' < j → l !! j' = Some r' → prod_id r' ≠ prod_id r.

Definition ids (l : list Product) : list string := prod_id <$> l.

(* ===================================================================== *)
(** ** Vocabulary for the claims about a run *)
(* ===================================================================== *)

(** No record of the page carries the identifier. *)
Definition absent (tid : string) (page_products : list Product) : Prop :=
  ∀ r, r ∈ page_products → prod_id r ≠ tid.

(** The first record of the page with the identifier is at 1-based position
    [m]. *)
Definition first_at (tid : string) (page_products : list Product) (m : nat) : Prop :=
  1 ≤ m
  ∧ (∃ r, page_products !! (m - 1) = Some r ∧ prod_id r = tid)
  ∧ ∀ i r, i < m - 1 → page_products !! i = Some r → prod_id r ≠ tid.

(** The strategy gets as far as requesting pages. *)
Definition strategy_runs (w : World) (s : Strategy) : Prop :=
  match s with
  | Mobile => True
  | Browser => browser_available w = true
  end.

(** Whether the strategy stops after a page without records. *)
Definition stops_on_empty (s : Strategy) : bool :=
  match s with Mobile => false | Browser => true end.

(** A page the strategy scans and then leaves for the next one: it is
    obtained, does not hold the target and, for the rendered strategy, is not
    empty. *)
Definition passed (w : World) (s : Strategy) (keyword tid : string) (j : nat) : Prop :=
  ∃ pp, page_records w s keyword j = Some pp ∧ absent tid pp
        ∧ (stops_on_empty s = true → pp ≠ []).

(** In the strategy's run the target first appears on page [p], at position
    [m] of that page's extracted records. *)
Definition first_appears (w : World) (s : Strategy) (keyword tid : string)
    (p m : nat) : Prop :=
  strategy_runs w s
  ∧ 1 ≤ p
  ∧ (∀ j, 1 ≤ j < p → passed w s keyword tid j)
  ∧ ∃ pp, page_records w s keyword p = Some pp ∧ first_at tid pp m.

(** The strategy matches the target within [k] pages. *)
Definition matches (w : World) (s : Strategy) (keyword tid : string) (k : nat) : Prop :=
  ∃ p m, p ≤ k ∧ first_appears w s keyword tid p m.

(** The extracted counts of the pages before page [p], summed. *)
Definition count_before (w : World) (s : Strategy) (keyword : string) (p : nat) : nat :=
  length (concat ((λ j, default [] (page_records w s keyword j)) <$> seq 1 (p - 1))).

(** The pages a strategy requested, read off the log of requests. *)
Definition pages_fetched (s : Strategy) (fs : list Fetch) : list nat :=
  fetch_page <$> filter (λ f, fetch_strategy f = s) fs.

(** The requests issued between two states. *)
Definition new_fetches (st st' : State) : list Fetch :=
  drop (length (fetches st)) (fetches st').

(** What a strategy's run comes to: the accumulated list, the match outcome
    and the number of pages requested. *)
Definition strategy_outcome (w : World) (s : Strategy) (keyword : string)
    (target_product_id : option string) (k : nat) : list Product * TargetInfo * nat :=
  match s with
  | Mobile =>
      scan false (mobile_records w keyword) target_product_id (seq 1 k)
        [] target_not_found
  | Browser =>
      if browser_available w
      then scan true (browser_records w keyword) target_product_id (seq 1 k)
             [] target_not_found
      else ([], target_not_found, 0)
  end.

(** The result [find_product_ranking] builds from the list and the match
    outcome it ends up with. *)
Definition result_of (target_product_id : string) (products : list Product)
    (target_info : TargetInfo) : LocateResult :=
  if found target_info then
    {| position := position_on_page target_info;
       r_page_product := page_product target_info;
       r_page := page target_info;
       product := first_with_id target_product_id products;
       total_found := length products |}
  else
    {| position := None; r_page_product := None; r_page := None;
       product := None; total_found := length products |}.

(** A result that reports no position. *)
Definition not_found_result (r : LocateResult) : Prop :=
  position r = None ∧ r_page_product r = None ∧ r_page r = None ∧ product r = None.

(** Running one of the two strategies. *)
Definition run_strategy (w : World) (s : Strategy) (keyword : string)
    (max_pages : nat) (target_product_id : option string)
  : M (list Product * TargetInfo) :=
  match s with
  | Mobile => search_products_mobile w keyword max_pages target_product_id
  | Browser => search_products_browser w keyword max_pages target_product_id
  end.

(** [find_product_ranking] gets to the strategy: the lightweight strategy
    always runs, the rendered one only when the lightweight one did not
    match. *)
Definition consulted (w : World) (s : Strategy) (keyword tid : string) (k : nat) : Prop :=
  match s with
  | Mobile => True
  | Browser => ¬ matches w Mobile keyword tid k
  end.

(** The strategy's run ends in a failure on page [j]: the pages before it
    were scanned and left, and the request for page [j] raises or, for the
    lightweight strategy, answers with a status other than 200. *)
Definition fails_at (w : World) (s : Strategy) (keyword tid : string) (j : nat) : Prop :=
  strategy_runs w s
  ∧ 1 ≤ j
  ∧ (∀ i, 1 ≤ i < j → passed w s keyword tid i)
  ∧ page_records w s keyword j = None.

(* ===================================================================== *)
(** ** Sample worlds *)
(* ===================================================================== *)

Definition TARGET : string := "9300000170626119".
Definition ARIEL : string := "9300000000000001".
Definition ROBIJN : string := "9300000000000002".
Definition DREFT : string := "9300000000000003".

(** A product link with a [title] attribute. *)
Definition link_to (pid name : string) : Tag :=
  anchor ("/nl/nl/p/item/" +:+ pid +:+ "/") name.

Definition ok (soup : Soup) : Exc Response :=
  Ret {| status_code := 200; text := soup |}.

Definition morning : datetime :=
  {| ordinal := 739000; hour := 8; minute := 0; second := 0; microsecond := 0 |}.

Definition blank_state : State :=
  {| fetches := []; tracked_products := []; product_tracking := []; ticks := 0 |}.

(** Two pages of results, the target second on the second page, a timeout
    from page three on; no Selenium. *)
Definition two_page_world : World :=
  {| HAS_SELENIUM := false;
     session_get := λ _ page,
       match page with
       | 1 => ok [link_to ARIEL "Ariel"; link_to ROBIJN "Robijn"]
       | 2 => ok [link_to DREFT "Dreft"; link_to TARGET "Lenor"]
       | _ => Raise (RequestException "timeout")
       end;
     chrome_start := Raise (WebDriverException "chrome not found");
     driver_get := λ _ _, Raise (WebDriverException "no session");
     clock := λ _, morning;
     utc_clock := λ _, morning;
     dutch_tz := λ _, 120%Z |}.

(** The lightweight strategy gets one record and is then refused with 403;
    the rendered strategy gets two records; the target is nowhere. *)
Definition fallback_world : World :=
  {| HAS_SELENIUM := true;
     session_get := λ _ page,
       match page with
       | 1 => ok [link_to ARIEL "Ariel"]
       | _ => Ret {| status_code := 403; text := [] |}
       end;
     chrome_start := Ret tt;
     driver_get := λ _ page,
       match page with
       | 1 => Ret [link_to ROBIJN "Robijn"; link_to DREFT "Dreft"]
       | _ => Ret []
       end;
     clock := λ _, morning;
     utc_clock := λ _, morning;
     dutch_tz := λ _, 120%Z |}.

(** The same product is listed on two consecutive pages. *)
Definition repeating_world : World :=
  {| HAS_SELENIUM := false;
     session_get := λ _ page,
       match page with
       | 1 => ok [link_to ARIEL "Ariel"; link_to ROBIJN "Robijn"]
       | _ => ok [link_to ROBIJN "Robijn"; link_to DREFT "Dreft"]
       end;
     chrome_start := Raise (WebDriverException "chrome not found");
     driver_get := λ _ _, Raise (WebDriverException "no session");
     clock := λ _, morning;
     utc_clock := λ _, morning;
     dutch_tz := λ _, 120%Z |}.

(** Every request fails. *)
Definition offline_world : World :=
  {| HAS_SELENIUM := true;
     session_get := λ _ _, Raise (RequestException "connection refused");
     chrome_start := Ret tt;
     driver_get := λ _ _, Raise (WebDriverException "net::ERR_INTERNET_DISCONNECTED");
     clock := λ _, morning;
     utc_clock := λ _, morning;
     dutch_tz := λ _, 120%Z |}.

(** A page on which a card for the target precedes, in the document, a link
    to another product and a link to the target. *)
Definition card_first_soup : Soup :=
  [card TARGET "Lenor as card"; link_to ARIEL "Ariel"; link_to TARGET "Lenor as link"].

Definition target_card_record : Product :=
  {| prod_id := TARGET; prod_name := "Lenor as card";
     prod_url := "https://www.bol.com/nl/nl/p/9300000170626119/" |}.

Definition target_link_record : Product :=
  {| prod_id := TARGET; prod_name := "Lenor as link";
     prod_url := "https://www.bol.com/nl/nl/p/item/9300000170626119/" |}.

Definition ariel_record : Product :=
  {| prod_id := ARIEL; prod_name := "Ariel";
     prod_url := "https://www.bol.com/nl/nl/p/item/9300000000000001/" |}.

(* ===================================================================== *)
(** ** Product identifiers and names from URLs *)
(* ===================================================================== *)

Definition get_product_id (product_url : string) : M string :=
  match Py.re_search_id product_url with
  | Some product_id => ret product_id
  | None => raise (ValueError "Could not extract product ID from URL")
  end.

(** The loop over [product_url.split('/')] of [_extract_name_from_url]. *)
Fixpoint name_from_parts (url_parts : list string) : option string :=
  match url_parts with
  | [] => None
  | part :: rest =>
      if Py.truthy part && negb (Py.isdigit part) && (5 <? Py.len part)
      then
        if negb (bool_decide (part ∈ ["nl"; "p"; "www.bol.com"; "https:"; "http:"]))
        then
          let name := Py.title (Py.replace_char "-" " " part) in
          let name := Py.re_sub_spaces name in
          Some (Py.strip name)
        else name_from_parts rest
      else name_from_parts rest
  end.

(** None of the string operations involved raises, so the [try] of the
    source never reaches its handler. *)
Definition _extract_name_from_url (product_url : string) : string :=
  match Py.re_search_slug product_url with
  | Some product_slug =>
      let name := Py.title (Py.replace_char "-" " " product_slug) in
      let name := Py.re_sub_spaces name in
      let name := Py.strip name in
      name
  | None =>
      match name_from_parts (Py.split_on "/" product_url) with
      | Some name => name
      | None => "Product from URL"
      end
  end.

(* ===================================================================== *)
(** ** The tables *)
(* ===================================================================== *)

Definition set_tracked_products (rows : list TrackedRow) (st : State) : State :=
  {| fetches := fetches st;
     tracked_products := rows;
     product_tracking := product_tracking st;
     ticks := ticks st |}.

Definition set_product_tracking (rows : list HistoryRow) (st : State) : State :=
  {| fetches := fetches st;
     tracked_products := tracked_products st;
     product_tracking := rows;
     ticks := ticks st |}.

Definition get_state : M State := λ st, (Ret st, st).
Definition modify_state (f : State → State) : M unit := λ st, (Ret tt, f st).

(** [INSERT INTO product_tracking ...] with the date of [_now_str()]. *)
Definition save_to_db (w : World) (keyword product_id product_name : string)
    (position page_product : option nat) : M unit :=
  date ← datetime_now w;
  modify_state (λ st,
    set_product_tracking
      (product_tracking st ++
         [{| hr_keyword := keyword; hr_product_id := product_id;
             hr_product_name := product_name; hr_position := position;
             hr_page_product := page_product; hr_date := date |}]) st).

(** [UPDATE tracked_products SET active = 0 WHERE id = ?] *)
Definition remove_tracked_product (tracked_id : nat) : M unit :=
  modify_state (λ st,
    set_tracked_products
      ((λ row, if bool_decide (tr_id row = tracked_id)
               then {| tr_id := tr_id row; tr_keyword := tr_keyword row;
                       tr_product_id := tr_product_id row;
                       tr_product_url := tr_product_url row;
                       tr_product_name := tr_product_name row;
                       tr_active := 0;
                       tr_created_at := tr_created_at row;
                       tr_stop_after_days := tr_stop_after_days row;
                       tr_daily_scheduler := tr_daily_scheduler row |}
               else row) <$> tracked_products st) st).

(** [UPDATE tracked_products SET product_name = ? WHERE id = ?] *)
Definition update_product_name (tracked_id : nat) (name : string) : M unit :=
  modify_state (λ st,
    set_tracked_products
      ((λ row, if bool_decide (tr_id row = tracked_id)
               then {| tr_id := tr_id row; tr_keyword := tr_keyword row;
                       tr_product_id := tr_product_id row;
                       tr_product_url := tr_product_url row;
                       tr_product_name := Some name;
                       tr_active := tr_active row;
                       tr_created_at := tr_created_at row;
                       tr_stop_after_days := tr_stop_after_days row;
                       tr_daily_scheduler := tr_daily_scheduler row |}
               else row) <$> tracked_products st) st).

(** The key AUTOINCREMENT gives the next row; rows are never deleted. *)
Definition next_rowid (rows : list TrackedRow) : nat :=
  S (foldr Nat.max 0 (tr_id <$> rows)).

(** The name of the located product when it is usable: the product is
    there, its name is not empty and is not the sentinel. *)
Definition located_name (result : LocateResult) : option string :=
  match product result with
  | Some p =>
      if Py.truthy (prod_name p)
         && negb (bool_decide (prod_name p = UNKNOWN_PRODUCT))
      then Some (prod_name p) else None
  | None => None
  end.

(** What [sqlite3] binds to a parameter of the INSERT for [stop_after_days]:
    [None], or an integer of 64 signed bits. For an integer outside that range
    [execute] raises [OverflowError]. *)
Definition sqlite_integer (v : option Z) : Prop :=
  match v with
  | None => True
  | Some d => (- 2 ^ 63 ≤ d < 2 ^ 63)%Z
  end.

(** [add_tracked_product]. The INSERT is the one of a value [sqlite3] can
    bind, see [sqlite_integer]; the statements about the inserted row say
    so where they depend on it. *)
Definition add_tracked_product (w : World) (keyword product_url : string)
    (stop_after_days : option Z) : M (nat * string * string * string) :=
  product_id ← get_product_id product_url;
  let product_name := _extract_name_from_url product_url in
  product_name ←
    try_except
      (result ← find_product_ranking w keyword product_id 1;
       match located_name result with
       | Some name => ret name
       | None => ret product_name
       end)
      (λ e, ret product_name);
  created_at ← datetime_now w;
  st ← get_state;
  let new_id := next_rowid (tracked_products st) in
  _ ← modify_state (λ st,
        set_tracked_products
          (tracked_products st ++
             [{| tr_id := new_id; tr_keyword := keyword;
                 tr_product_id := product_id; tr_product_url := product_url;
                 tr_product_name := Some product_name; tr_active := 1;
                 tr_created_at := Some created_at;
                 tr_stop_after_days := stop_after_days;
                 tr_daily_scheduler := 0 |}]) st);
  ret (new_id, keyword, product_id, product_url).

(** [track_product]: [None] is the value returned from the handler. *)
Definition track_product (w : World) (keyword product_url : string)
  : M (option LocateResult) :=
  try_except
    (product_id ← get_product_id product_url;
     result ← find_product_ranking w keyword product_id 50;
     _ ← save_to_db w keyword product_id
           (match product result with
            | Some p => prod_name p
            | None => "Unknown"
            end)
           (position result) (r_page_product result);
     ret (Some result))
    (λ e, ret None).

(* ===================================================================== *)
(** ** Dates *)
(* ===================================================================== *)

(** Comparison of two datetimes of the same kind: field by field. *)
Definition dt_compare (a b : datetime) : comparison :=
  match (ordinal a ?= ordinal b)%Z with
  | Eq =>
      match (hour a ?= hour b)%Z with
      | Eq =>
          match (minute a ?= minute b)%Z with
          | Eq =>
              match (second a ?= second b)%Z with
              | Eq => (microsecond a ?= microsecond b)%Z
              | c => c
              end
          | c => c
          end
      | c => c
      end
  | c => c
  end.

(** [a >= b] and [a < b] *)
Definition dt_ge (a b : datetime) : bool :=
  match dt_compare a b with Lt => false | _ => true end.

Definition dt_lt (a b : datetime) : Prop := dt_compare a b = Lt.

(** [d + timedelta(days=days)] *)
Definition add_days (d : datetime) (days : Z) : Exc datetime :=
  let o := (ordinal d + days)%Z in
  if (1 <=? o)%Z && (o <=? MAXORDINAL)%Z then
    Ret {| ordinal := o; hour := hour d; minute := minute d;
           second := second d; microsecond := microsecond d |}
  else Raise (OverflowError "date value out of range").

(** [d.replace(hour=h, minute=mi, second=s, microsecond=us)]; the time zone
    information, and with it the UTC offset, stays that of [d]. *)
Definition replace_time (d : datetime) (h mi s us : Z) : datetime :=
  {| ordinal := ordinal d; hour := h; minute := mi; second := s; microsecond := us |}.

(** A value the [datetime] type can hold. *)
Definition valid_datetime (d : datetime) : Prop :=
  (1 ≤ ordinal d ≤ MAXORDINAL ∧ 0 ≤ hour d < 24 ∧ 0 ≤ minute d < 60
   ∧ 0 ≤ second d < 60 ∧ 0 ≤ microsecond d < 1000000)%Z.

(** [_parse_dt]: the stored text when it has one of the two formats, the
    current time otherwise. *)
Definition _parse_dt (w : World) (dt_str : option datetime) : M datetime :=
  match dt_str with
  | Some d => ret d
  | None => datetime_now w
  end.

(* ===================================================================== *)
(** ** [ProductTracker.run_scheduled_checks] *)
(* ===================================================================== *)

(** The summaries the batch returns, one per row. *)
Inductive CheckOutcome :=
  | Deactivated (id : nat) (keyword product_id : string)
  | Checked (id : nat) (keyword product_id : string)
      (position : option nat) (total_found : nat)
  | Errored (id : nat) (keyword product_id : string) (error : exn).

(** [name_to_store] before the located name is looked at: the stored name,
    unless it is missing, empty or the text "None"; then the name derived from
    the URL. *)
Definition stored_or_url_name (product_name : option string) (product_url : string)
  : string :=
  match product_name with
  | Some name =>
      if negb (Py.truthy name) || bool_decide (name = "None")
      then _extract_name_from_url product_url
      else name
  | None => _extract_name_from_url product_url
  end.

(** The [try] block of the loop body: the ranking check of one row. *)
Definition check_row (w : World) (row : TrackedRow) : M CheckOutcome :=
  try_except
    (ranking ← find_product_ranking w (tr_keyword row) (tr_product_id row) 50;
     let name_to_store := stored_or_url_name (tr_product_name row) (tr_product_url row) in
     let name_to_store :=
       match located_name ranking with
       | Some name => name
       | None => name_to_store
       end in
     _ ← save_to_db w (tr_keyword row) (tr_product_id row) name_to_store
           (position ranking) (r_page_product ranking);
     _ ← (if negb (truthy_opt (tr_product_name row)) then
            match product ranking with
            | Some p => update_product_name (tr_id row) (prod_name p)
            | None => ret tt
            end
          else ret tt);
     ret (Checked (tr_id row) (tr_keyword row) (tr_product_id row)
            (position ranking) (total_found ranking)))
    (λ e, ret (Errored (tr_id row) (tr_keyword row) (tr_product_id row) e)).

(** The loop body: the expiry test, then the ranking check. The expiry test
    is outside the [try]. *)
Definition scheduled_row (w : World) (row : TrackedRow) : M CheckOutcome :=
  expired ←
    match tr_stop_after_days row with
    | Some stop_after_days =>
        start_dt ← _parse_dt w (tr_created_at row);
        current ← datetime_now w;
        deadline ← lift (add_days start_dt stop_after_days);
        ret (dt_ge current deadline)
    | None => ret false
    end;
  if expired : bool then
    _ ← remove_tracked_product (tr_id row);
    ret (Deactivated (tr_id row) (tr_keyword row) (tr_product_id row))
  else check_row w row.

Fixpoint scheduled_rows (w : World) (rows : list TrackedRow) (results : list CheckOutcome)
  : M (list CheckOutcome) :=
  match rows with
  | [] => ret results
  | row :: rest =>
      outcome ← scheduled_row w row;
      scheduled_rows w rest (results ++ [outcome])
  end.

(** [SELECT ... WHERE active = 1 AND daily_scheduler = 1 ORDER BY id ASC] *)
Definition by_id (a b : TrackedRow) : Prop := tr_id a ≤ tr_id b.

#[global] Instance by_id_dec : RelDecision by_id.
Proof. intros a b. unfold by_id. apply _. Defined.

Definition select_scheduled (rows : list TrackedRow) : list TrackedRow :=
  merge_sort by_id
    (filter (λ row, tr_active row = 1%Z ∧ tr_daily_scheduler row = 1%Z) rows).

Definition run_scheduled_checks (w : World) : M (list CheckOutcome) :=
  st ← get_state;
  scheduled_rows w (select_scheduled (tracked_products st)) [].

(* ===================================================================== *)
(** ** [ProductTrackerScheduler] *)
(* ===================================================================== *)

(** An aware [datetime], as [pytz] makes them: the wall-clock fields and the
    UTC offset, in minutes, of its [tzinfo]. The [tzinfo] of a [pytz] zone is
    one fixed offset of the zone (for Europe/Amsterdam +60, CET, or +120,
    CEST); it is chosen when the value is made and arithmetic on the value
    does not change it. *)
Record datetime_tz := {
  local : datetime;
  utcoffset : Z
}.

(** The minutes from the start of day 0 to the minute of [d]. *)
Definition minutes_of (d : datetime) : Z :=
  ((ordinal d * 24 + hour d) * 60 + minute d)%Z.

Definition shift_minutes (d : datetime) (m : Z) : datetime :=
  let total := (minutes_of d + m)%Z in
  {| ordinal := total / 1440; hour := (total mod 1440) / 60; minute := total mod 60;
     second := second d; microsecond := microsecond d |}.

(** [d + timedelta(minutes=m)] on naive values *)
Definition add_minutes (d : datetime) (m : Z) : Exc datetime :=
  let r := shift_minutes d m in
  if (1 <=? ordinal r)%Z && (ordinal r <=? MAXORDINAL)%Z then Ret r
  else Raise (OverflowError "date value out of range").

(** [tz.fromutc(utc)] of a [pytz] zone: the wall clock [utc + offset], with
    the offset in force at that moment as its [tzinfo]. *)
Definition fromutc (tz : datetime → Z) (utc : datetime) : Exc datetime_tz :=
  match add_minutes utc (tz utc) with
  | Ret d => Ret {| local := d; utcoffset := tz utc |}
  | Raise e => Raise e
  end.

(** [datetime.now(self.dutch_tz)], which is [tz.fromutc] of the UTC reading *)
Definition datetime_now_tz (w : World) : M datetime_tz :=
  λ st, (fromutc (dutch_tz w) (utc_clock w (ticks st)),
         {| fetches := fetches st;
            tracked_products := tracked_products st;
            product_tracking := product_tracking st;
            ticks := S (ticks st) |}).

(** [a.replace(tzinfo=None) - a.utcoffset()]: the moment of [a] in UTC *)
Definition utc_of (a : datetime_tz) : Exc datetime :=
  add_minutes (local a) (- utcoffset a).

(** [tz.normalize(a)]: the same moment on the wall clock of the zone, at the
    offset in force at that moment. The scheduler never calls it; it says
    what time it is in the zone at the moment [a] denotes. *)
Definition normalize (tz : datetime → Z) (a : datetime_tz) : Exc datetime_tz :=
  match utc_of a with
  | Ret utc => fromutc tz utc
  | Raise e => Raise e
  end.

(** Comparison of aware values: field by field when the offsets agree, by
    the moments in UTC otherwise. *)
Definition tz_compare (a b : datetime_tz) : comparison :=
  if (utcoffset a =? utcoffset b)%Z then dt_compare (local a) (local b)
  else
    match (minutes_of (local a) - utcoffset a
           ?= minutes_of (local b) - utcoffset b)%Z with
    | Eq =>
        match (second (local a) ?= second (local b))%Z with
        | Eq => (microsecond (local a) ?= microsecond (local b))%Z
        | c => c
        end
    | c => c
    end.

(** [a >= b] and [a < b] *)
Definition tz_ge (a b : datetime_tz) : bool :=
  match tz_compare a b with Lt => false | _ => true end.

Definition tz_lt (a b : datetime_tz) : Prop := tz_compare a b = Lt.

(** [a + timedelta(days=days)]: wall-clock arithmetic, the [tzinfo] is kept. *)
Definition tz_add_days (a : datetime_tz) (days : Z) : Exc datetime_tz :=
  match add_days (local a) days with
  | Ret d => Ret {| local := d; utcoffset := utcoffset a |}
  | Raise e => Raise e
  end.

(** [a.replace(hour=h, minute=mi, second=s, microsecond=us)]: the [tzinfo] is
    kept. *)
Definition tz_replace_time (a : datetime_tz) (h mi s us : Z) : datetime_tz :=
  {| local := replace_time (local a) h mi s us; utcoffset := utcoffset a |}.

Definition _get_next_run_time (w : World) : M datetime_tz :=
  now_dutch ← datetime_now_tz w;
  let today_9am := tz_replace_time now_dutch 9 0 0 0 in
  if tz_ge now_dutch today_9am then
    tomorrow ← lift (tz_add_days now_dutch 1);
    ret (tz_replace_time tomorrow 9 0 0 0)
  else ret today_9am.

(** Where the thread running [_scheduler_loop] is. *)
Inductive LoopPoint :=
  | AtWhile      (** about to test [while self.running] *)
  | Computing    (** computing [next_run] and [seconds_until_run] *)
  | Sleeping     (** inside [time.sleep(seconds_until_run)] *)
  | AfterWake    (** about to test [if self.running] *)
  | InBatch      (** inside [_run_daily_checks()] *)
  | BackingOff   (** inside the handler's [time.sleep(3600)] *)
  | Exited       (** the loop has ended *).

(** The scheduler as the loop thread sees it: the shared [running] flag and
    the thread's own position. *)
Record Scheduler := {
  running : bool;
  at_point : LoopPoint
}.

(** What an observer sees of a step. *)
Inductive Label :=
  | Internal     (** a step of the loop thread other than calling the batch *)
  | RunBatch     (** the loop thread calls [_run_daily_checks] *)
  | StopRequest  (** another thread executes [self.running = False] *)
  | StartRequest (** another thread executes [start_scheduler] *).

#[global] Instance Label_eq_dec : EqDecision Label.
Proof. solve_decision. Defined.

Definition goto (p : LoopPoint) (s : Scheduler) : Scheduler :=
  {| running := running s; at_point := p |}.

Definition set_running (b : bool) (s : Scheduler) : Scheduler :=
  {| running := b; at_point := at_point s |}.

(** One step of the thread running [_scheduler_loop], or of another thread
    acting on the flag in between two of its steps: [stop_scheduler] clears
    the flag, [start_scheduler] sets it (and starts a loop thread of its own,
    which this relation does not follow). *)
Inductive step : Scheduler → Label → Scheduler → Prop :=
  | step_while_true s :
      at_point s = AtWhile → running s = true →
      step s Internal (goto Computing s)
  | step_while_false s :
      at_point s = AtWhile → running s = false →
      step s Internal (goto Exited s)
  | step_sleep s :                      (* seconds_until_run > 0 *)
      at_point s = Computing → step s Internal (goto Sleeping s)
  | step_no_sleep s :                   (* seconds_until_run <= 0 *)
      at_point s = Computing → step s Internal (goto AfterWake s)
  | step_compute_raises s :             (* except Exception *)
      at_point s = Computing → step s Internal (goto BackingOff s)
  | step_wake s :
      at_point s = Sleeping → step s Internal (goto AfterWake s)
  | step_run s :
      at_point s = AfterWake → running s = true →
      step s RunBatch (goto InBatch s)
  | step_skip s :
      at_point s = AfterWake → running s = false →
      step s Internal (goto AtWhile s)
  | step_batch_returns s :
      at_point s = InBatch → step s Internal (goto AtWhile s)
  | step_batch_raises s :
      at_point s = InBatch → step s Internal (goto BackingOff s)
  | step_backoff_over s :
      at_point s = BackingOff → step s Internal (goto AtWhile s)
  | step_stop s :
      step s StopRequest (set_running false s)
  | step_start s :
      step s StartRequest (set_running true s).

(** A run: the labels of its steps, in order. *)
Inductive steps : Scheduler → list Label → Scheduler → Prop :=
  | steps_nil s : steps s [] s
  | steps_cons s l s' ls s'' :
      step s l s' → steps s' ls s'' → steps s (l :: ls) s''.

(* ===================================================================== *)
(** ** Vocabulary and sample data for the remaining claims *)
(* ===================================================================== *)

(** The text holds a run of ten or more digits between two slashes. *)
Definition has_id_segment (s : string) : Prop :=
  ∃ pre ds post,
    s = pre +:+ "/" +:+ ds +:+ "/" +:+ post
    ∧ 10 ≤ Py.len ds
    ∧ Py.all_chars Py.is_decimal ds = true.

Definition VALIDATION_ERROR : exn :=
  ValueError "Could not extract product ID from URL".

(** Sample clock readings in Europe/Amsterdam. *)
Definition at_0800 : datetime :=
  {| ordinal := 739000; hour := 8; minute := 0; second := 0; microsecond := 0 |}.

Definition at_090001 : datetime :=
  {| ordinal := 739000; hour := 9; minute := 0; second := 1; microsecond := 0 |}.

(** A world whose clocks show [reading], in Amsterdam at summer time. *)
Definition clock_world (reading : datetime) : World :=
  {| HAS_SELENIUM := false;
     session_get := λ _ _, Raise (RequestException "offline");
     chrome_start := Raise (WebDriverException "chrome not found");
     driver_get := λ _ _, Raise (WebDriverException "no session");
     clock := λ _, reading;
     utc_clock := λ _, shift_minutes reading (-120);
     dutch_tz := λ _, 120%Z |}.

(** Europe/Amsterdam in 2027: summer time, +120 minutes, from Sunday 28 March
    01:00 UTC until Sunday 31 October 01:00 UTC; winter time, +60 minutes,
    before and after. *)
Definition amsterdam_2027 (utc : datetime) : Z :=
  if dt_ge utc {| ordinal := 740068; hour := 1; minute := 0; second := 0;
                  microsecond := 0 |}
     && negb (dt_ge utc {| ordinal := 740285; hour := 1; minute := 0; second := 0;
                           microsecond := 0 |})
  then 120%Z else 60%Z.

(** A world whose clock reads [utc] and whose zone is [amsterdam_2027]. *)
Definition amsterdam_world (utc : datetime) : World :=
  {| HAS_SELENIUM := false;
     session_get := λ _ _, Raise (RequestException "offline");
     chrome_start := Raise (WebDriverException "chrome not found");
     driver_get := λ _ _, Raise (WebDriverException "no session");
     clock := λ _, utc;
     utc_clock := λ _, utc;
     dutch_tz := amsterdam_2027 |}.

(** Saturday 27 March 2027, 09:00 UTC: 10:00 in Amsterdam, the day before
    summer time starts. *)
Definition spring_eve_utc : datetime :=
  {| ordinal := 740067; hour := 9; minute := 0; second := 0; microsecond := 0 |}.

(** Saturday 30 October 2027, 08:00 UTC: 10:00 in Amsterdam, the day before
    summer time ends. *)
Definition autumn_eve_utc : datetime :=
  {| ordinal := 740284; hour := 8; minute := 0; second := 0; microsecond := 0 |}.

(** Tuesday 15 June 2027, 08:00 UTC: 10:00 in Amsterdam, no change ahead. *)
Definition june_utc : datetime :=
  {| ordinal := 740147; hour := 8; minute := 0; second := 0; microsecond := 0 |}.

(** A world in which the target is listed second on the first page, by a
    link for which no naming strategy finds a name. *)
Definition TRACKED_URL : string :=
  "https://www.bol.com/nl/nl/p/lenor-geurbooster/9300000170626119/".

Definition sentinel_world : World :=
  {| HAS_SELENIUM := false;
     session_get := λ _ page,
       match page with
       | 1 => ok [link_to ARIEL "Ariel";
                  bare_anchor "/nl/nl/p/lenor-geurbooster/9300000170626119/"]
       | _ => Ret {| status_code := 403; text := [] |}
       end;
     chrome_start := Raise (WebDriverException "chrome not found");
     driver_get := λ _ _, Raise (WebDriverException "no session");
     clock := λ _, morning;
     utc_clock := λ _, morning;
     dutch_tz := λ _, 120%Z |}.

(** One tracked entry for the target, scheduled daily, with the given stored
    name. *)
Definition tracked_entry (stored_name : option string) : TrackedRow :=
  {| tr_id := 1; tr_keyword := "lenor"; tr_product_id := TARGET;
     tr_product_url := TRACKED_URL; tr_product_name := stored_name;
     tr_active := 1; tr_created_at := Some morning;
     tr_stop_after_days := None; tr_daily_scheduler := 1 |}.

Definition tracked_state (stored_name : option string) : State :=
  {| fetches := []; tracked_products := [tracked_entry stored_name];
     product_tracking := []; ticks := 0 |}.

(** Every whitespace character of the text is a single space that does not
    follow another whitespace character; [prev_space] says whether the text
    comes right after one. *)
Fixpoint well_spaced (prev_space : bool) (s : string) : bool :=
  match s with
  | EmptyString => true
  | String c rest =>
      if Py.is_space c
      then Ascii.eqb c " " && negb prev_space && well_spaced true rest
      else well_spaced false rest
  end.

Definition not_hyphen (c : ascii) : bool := negb (Ascii.eqb c "-").

(* ===================================================================== *)
(** ** The remaining operations on [tracked_products] *)
(* ===================================================================== *)

(** [SELECT ... WHERE id = ?] followed by [fetchone()]. *)
Definition get_tracked_product (tracked_id : nat) : M (option TrackedRow) :=
  st ← get_state;
  ret (head (filter (λ row, tr_id row = tracked_id) (tracked_products st))).

Definition by_id_desc (a b : TrackedRow) : Prop := tr_id b ≤ tr_id a.

#[global] Instance by_id_desc_dec : RelDecision by_id_desc.
Proof. intros a b. unfold by_id_desc. apply _. Defined.

(** [SELECT ... ORDER BY id DESC], restricted to [active = 1] unless
    [include_inactive]. *)
Definition list_tracked_products (include_inactive : bool) : M (list TrackedRow) :=
  st ← get_state;
  if include_inactive
  then ret (merge_sort by_id_desc (tracked_products st))
  else ret (merge_sort by_id_desc
              (filter (λ row, tr_active row = 1%Z) (tracked_products st))).

(** [UPDATE tracked_products SET daily_scheduler = ? WHERE id = ?] *)
Definition update_daily_scheduler (tracked_id : nat) (new_state : Z) : M unit :=
  modify_state (λ st,
    set_tracked_products
      ((λ row, if bool_decide (tr_id row = tracked_id)
               then {| tr_id := tr_id row; tr_keyword := tr_keyword row;
                       tr_product_id := tr_product_id row;
                       tr_product_url := tr_product_url row;
                       tr_product_name := tr_product_name row;
                       tr_active := tr_active row;
                       tr_created_at := tr_created_at row;
                       tr_stop_after_days := tr_stop_after_days row;
                       tr_daily_scheduler := new_state |}
               else row) <$> tracked_products st) st).

Definition PRODUCT_NOT_FOUND : exn := ValueError "Product not found".

Definition toggle_daily_scheduler (tracked_id : nat) : M bool :=
  st ← get_state;
  match head (filter (λ row, tr_id row = tracked_id) (tracked_products st)) with
  | None => raise PRODUCT_NOT_FOUND
  | Some current_state =>
      let new_state := if (tr_daily_scheduler current_state =? 0)%Z then 1%Z else 0%Z in
      _ ← update_daily_scheduler tracked_id new_state;
      ret (negb (new_state =? 0)%Z)
  end.

(** The keys of the table. *)
Definition row_ids (st : State) : list nat := tr_id <$> tracked_products st.

(** A table with one scheduled and one unscheduled entry. *)
Definition two_row_state : State :=
  {| fetches := [];
     tracked_products :=
       [ {| tr_id := 1; tr_keyword := "lenor"; tr_product_id := TARGET;
            tr_product_url := TRACKED_URL; tr_product_name := Some "Lenor";
            tr_active := 1; tr_created_at := Some morning;
            tr_stop_after_days := None; tr_daily_scheduler := 1 |};
         {| tr_id := 2; tr_keyword := "ariel"; tr_product_id := ARIEL;
            tr_product_url := "https://www.bol.com/nl/nl/p/ariel-pods/9300000000000001/";
            tr_product_name := Some "Ariel"; tr_active := 1;
            tr_created_at := Some morning;
            tr_stop_after_days := None; tr_daily_scheduler := 0 |} ];
     product_tracking := []; ticks := 0 |}.

(** The key of the row an outcome of the batch is about. *)
Definition outcome_id (o : CheckOutcome) : nat :=
  match o with
  | Deactivated id _ _ => id
  | Checked id _ _ _ _ => id
  | Errored id _ _ _ => id
  end.

(** An entry created at [morning] that stops after 30 days, and the clock
    readings exactly 30 days later and one second before that. *)
Definition expiring_entry : TrackedRow :=
  {| tr_id := 1; tr_keyword := "lenor"; tr_product_id := TARGET;
     tr_product_url := TRACKED_URL; tr_product_name := Some "Lenor";
     tr_active := 1; tr_created_at := Some morning;
     tr_stop_after_days := Some 30%Z; tr_daily_scheduler := 1 |}.

Definition expiring_state : State :=
  {| fetches := []; tracked_products := [expiring_entry];
     product_tracking := []; ticks := 0 |}.

Definition at_deadline : datetime :=
  {| ordinal := 739030; hour := 8; minute := 0; second := 0; microsecond := 0 |}.

Definition before_deadline : datetime :=
  {| ordinal := 739030; hour := 7; minute := 59; second := 59; microsecond := 0 |}.

(** How many steps of its own the loop thread is from its exit, at most,
    once the flag is cleared. *)
Definition steps_to_exit (p : LoopPoint) : nat :=
  match p with
  | Exited => 0
  | AtWhile => 1
  | AfterWake => 2
  | BackingOff => 2
  | Sleeping => 3
  | InBatch => 3
  | Computing => 4
  end.

(** The steps of a run that the loop thread takes itself. *)
Definition own_steps (ls : list Label) : nat :=
  length (filter (λ l, l = Internal ∨ l = RunBatch) ls).

(* ===================================================================== *)
(** ** The request handlers of [app.py] *)
(* ===================================================================== *)

(** The JSON documents the handlers answer with. *)
Inductive ApiBody :=
  | JsonError (error : string)                               (** [{"error": ...}] *)
  | JsonCreated (id : nat) (keyword product_id product_url : string)
                                                             (** [jsonify(created)] *)
  | JsonCheck (result : LocateResult)                        (** [{"ok": True, **result}] *).

(** [str(e)] *)
Definition str_exn (e : exn) : string :=
  match e with
  | ValueError msg => msg
  | OverflowError msg => msg
  | RequestException msg => msg
  | WebDriverException msg => msg
  | OtherError msg => msg
  end.

(** [api_check_one] *)
Definition api_check_one (w : World) (tracked_id : nat) : M (ApiBody * nat) :=
  try_except
    (product ← get_tracked_product tracked_id;
     match product with
     | None => ret (JsonError "not found", 404)
     | Some product =>
         let keyword := tr_keyword product in
         let product_id := tr_product_id product in
         result ← find_product_ranking w keyword product_id 50;
         let product_name :=
           if truthy_opt (tr_product_name product)
           then default "" (tr_product_name product)
           else _extract_name_from_url (tr_product_url product) in
         let product_name :=
           match located_name result with
           | Some name => name
           | None => product_name
           end in
         _ ← save_to_db w keyword product_id product_name
               (position result) (r_page_product result);
         ret (JsonCheck result, 200)
     end)
    (λ e, ret (JsonError (str_exn e), 400)).

(* ===================================================================== *)
(** * Properties *)

Example re_search_id_ex :
  Py.re_search_id "https://www.bol.com/nl/nl/p/lenor/9300000170626119/?cid=1"
  = Some "9300000170626119".
Proof. reflexivity. Qed.

Example re_search_id_short : Py.re_search_id "/p/lenor/123456789/" = None.
Proof. reflexivity. Qed.

Example title_ex : Py.title "lenor geurbooster 6 x 235g" = "Lenor Geurbooster 6 X 235G".
Proof. reflexivity. Qed.

Example extract_ex :
  _extract_products_from_html
    [anchor "/nl/nl/p/lenor/9300000170626119/" "Lenor";
     anchor "/nl/nl/p/lenor/9300000170626119/?x=1" "Lenor again";
     card "9300000000000001" "Ariel pods";
     bare_anchor "/nl/nl/p/robijn/9300000000000002/"]
  = [ {| prod_id := "9300000170626119"; prod_name := "Lenor";
         prod_url := "https://www.bol.com/nl/nl/p/lenor/9300000170626119/" |};
      {| prod_id := "9300000000000002"; prod_name := "Unknown Product";
         prod_url := "https://www.bol.com/nl/nl/p/robijn/9300000000000002/" |};
      {| prod_id := "9300000000000001"; prod_name := "Ariel pods";
         prod_url := "https://www.bol.com/nl/nl/p/9300000000000001/" |} ].
Proof. vm_compute. reflexivity. Qed.

Lemma add_fetches_nil st : add_fetches [] st = st.
Proof. destruct st; unfold add_fetches; simpl. by rewrite app_nil_r. Qed.

Lemma add_fetches_app fs gs st :
  add_fetches gs (add_fetches fs st) = add_fetches (fs ++ gs) st.
Proof. unfold add_fetches; simpl. by rewrite app_assoc. Qed.

Lemma mobile_loop_scan w keyword tid pages products target_info st :
  let '(ps, ti, n) :=
    scan false (mobile_records w keyword) tid pages products target_info in
  mobile_loop w keyword tid pages products target_info st
  = (Ret (ps, ti), add_fetches (fetch_of Mobile keyword <$> take n pages) st).
Proof.
  revert products target_info st.
  induction pages as [|page rest IH]; intros products target_info st; simpl.
  - by rewrite add_fetches_nil.
  - unfold mobile_page, mobile_records, try_except, mbind, M_bind, bind,
      log_fetch, lift, ret; simpl.
    destruct (session_get w keyword page) as [response|e]; simpl; [|done].
    destruct (status_code response =? 200)%Z; simpl; [|done].
    rewrite orb_false_r.
    set (ps := products ++ _).
    set (ti := check_target _ _ _ _ _).
    destruct (found ti) eqn:Hf; simpl; [done|].
    specialize (IH ps ti
      (add_fetches [fetch_of Mobile keyword page] st)).
    destruct (scan _ _ _ _ _ _) as [[ps' ti'] n].
    unfold add_fetches, fetch_of in *; simpl in *.
    rewrite IH. by rewrite <- app_assoc.
Qed.

Lemma browser_loop_scan w keyword tid pages products target_info st :
  let '(ps, ti, n) :=
    scan true (browser_records w keyword) tid pages products target_info in
  browser_loop w keyword tid pages products target_info st
  = (Ret (ps, ti), add_fetches (fetch_of Browser keyword <$> take n pages) st).
Proof.
  revert products target_info st.
  induction pages as [|page rest IH]; intros products target_info st; simpl.
  - by rewrite add_fetches_nil.
  - unfold browser_page, browser_records, try_except_wde, try_except, mbind,
      M_bind, bind, log_fetch, lift, ret, raise; simpl.
    destruct (driver_get w keyword page) as [html|e]; simpl.
    2:{ by destruct e. }
    set (pp := _extract_products_from_html html).
    set (ps := products ++ _).
    set (ti := check_target _ _ _ _ _).
    destruct (found ti) eqn:Hf; simpl; [done|].
    destruct (length pp =? 0)%nat eqn:He; simpl; [done|].
    specialize (IH ps ti
      (add_fetches [fetch_of Browser keyword page] st)).
    destruct (scan _ _ _ _ _ _) as [[ps' ti'] n].
    unfold add_fetches, fetch_of in *; simpl in *.
    rewrite IH. by rewrite <- app_assoc.
Qed.

(** ** The extractor keeps the first record of every identifier *)

Lemma keep_first_app seen a b :
  keep_first seen (a ++ b)
  = keep_first seen a ++ keep_first (list_to_set (ids a) ∪ seen) b.
Proof.
  revert seen. induction a as [|r a IH]; intros seen; simpl.
  - f_equal. set_solver.
  - case_bool_decide as Hin.
    + rewrite IH. do 2 f_equal. set_solver.
    + simpl. rewrite IH. do 3 f_equal. set_solver.
Qed.

Lemma extract_links_cons link rest products seen :
  extract_links (link :: rest) products seen
  = match link_candidate link with
    | Some r =>
        if bool_decide (prod_id r ∈ seen) then extract_links rest products seen
        else extract_links rest (products ++ [r]) ({[prod_id r]} ∪ seen)
    | None => extract_links rest products seen
    end.
Proof.
  unfold link_candidate. simpl.
  destruct (Py.truthy _ && Py.contains _ _); [|done].
  by destruct (Py.re_search_id _).
Qed.

Lemma extract_cards_cons elem rest products seen :
  extract_cards (elem :: rest) products seen
  = match card_candidate elem with
    | Some r =>
        if bool_decide (prod_id r ∈ seen) then extract_cards rest products seen
        else extract_cards rest (products ++ [r]) ({[prod_id r]} ∪ seen)
    | None => extract_cards rest products seen
    end.
Proof.
  unfold card_candidate. simpl.
  destruct (Py.truthy _ && Py.re_fullmatch_id _); simpl; [|done].
  by case_bool_decide.
Qed.

Lemma extract_links_keep links products seen :
  extract_links links products seen
  = (products ++ keep_first seen (omap link_candidate links),
     list_to_set (ids (omap link_candidate links)) ∪ seen).
Proof.
  revert products seen. induction links as [|link rest IH]; intros products seen.
  - simpl. rewrite app_nil_r. f_equal. set_solver.
  - rewrite extract_links_cons. cbn [omap list_omap].
    destruct (link_candidate link) as [r|]; [|apply IH].
    cbn [keep_first]. case_bool_decide as Hin; rewrite IH.
    + f_equal. set_solver.
    + rewrite <- app_assoc. f_equal. set_solver.
Qed.

Lemma extract_cards_keep elems products seen :
  extract_cards elems products seen
  = (products ++ keep_first seen (omap card_candidate elems),
     list_to_set (ids (omap card_candidate elems)) ∪ seen).
Proof.
  revert products seen. induction elems as [|elem rest IH]; intros products seen.
  - simpl. rewrite app_nil_r. f_equal. set_solver.
  - rewrite extract_cards_cons. cbn [omap list_omap].
    destruct (card_candidate elem) as [r|]; [|apply IH].
    cbn [keep_first]. case_bool_decide as Hin; rewrite IH.
    + f_equal. set_solver.
    + rewrite <- app_assoc. f_equal. set_solver.
Qed.

Lemma extract_keep_first soup :
  _extract_products_from_html soup = keep_first ∅ (scan_candidates soup).
Proof.
  unfold _extract_products_from_html, scan_candidates.
  rewrite extract_links_keep, extract_cards_keep, keep_first_app. simpl.
  do 2 f_equal.
Qed.

Lemma keep_first_elem seen l r :
  r ∈ keep_first seen l → r ∈ l ∧ prod_id r ∉ seen.
Proof.
  revert seen. induction l as [|c l IH]; intros seen; simpl.
  - by intros ?%elem_of_nil.
  - case_bool_decide as Hin.
    + intros [? ?]%IH. split; [by right | done].
    + intros [->|[? ?]%IH]%elem_of_cons.
      * split; [by left | done].
      * split; [by right | set_solver].
Qed.

Lemma keep_first_NoDup seen l : NoDup (ids (keep_first seen l)).
Proof.
  revert seen. induction l as [|c l IH]; intros seen; simpl.
  - constructor.
  - case_bool_decide as Hin; [apply IH|].
    unfold ids. cbn [fmap list_fmap]. constructor; [|apply IH].
    intros (r & Heq & Hr)%list_elem_of_fmap.
    apply keep_first_elem in Hr as [_ Hr]. set_solver.
Qed.

Lemma keep_first_sublist seen l : sublist (keep_first seen l) l.
Proof.
  revert seen. induction l as [|c l IH]; intros seen; simpl.
  - constructor.
  - case_bool_decide; [apply sublist_cons | apply sublist_skip]; apply IH.
Qed.

Lemma keep_first_complete seen l r :
  r ∈ l → prod_id r ∈ seen ∨ prod_id r ∈ ids (keep_first seen l).
Proof.
  revert seen. induction l as [|c l IH]; intros seen; simpl.
  - by intros ?%elem_of_nil.
  - intros [->|Hr]%elem_of_cons.
    + case_bool_decide; [by left|]. right. unfold ids. simpl. by left.
    + case_bool_decide as Hin.
      * by apply IH.
      * destruct (IH ({[prod_id c]} ∪ seen) Hr) as [Hs|Hk].
        -- apply elem_of_union in Hs as [->%elem_of_singleton|Hs]; [|by left].
           right. unfold ids. simpl. by left.
        -- right. unfold ids. simpl. by right.
Qed.

Lemma keep_first_first seen l r :
  r ∈ keep_first seen l → first_of_its_id l r.
Proof.
  revert seen. induction l as [|c l IH]; intros seen; simpl.
  - by intros ?%elem_of_nil.
  - case_bool_decide as Hin.
    + intros Hr. pose proof (keep_first_elem _ _ _ Hr) as [_ Hns].
      destruct (IH _ Hr) as (j & Hj & Hfirst).
      exists (S j). split; [done|].
      intros [|j'] r' Hlt; simpl.
      * intros [= <-]. congruence.
      * apply Hfirst. lia.
    + intros [->|Hr]%elem_of_cons.
      * exists 0. split; [done|]. intros; lia.
      * pose proof (keep_first_elem _ _ _ Hr) as [_ Hns].
        destruct (IH _ Hr) as (j & Hj & Hfirst).
        exists (S j). split; [done|].
        intros [|j'] r' Hlt; simpl.
        -- intros [= <-]. set_solver.
        -- apply Hfirst. lia.
Qed.

(** ** The page loop *)

Lemma find_on_page_None tid pos pp :
  find_on_page tid pos pp = None ↔ absent tid pp.
Proof.
  revert pos. induction pp as [|r pp IH]; intros pos; simpl.
  - split; [|done]. intros _ r Hr. by apply elem_of_nil in Hr.
  - destruct (String.eqb (prod_id r) tid) eqn:He.
    + apply String.eqb_eq in He. split; [done|].
      intros Ha. exfalso. apply (Ha r); [by left | done].
    + apply String.eqb_neq in He. rewrite IH. split.
      * intros Ha r' [->|Hr]%elem_of_cons; [done | by apply Ha].
      * intros Ha r' Hr. apply Ha. by right.
Qed.

Lemma find_on_page_Some tid pos pp m :
  find_on_page tid pos pp = Some m ↔
  ∃ i, m = pos + i
       ∧ (∃ r, pp !! i = Some r ∧ prod_id r = tid)
       ∧ ∀ j r, j < i → pp !! j = Some r → prod_id r ≠ tid.
Proof.
  revert pos. induction pp as [|r pp IH]; intros pos; simpl.
  - split; [done|]. by intros (i & _ & (r & Hr & _) & _).
  - destruct (String.eqb (prod_id r) tid) eqn:He.
    + apply String.eqb_eq in He. split.
      * intros [= <-]. exists 0. split; [lia|]. split; [by exists r|]. intros; lia.
      * intros (i & -> & (r' & Hr' & Hid) & Hfirst).
        destruct i as [|i]; [f_equal; lia|].
        exfalso. apply (Hfirst 0 r); [lia | done | done].
    + apply String.eqb_neq in He. rewrite IH. split.
      * intros (i & -> & (r' & Hr' & Hid) & Hfirst).
        exists (S i). split; [lia|]. split; [by exists r'|].
        intros [|j] r'' Hlt; simpl; [by intros [= <-]|].
        apply Hfirst. lia.
      * intros (i & -> & (r' & Hr' & Hid) & Hfirst).
        destruct i as [|i]; simpl in Hr'; [congruence|].
        exists i. split; [lia|]. split; [by exists r'|].
        intros j r'' Hlt Hj. apply (Hfirst (S j) r''); [lia | done].
Qed.

Lemma find_on_page_first_at tid pp m :
  find_on_page tid 1 pp = Some m ↔ first_at tid pp m.
Proof.
  rewrite find_on_page_Some. unfold first_at. split.
  - intros (i & -> & Hr & Hfirst). replace (1 + i - 1) with i by lia.
    split; [lia | done].
  - intros (Hm & Hr & Hfirst). exists (m - 1). split; [lia | done].
Qed.

Lemma first_at_not_absent tid pp m : first_at tid pp m → absent tid pp → False.
Proof.
  intros (_ & (r & Hr & Hid) & _) Ha.
  apply (Ha r); [|done]. by eapply list_elem_of_lookup_2.
Qed.

Lemma first_at_unique tid pp m m' : first_at tid pp m → first_at tid pp m' → m = m'.
Proof.
  intros H1%find_on_page_first_at H2%find_on_page_first_at. congruence.
Qed.

Lemma check_target_hit tid p ps pp ti m :
  Py.truthy tid = true → first_at tid pp m →
  check_target (Some tid) p ps pp ti
  = {| found := true; page := Some p; position_on_page := Some m;
       page_product := Some (length ps - length pp + m) |}.
Proof.
  intros Ht Hm%find_on_page_first_at. unfold check_target. simpl.
  by rewrite Ht, Hm.
Qed.

Lemma check_target_cases tid p ps pp ti :
  (Py.truthy tid = true ∧ ∃ m, first_at tid pp m)
  ∨ (check_target (Some tid) p ps pp ti = ti
     ∧ (Py.truthy tid = true → absent tid pp)).
Proof.
  unfold check_target. simpl.
  destruct (Py.truthy tid) eqn:Ht; [|by right].
  destruct (find_on_page tid 1 pp) as [m|] eqn:Hf.
  - left. split; [done|]. exists m. by apply find_on_page_first_at.
  - right. split; [done|]. intros _. by apply find_on_page_None in Hf.
Qed.

Lemma check_target_absent tid p ps pp ti :
  absent tid pp → check_target (Some tid) p ps pp ti = ti.
Proof.
  intros Ha. destruct (check_target_cases tid p ps pp ti) as [[_ [m Hm]]|[? _]];
    [|done].
  destruct (first_at_not_absent _ _ _ Hm Ha).
Qed.

Lemma scan_count_le soe records tid pages ps ti :
  (scan soe records tid pages ps ti).2 ≤ length pages.
Proof.
  revert ps ti. induction pages as [|page rest IH]; intros ps ti; simpl; [lia|].
  destruct (records page) as [pp|]; simpl; [|lia].
  destruct (found _ || _); simpl; [lia|].
  specialize (IH (ps ++ pp) (check_target tid page (ps ++ pp) pp ti)).
  destruct (scan _ _ _ _ _ _) as [[? ?] n]. simpl in *. lia.
Qed.

(** The loop only ever appends whole pages. *)
Lemma scan_products soe records tid pages ps ti :
  let '(ps', _, n) := scan soe records tid pages ps ti in
  ps' = ps ++ concat ((λ j, default [] (records j)) <$> take n pages).
Proof.
  revert ps ti. induction pages as [|page rest IH]; intros ps ti; simpl.
  - by rewrite app_nil_r.
  - destruct (records page) as [pp|] eqn:Hp; simpl.
    2:{ rewrite Hp. simpl. by rewrite app_nil_r. }
    destruct (found _ || _); simpl.
    { rewrite Hp. simpl. by rewrite app_nil_r. }
    specialize (IH (ps ++ pp) (check_target tid page (ps ++ pp) pp ti)).
    destruct (scan _ _ _ _ _ _) as [[ps' ?] n]. simpl.
    rewrite Hp. simpl. by rewrite IH, <- app_assoc.
Qed.

(** The run up to and including the page where the target first appears. *)
Lemma scan_hit soe records tid pre p post ps ti pp m :
  Py.truthy tid = true → found ti = false →
  (∀ j, j ∈ pre → ∃ ppj, records j = Some ppj ∧ absent tid ppj
                          ∧ (soe = true → ppj ≠ [])) →
  records p = Some pp → first_at tid pp m →
  scan soe records (Some tid) (pre ++ p :: post) ps ti
  = (ps ++ concat ((λ j, default [] (records j)) <$> pre) ++ pp,
     {| found := true; page := Some p; position_on_page := Some m;
        page_product :=
          Some (length (ps ++ concat ((λ j, default [] (records j)) <$> pre)) + m) |},
     S (length pre)).
Proof.
  intros Ht Hf Hpre Hp Hm. revert ps Hpre.
  induction pre as [|j pre IH]; intros ps Hpre; simpl.
  - rewrite Hp. rewrite (check_target_hit _ _ _ _ _ m Ht Hm). simpl.
    rewrite app_nil_r. do 4 f_equal. rewrite length_app. lia.
  - destruct (Hpre j) as (ppj & Hj & Hab & Hne); [by left|].
    rewrite Hj. rewrite (check_target_absent _ _ _ _ _ Hab). simpl.
    assert (Hstop : found ti || soe && (length ppj =? 0) = false).
    { rewrite Hf. destruct soe; simpl; [|done].
      destruct ppj; [by destruct Hne | done]. }
    rewrite Hstop. rewrite IH.
    2:{ intros j' Hj'. apply Hpre. by right. }
    by rewrite <- !app_assoc.
Qed.

(** What a match at the end of the loop says about the pages. *)
Lemma scan_found_inv soe records tid pages ps ti :
  found ti = false →
  found (scan soe records (Some tid) pages ps ti).1.2 = true →
  Py.truthy tid = true
  ∧ ∃ pre p post pp m,
      pages = pre ++ p :: post
      ∧ (∀ j, j ∈ pre → ∃ ppj, records j = Some ppj ∧ absent tid ppj
                                ∧ (soe = true → ppj ≠ []))
      ∧ records p = Some pp ∧ first_at tid pp m.
Proof.
  intros Hf. revert ps. induction pages as [|page rest IH]; intros ps; simpl.
  - congruence.
  - destruct (records page) as [pp|] eqn:Hp; simpl; [|congruence].
    destruct (check_target_cases tid page (ps ++ pp) pp ti)
      as [[Ht [m Hm]]|[Hsame Hab]].
    + intros _. split; [done|]. exists [], page, rest, pp, m. simpl.
      split_and!; try done. by intros j ?%elem_of_nil.
    + rewrite Hsame, Hf. simpl.
      destruct (soe && (length pp =? 0)) eqn:Hstop; simpl; [congruence|].
      specialize (IH (ps ++ pp)).
      destruct (scan _ _ _ _ _ _) as [[ps' ti'] n]. simpl in *.
      intros Hfound. destruct (IH Hfound) as (Ht & pre & p & post & pp' & m & -> & Hpre & Hp' & Hm).
      split; [done|]. exists (page :: pre), p, post, pp', m.
      split_and!; try done.
      intros j [->|Hj]%elem_of_cons; [|by apply Hpre].
      exists pp. split_and!; [done | by apply Hab |].
      intros -> ->. simpl in Hstop. done.
Qed.

(** A run that does not match leaves the match outcome as it was. *)
Lemma scan_not_found soe records tid pages ps ti :
  found (scan soe records tid pages ps ti).1.2 = false →
  (scan soe records tid pages ps ti).1.2 = ti.
Proof.
  revert ps ti. induction pages as [|page rest IH]; intros ps ti; simpl; [done|].
  destruct (records page) as [pp|]; simpl; [|done].
  set (ti' := check_target tid page (ps ++ pp) pp ti).
  assert (Hti : found ti' = false → ti' = ti).
  { unfold ti', check_target. destruct (truthy_opt tid); [|done].
    by destruct (find_on_page _ _ _). }
  destruct (found ti') eqn:Hf'; simpl; [congruence|].
  destruct (soe && _); simpl; [by intros; apply Hti|].
  specialize (IH (ps ++ pp) ti').
  destruct (scan _ _ _ _ _ _) as [[ps' ti''] n]. simpl in *.
  intros H. rewrite (IH H). by apply Hti.
Qed.

(** ** Extracted identifiers are runs of ten or more digits *)

Lemma span_decimal_spec s :
  let '(ds, tl) := Py.span_decimal s in
  s = String.append ds tl ∧ Py.all_chars Py.is_decimal ds = true
  ∧ (∀ c tl', tl = String c tl' → Py.is_decimal c = false).
Proof.
  induction s as [|c s IH]; simpl.
  - split_and!; [done | done |]. intros; discriminate.
  - destruct (Py.is_decimal c) eqn:Hc.
    + destruct (Py.span_decimal s) as [ds tl]. destruct IH as (-> & Hall & Htl).
      simpl. rewrite Hc. by split_and!.
    + simpl. split_and!; [done | done |]. by intros c' tl' [= <- <-].
Qed.

Lemma re_search_id_cons c rest :
  Py.re_search_id (String c rest)
  = if Ascii.eqb c "/"
    then if (10 <=? Py.len (Py.span_decimal rest).1)
            && Py.startswith "/" (Py.span_decimal rest).2
         then Some (Py.span_decimal rest).1
         else Py.re_search_id rest
    else Py.re_search_id rest.
Proof. cbn [Py.re_search_id]. by destruct (Py.span_decimal rest). Qed.

Lemma re_search_id_fullmatch s ds :
  Py.re_search_id s = Some ds → Py.re_fullmatch_id ds = true.
Proof.
  induction s as [|c s IH]; [done|].
  rewrite re_search_id_cons.
  destruct (Ascii.eqb c "/"); [|done].
  pose proof (span_decimal_spec s) as Hspan.
  destruct (Py.span_decimal s) as [ds' tl]. destruct Hspan as (_ & Hall & _).
  cbn [fst snd].
  destruct ((10 <=? Py.len ds') && Py.startswith "/" tl) eqn:Hok; [|done].
  intros [= <-]. apply andb_true_iff in Hok as [Hlen _].
  unfold Py.re_fullmatch_id. by rewrite Hlen, Hall.
Qed.

Lemma fullmatch_truthy s : Py.re_fullmatch_id s = true → Py.truthy s = true.
Proof.
  unfold Py.re_fullmatch_id. intros [Hlen _]%andb_true_iff.
  destruct s; [done | done].
Qed.

Lemma link_candidate_id link r :
  link_candidate link = Some r → Py.re_fullmatch_id (prod_id r) = true.
Proof.
  unfold link_candidate. destruct (_ && _); [|done].
  destruct (Py.re_search_id _) as [ds|] eqn:Hs; [|done].
  intros [= <-]. simpl. by eapply re_search_id_fullmatch.
Qed.

Lemma card_candidate_id elem r :
  card_candidate elem = Some r → Py.re_fullmatch_id (prod_id r) = true.
Proof.
  unfold card_candidate.
  destruct (Py.truthy _ && Py.re_fullmatch_id _) eqn:Hok; [|done].
  intros [= <-]. simpl. by apply andb_true_iff in Hok as [_ ?].
Qed.

Lemma scan_candidates_id soup r :
  r ∈ scan_candidates soup → Py.re_fullmatch_id (prod_id r) = true.
Proof.
  unfold scan_candidates.
  intros [(link & _ & Hc)%list_elem_of_omap|(elem & _ & Hc)%list_elem_of_omap]%elem_of_app.
  - by eapply link_candidate_id.
  - by eapply card_candidate_id.
Qed.

(** Every extracted record carries an identifier of ten or more digits. *)
Lemma extract_ids_wellformed soup r :
  r ∈ _extract_products_from_html soup → Py.re_fullmatch_id (prod_id r) = true.
Proof.
  rewrite extract_keep_first. intros [Hr _]%keep_first_elem.
  by eapply scan_candidates_id.
Qed.

Lemma page_records_ids w s keyword j pp r :
  page_records w s keyword j = Some pp → r ∈ pp → Py.truthy (prod_id r) = true.
Proof.
  intros Hp Hr. apply fullmatch_truthy.
  destruct s; simpl in Hp; unfold mobile_records, browser_records in Hp.
  - destruct (session_get w keyword j) as [resp|]; [|done].
    destruct (status_code resp =? 200)%Z; [|done].
    injection Hp as <-. by eapply extract_ids_wellformed.
  - destruct (driver_get w keyword j) as [html|]; [|done].
    injection Hp as <-. by eapply extract_ids_wellformed.
Qed.

Lemma first_at_truthy w s keyword j pp tid m :
  page_records w s keyword j = Some pp → first_at tid pp m → Py.truthy tid = true.
Proof.
  intros Hp (_ & (r & Hr & <-) & _).
  eapply page_records_ids; [done|]. by eapply list_elem_of_lookup_2.
Qed.

(** ** The strategies as runs of the page loop *)

Lemma take_seq_le n k : n ≤ k → take n (seq 1 k) = seq 1 n.
Proof. intros. rewrite take_seq. f_equal. lia. Qed.

Lemma search_products_mobile_outcome w keyword k tid st :
  let o := strategy_outcome w Mobile keyword tid k in
  search_products_mobile w keyword k tid st
  = (Ret (o.1.1, o.1.2), add_fetches (fetch_of Mobile keyword <$> seq 1 o.2) st).
Proof.
  unfold search_products_mobile, strategy_outcome.
  pose proof (mobile_loop_scan w keyword tid (seq 1 k) [] target_not_found st) as H.
  pose proof (scan_count_le false (mobile_records w keyword) tid (seq 1 k) []
                target_not_found) as Hle.
  destruct (scan _ _ _ _ _ _) as [[ps ti] n]. simpl in *.
  rewrite length_seq in Hle. by rewrite H, take_seq_le.
Qed.

Lemma search_products_browser_outcome w keyword k tid st :
  let o := strategy_outcome w Browser keyword tid k in
  search_products_browser w keyword k tid st
  = (Ret (o.1.1, o.1.2), add_fetches (fetch_of Browser keyword <$> seq 1 o.2) st).
Proof.
  unfold search_products_browser, strategy_outcome, browser_available.
  destruct (HAS_SELENIUM w); simpl.
  2:{ unfold ret. by rewrite add_fetches_nil. }
  unfold try_except, mbind, M_bind, bind, lift, ret.
  destruct (chrome_start w) as [[]|e]; simpl.
  2:{ by rewrite add_fetches_nil. }
  pose proof (browser_loop_scan w keyword tid (seq 1 k) [] target_not_found st) as H.
  pose proof (scan_count_le true (browser_records w keyword) tid (seq 1 k) []
                target_not_found) as Hle.
  destruct (scan _ _ _ _ _ _) as [[ps ti] n]. simpl in *.
  rewrite length_seq in Hle. by rewrite H, take_seq_le.
Qed.

Lemma search_products_outcome w s keyword k tid st :
  let o := strategy_outcome w s keyword tid k in
  run_strategy w s keyword k tid st
  = (Ret (o.1.1, o.1.2), add_fetches (fetch_of s keyword <$> seq 1 o.2) st).
Proof.
  destruct s; [apply search_products_mobile_outcome
              | apply search_products_browser_outcome].
Qed.

Lemma seq_split_at k pre p post :
  seq 1 k = pre ++ p :: post →
  pre = seq 1 (length pre) ∧ p = S (length pre) ∧ p ≤ k.
Proof.
  intros H.
  assert (Hlen : length (seq 1 k) = length pre + S (length post)).
  { rewrite H, length_app. done. }
  rewrite length_seq in Hlen.
  assert (Hk : k = length pre + S (length post)) by lia.
  rewrite Hk, seq_app in H. simpl in H.
  apply app_inj_1 in H as [Hpre Hrest]; [|by rewrite length_seq].
  injection Hrest as Hp _. split_and!; [done | lia | lia].
Qed.

Lemma elem_of_seq_1 j n : j ∈ seq 1 n ↔ 1 ≤ j ≤ n.
Proof. rewrite elem_of_seq. lia. Qed.

Lemma strategy_outcome_scan w s keyword tid k :
  strategy_runs w s →
  strategy_outcome w s keyword tid k
  = scan (stops_on_empty s) (page_records w s keyword) tid (seq 1 k)
      [] target_not_found.
Proof.
  destruct s; simpl; [done|]. by intros ->.
Qed.

(** The outcome of a strategy in whose run the target first appears on page
    [p] at position [m]. *)
Lemma outcome_hit w s keyword tid k p m :
  first_appears w s keyword tid p m → p ≤ k →
  strategy_outcome w s keyword (Some tid) k
  = (concat ((λ j, default [] (page_records w s keyword j)) <$> seq 1 p),
     {| found := true; page := Some p; position_on_page := Some m;
        page_product := Some (count_before w s keyword p + m) |},
     p).
Proof.
  intros (Hruns & Hp1 & Hpassed & pp & Hpp & Hm) Hle.
  rewrite strategy_outcome_scan by done.
  assert (Hsplit : seq 1 k = seq 1 (p - 1) ++ p :: seq (S p) (k - p)).
  { assert (Hk : k = (p - 1) + S (k - p)) by lia.
    rewrite Hk at 1. rewrite seq_app.
    replace (1 + (p - 1)) with p by lia. done. }
  rewrite Hsplit.
  rewrite (scan_hit _ _ tid _ p _ [] target_not_found pp m); try done.
  - assert (Hp : seq 1 p = seq 1 (p - 1) ++ [p]).
    { assert (Hp' : p = (p - 1) + 1) by lia. rewrite Hp' at 1.
      rewrite seq_app. simpl. do 2 f_equal. lia. }
    rewrite Hp at 1. rewrite fmap_app, concat_app. simpl.
    rewrite Hpp, app_nil_r, length_seq. unfold count_before. simpl.
    by replace (S (p - 1)) with p by lia.
  - by eapply first_at_truthy.
  - intros j [? ?]%elem_of_seq_1. apply Hpassed. lia.
Qed.

(** A strategy that reports a match did meet the target. *)
Lemma outcome_found w s keyword tid k :
  found (strategy_outcome w s keyword (Some tid) k).1.2 = true →
  matches w s keyword tid k.
Proof.
  intros Hf.
  assert (Hruns : strategy_runs w s).
  { destruct s; simpl in *; [done|]. by destruct (browser_available w). }
  rewrite strategy_outcome_scan in Hf by done.
  apply scan_found_inv in Hf as (_ & pre & p & post & pp & m & Hsplit & Hpre & Hp & Hm);
    [|done].
  apply seq_split_at in Hsplit as (Hpre_eq & -> & Hle).
  exists (S (length pre)), m. split; [done|].
  split_and!; [done | lia | |by exists pp].
  intros j Hj. destruct (Hpre j) as (ppj & ? & ? & Hne).
  { rewrite Hpre_eq. apply elem_of_seq_1. lia. }
  by exists ppj.
Qed.

Lemma outcome_not_found w s keyword tid k :
  ¬ matches w s keyword tid k →
  (strategy_outcome w s keyword (Some tid) k).1.2 = target_not_found.
Proof.
  intros Hno.
  destruct (found (strategy_outcome w s keyword (Some tid) k).1.2) eqn:Hf.
  { by apply outcome_found in Hf. }
  destruct s; simpl in *.
  - by apply scan_not_found.
  - destruct (browser_available w); [by apply scan_not_found | done].
Qed.

Lemma outcome_count_le w s keyword tid k :
  (strategy_outcome w s keyword tid k).2 ≤ k.
Proof.
  destruct s; simpl.
  - pose proof (scan_count_le false (mobile_records w keyword) tid (seq 1 k) []
                  target_not_found) as H. by rewrite length_seq in H.
  - destruct (browser_available w); simpl; [|lia].
    pose proof (scan_count_le true (browser_records w keyword) tid (seq 1 k) []
                  target_not_found) as H. by rewrite length_seq in H.
Qed.

(** ** [find_product_ranking] in terms of the two runs *)

Lemma find_product_ranking_run w keyword tid k st :
  let om := strategy_outcome w Mobile keyword (Some tid) k in
  let ob := strategy_outcome w Browser keyword (Some tid) k in
  find_product_ranking w keyword tid k st
  = if found om.1.2 then
      (Ret (result_of tid om.1.1 om.1.2),
       add_fetches (fetch_of Mobile keyword <$> seq 1 om.2) st)
    else
      (Ret (if 0 <? length ob.1.1 then result_of tid ob.1.1 ob.1.2
            else result_of tid om.1.1 om.1.2),
       add_fetches ((fetch_of Mobile keyword <$> seq 1 om.2)
                    ++ (fetch_of Browser keyword <$> seq 1 ob.2)) st).
Proof.
  intros om ob. unfold find_product_ranking, mbind, M_bind, bind.
  rewrite search_products_mobile_outcome. fold om.
  destruct (found om.1.2) eqn:Hfm; simpl.
  - unfold ret, result_of. by rewrite Hfm.
  - rewrite search_products_browser_outcome. fold ob. rewrite add_fetches_app.
    destruct (0 <? length ob.1.1); simpl; unfold ret, result_of.
    + by destruct (found ob.1.2).
    + by rewrite Hfm.
Qed.

(** The run up to and including a page whose request fails. *)
Lemma scan_fail soe records tid pre p post ps ti :
  found ti = false →
  (∀ j, j ∈ pre → ∃ ppj, records j = Some ppj ∧ absent tid ppj
                          ∧ (soe = true → ppj ≠ [])) →
  records p = None →
  scan soe records (Some tid) (pre ++ p :: post) ps ti
  = (ps ++ concat ((λ j, default [] (records j)) <$> pre), ti, S (length pre)).
Proof.
  intros Hf Hpre Hp. revert ps Hpre.
  induction pre as [|j pre IH]; intros ps Hpre; simpl.
  - by rewrite Hp, app_nil_r.
  - destruct (Hpre j) as (ppj & Hj & Hab & Hne); [by left|].
    rewrite Hj. rewrite (check_target_absent _ _ _ _ _ Hab). simpl.
    assert (Hstop : found ti || soe && (length ppj =? 0) = false).
    { rewrite Hf. destruct soe; simpl; [|done].
      destruct ppj; [by destruct Hne | done]. }
    rewrite Hstop. rewrite IH.
    2:{ intros j' Hj'. apply Hpre. by right. }
    by rewrite <- !app_assoc.
Qed.

Lemma outcome_fail w s keyword tid k j :
  fails_at w s keyword tid j → j ≤ k →
  strategy_outcome w s keyword (Some tid) k
  = (concat ((λ i, default [] (page_records w s keyword i)) <$> seq 1 (j - 1)),
     target_not_found, j).
Proof.
  intros (Hruns & Hj1 & Hpassed & Hnone) Hle.
  rewrite strategy_outcome_scan by done.
  assert (Hsplit : seq 1 k = seq 1 (j - 1) ++ j :: seq (S j) (k - j)).
  { assert (Hk : k = (j - 1) + S (k - j)) by lia.
    rewrite Hk at 1. rewrite seq_app.
    replace (1 + (j - 1)) with j by lia. done. }
  rewrite Hsplit, scan_fail; try done.
  - rewrite length_seq. simpl. by replace (S (j - 1)) with j by lia.
  - intros i [? ?]%elem_of_seq_1. apply Hpassed. lia.
Qed.

Lemma fails_not_matches w s keyword tid k j :
  fails_at w s keyword tid j → ¬ matches w s keyword tid k.
Proof.
  intros (_ & Hj1 & Hpassed & Hnone) (p & m & _ & _ & Hp1 & Hpassed' & pp & Hpp & Hm).
  destruct (lt_eq_lt_dec p j) as [[Hlt| ->]|Hgt].
  - destruct (Hpassed p) as (pp' & Hpp' & Hab & _); [lia|].
    rewrite Hpp in Hpp'. injection Hpp' as <-.
    by eapply first_at_not_absent.
  - congruence.
  - destruct (Hpassed' j) as (pp' & Hpp' & _); [lia|]. congruence.
Qed.

Lemma unavailable_not_matches w keyword tid k :
  browser_available w = false → ¬ matches w Browser keyword tid k.
Proof.
  intros Hb (p & m & _ & Hruns & _). simpl in Hruns. congruence.
Qed.

(** ** Reading the log of requests *)

Lemma new_fetches_add fs st : new_fetches st (add_fetches fs st) = fs.
Proof. unfold new_fetches, add_fetches. simpl. by rewrite drop_app_length. Qed.

Lemma pages_fetched_same s keyword pages :
  pages_fetched s (fetch_of s keyword <$> pages) = pages.
Proof.
  unfold pages_fetched. induction pages as [|p pages IH]; [done|].
  cbn [fmap list_fmap]. rewrite filter_cons_True by done.
  cbn [fmap list_fmap]. f_equal. apply IH.
Qed.

Lemma pages_fetched_other s s' keyword pages :
  s ≠ s' → pages_fetched s (fetch_of s' keyword <$> pages) = [].
Proof.
  intros Hne. unfold pages_fetched. induction pages as [|p pages IH]; [done|].
  cbn [fmap list_fmap]. rewrite filter_cons_False; [apply IH|].
  simpl. congruence.
Qed.

Lemma pages_fetched_app s fs gs :
  pages_fetched s (fs ++ gs) = pages_fetched s fs ++ pages_fetched s gs.
Proof. unfold pages_fetched. by rewrite filter_app, fmap_app. Qed.

Lemma result_of_not_found tid ps ti :
  found ti = false → not_found_result (result_of tid ps ti).
Proof. intros Hf. unfold result_of. rewrite Hf. by repeat split. Qed.

(** ** Claims about [find_product_ranking] *)

(** C1. When the target first appears on page [p] at position [m] of that
    page's extracted records, in the run of the strategy whose outcome
    [find_product_ranking] returns, the returned absolute position
    ([page_product]) is the number of records of the pages before [p] plus
    [m]; the page and the position on it are returned as well. *)
Theorem absolute_position_invariant w s keyword tid k st p m :
  p ≤ k → consulted w s keyword tid k → first_appears w s keyword tid p m →
  ∃ r st',
    find_product_ranking w keyword tid k st = (Ret r, st')
    ∧ r_page_product r = Some (count_before w s keyword p + m)
    ∧ r_page r = Some p
    ∧ position r = Some m.
Proof.
  intros Hle Hcons Hfirst.
  rewrite find_product_ranking_run.
  destruct s; simpl in Hcons.
  - rewrite (outcome_hit _ _ _ _ _ _ _ Hfirst Hle). simpl.
    eexists _, _. split; [done|]. by unfold result_of.
  - rewrite (outcome_not_found _ _ _ _ _ Hcons).
    rewrite (outcome_hit _ _ _ _ _ _ _ Hfirst Hle). simpl.
    assert (Hpos : 0 < length
      (concat ((λ j, default [] (browser_records w keyword j)) <$> seq 1 p))).
    { destruct Hfirst as (_ & Hp1 & _ & pp & Hpp & _ & (r & Hr & _) & _).
      assert (Hp : seq 1 p = seq 1 (p - 1) ++ [p]).
      { assert (Hp' : p = (p - 1) + 1) by lia. rewrite Hp' at 1.
        rewrite seq_app. simpl. do 2 f_equal. lia. }
      rewrite Hp, fmap_app, concat_app, length_app. simpl in *.
      rewrite Hpp. simpl. rewrite app_nil_r.
      apply lookup_lt_Some in Hr. lia. }
    apply Nat.ltb_lt in Hpos. rewrite Hpos.
    eexists _, _. split; [done|]. by unfold result_of.
Qed.

Lemma absolute_position_witness :
  ∃ r st',
    find_product_ranking two_page_world "lenor" TARGET 5 blank_state = (Ret r, st')
    ∧ r_page_product r = Some (count_before two_page_world Mobile "lenor" 2 + 2)
    ∧ r_page r = Some 2
    ∧ position r = Some 2.
Proof.
  apply (absolute_position_invariant two_page_world Mobile "lenor" TARGET 5
           blank_state 2 2).
  - lia.
  - exact I.
  - split; [exact I|]. split; [lia|]. split.
    + intros j Hj. assert (j = 1) as -> by lia.
      eexists. split; [vm_compute; reflexivity|].
      split; [|discriminate].
      apply (find_on_page_None _ 1). vm_compute. reflexivity.
    + eexists. split; [vm_compute; reflexivity|].
      apply find_on_page_first_at. vm_compute. reflexivity.
Defined.

Example absolute_position_ex :
  (find_product_ranking two_page_world "lenor" TARGET 5 blank_state).1
  = Ret {| position := Some 2; r_page_product := Some 4; r_page := Some 2;
           product := Some {| prod_id := TARGET; prod_name := "Lenor";
                              prod_url := "https://www.bol.com/nl/nl/p/item/9300000170626119/" |};
           total_found := 4 |}.
Proof. vm_compute. reflexivity. Qed.

Lemma two_page_first_appears :
  first_appears two_page_world Mobile "lenor" TARGET 2 2.
Proof.
  split; [exact I|]. split; [lia|]. split.
  - intros j Hj. assert (j = 1) as -> by lia.
    eexists. split; [vm_compute; reflexivity|].
    split; [|discriminate].
    apply (find_on_page_None _ 1). vm_compute. reflexivity.
  - eexists. split; [vm_compute; reflexivity|].
    apply find_on_page_first_at. vm_compute. reflexivity.
Defined.

(** C2. With [max_pages = k], each strategy requests pages 1, 2, ..., n for
    some [n ≤ k], so at most [k] pages; and when the target is matched on
    page [p] by the strategy whose outcome is returned, that strategy
    requests exactly the pages 1..p, none after the matching page. *)
Theorem fetch_bound_and_early_stop w keyword tid k st :
  ∃ r st',
    find_product_ranking w keyword tid k st = (Ret r, st')
    ∧ ∀ s, ∃ n,
        pages_fetched s (new_fetches st st') = seq 1 n
        ∧ n ≤ k
        ∧ ∀ p m, p ≤ k → consulted w s keyword tid k →
                 first_appears w s keyword tid p m → n = p.
Proof.
  rewrite find_product_ranking_run.
  destruct (found (strategy_outcome w Mobile keyword (Some tid) k).1.2) eqn:Hfm.
  - eexists _, _. split; [done|]. rewrite new_fetches_add. intros [|].
    + exists (strategy_outcome w Mobile keyword (Some tid) k).2.
      split; [apply pages_fetched_same|]. split; [apply outcome_count_le|].
      intros p m Hle _ Hfirst. by rewrite (outcome_hit _ _ _ _ _ _ _ Hfirst Hle).
    + exists 0. split; [by apply pages_fetched_other|]. split; [lia|].
      intros p m _ Hcons _. destruct Hcons. by apply outcome_found.
  - eexists _, _. split; [done|]. rewrite new_fetches_add. intros s.
    exists (strategy_outcome w s keyword (Some tid) k).2.
    split; [|split; [apply outcome_count_le|]].
    + rewrite pages_fetched_app. destruct s.
      * rewrite pages_fetched_same, pages_fetched_other by done. apply app_nil_r.
      * rewrite pages_fetched_same, pages_fetched_other by done. done.
    + intros p m Hle _ Hfirst. by rewrite (outcome_hit _ _ _ _ _ _ _ Hfirst Hle).
Qed.

Lemma fetch_bound_witness :
  ∃ st', (find_product_ranking two_page_world "lenor" TARGET 5 blank_state).2 = st'
         ∧ pages_fetched Mobile (new_fetches blank_state st') = [1; 2]
         ∧ pages_fetched Browser (new_fetches blank_state st') = [].
Proof.
  destruct (fetch_bound_and_early_stop two_page_world "lenor" TARGET 5 blank_state)
    as (r & st' & Hrun & Hfetch).
  exists st'. rewrite Hrun. split; [reflexivity|].
  destruct (Hfetch Mobile) as (n & Hpages & Hle & Hstop).
  rewrite Hpages.
  rewrite (Hstop 2 2 ltac:(lia) I two_page_first_appears).
  split; [reflexivity|].
  injection Hrun as _ <-. vm_compute. reflexivity.
Defined.

(** C5, as the code has it. When neither strategy matches the target, the
    result has no position, no absolute position, no page and no product;
    [total_found] is the count accumulated by the rendered strategy when that
    strategy returned at least one record, and the count accumulated by the
    lightweight strategy otherwise. *)
Theorem not_found_result_total w keyword tid k st mp mti st1 bp bti st2 :
  search_products_mobile w keyword k (Some tid) st = (Ret (mp, mti), st1) →
  search_products_browser w keyword k (Some tid) st1 = (Ret (bp, bti), st2) →
  found mti = false → found bti = false →
  ∃ r,
    find_product_ranking w keyword tid k st = (Ret r, st2)
    ∧ not_found_result r
    ∧ total_found r = match bp with [] => length mp | _ :: _ => length bp end.
Proof.
  intros Hm Hb Hfm Hfb.
  rewrite find_product_ranking_run.
  rewrite search_products_mobile_outcome in Hm.
  set (om := strategy_outcome w Mobile keyword (Some tid) k) in *.
  injection Hm as <- <- <-.
  rewrite search_products_browser_outcome in Hb.
  set (ob := strategy_outcome w Browser keyword (Some tid) k) in *.
  injection Hb as <- <- <-.
  rewrite Hfm, add_fetches_app.
  eexists. split; [done|].
  destruct (ob.1.1) as [|b bp]; simpl.
  - split; [by apply result_of_not_found|]. unfold result_of. by rewrite Hfm.
  - split; [by apply result_of_not_found|]. unfold result_of. by rewrite Hfb.
Qed.

Lemma not_found_result_total_witness :
  ∃ r, (find_product_ranking fallback_world "wasmiddel" TARGET 3 blank_state).1 = Ret r
       ∧ not_found_result r ∧ total_found r = 2.
Proof.
  destruct (search_products_mobile fallback_world "wasmiddel" 3 (Some TARGET)
              blank_state) as [[[mp mti]|e] st1] eqn:Hm; [|vm_compute in Hm; discriminate].
  destruct (search_products_browser fallback_world "wasmiddel" 3 (Some TARGET) st1)
    as [[[bp bti]|e] st2] eqn:Hb.
  2:{ vm_compute in Hm. injection Hm as <- <- <-. vm_compute in Hb. discriminate. }
  assert (Hfm : found mti = false).
  { vm_compute in Hm. by injection Hm as <- <- <-. }
  assert (Hbp : bp = _extract_products_from_html
                       [link_to ROBIJN "Robijn"; link_to DREFT "Dreft"]
                ∧ found bti = false).
  { vm_compute in Hm. injection Hm as <- <- <-.
    vm_compute in Hb. by injection Hb as <- <- <-. }
  destruct Hbp as [Hbp Hfb].
  destruct (not_found_result_total _ _ _ _ _ _ _ _ _ _ _ Hm Hb Hfm Hfb)
    as (r & Hrun & Hnf & Htotal).
  exists r. rewrite Hrun. split; [reflexivity|]. split; [exact Hnf|].
  rewrite Htotal, Hbp. vm_compute. reflexivity.
Defined.

(** C5 as stated fails: in [fallback_world] neither strategy matches, the
    lightweight strategy accumulated one record, and [total_found] is 2, the
    count of the rendered strategy. *)
Lemma not_found_total_counterexample :
  ∃ mp mti st1 bp bti st2 r,
    search_products_mobile fallback_world "wasmiddel" 3 (Some TARGET) blank_state
    = (Ret (mp, mti), st1)
    ∧ search_products_browser fallback_world "wasmiddel" 3 (Some TARGET) st1
      = (Ret (bp, bti), st2)
    ∧ found mti = false ∧ found bti = false
    ∧ find_product_ranking fallback_world "wasmiddel" TARGET 3 blank_state
      = (Ret r, st2)
    ∧ length mp = 1
    ∧ total_found r = 2
    ∧ total_found r ≠ length mp.
Proof.
  eexists _, _, _, _, _, _, _.
  split; [vm_compute; reflexivity|].
  split; [vm_compute; reflexivity|].
  split; [reflexivity|]. split; [reflexivity|].
  split; [vm_compute; reflexivity|].
  split; [reflexivity|]. split; [reflexivity|]. simpl. lia.
Qed.

(** ** Claims about the extractor and the accumulated list *)

Lemma extract_ids_NoDup soup :
  NoDup (ids (_extract_products_from_html soup)).
Proof. rewrite extract_keep_first. apply keep_first_NoDup. Qed.

(** C4, as the code has it. One call of the extractor returns no identifier
    twice; the records come in the order in which the extractor meets them
    (all product links of the page in document order, then all
    [data-product-id] elements in document order); every identifier met is
    returned; and the record kept for an identifier is the first one met in
    that order. *)
Theorem extractor_keeps_first_seen soup :
  NoDup (ids (_extract_products_from_html soup))
  ∧ sublist (_extract_products_from_html soup) (scan_candidates soup)
  ∧ (∀ r, r ∈ scan_candidates soup →
          prod_id r ∈ ids (_extract_products_from_html soup))
  ∧ (∀ r, r ∈ _extract_products_from_html soup →
          first_of_its_id (scan_candidates soup) r).
Proof.
  split; [apply extract_ids_NoDup|].
  rewrite extract_keep_first. split_and!.
  - apply keep_first_sublist.
  - intros r Hr. destruct (keep_first_complete ∅ _ _ Hr) as [Hin|Hin]; [|done].
    by apply not_elem_of_empty in Hin.
  - intros r. apply keep_first_first.
Qed.

Lemma extractor_keeps_first_seen_witness :
  first_of_its_id (scan_candidates card_first_soup) target_link_record
  ∧ TARGET ∈ ids (_extract_products_from_html card_first_soup).
Proof.
  destruct (extractor_keeps_first_seen card_first_soup) as (_ & _ & Hall & Hfirst).
  split.
  - apply Hfirst. vm_compute. apply list_elem_of_In. right. left. reflexivity.
  - apply (Hall target_card_record).
    vm_compute. apply list_elem_of_In. right. right. left. reflexivity.
Defined.

(** C4 as stated fails: on [card_first_soup] the first occurrence of the
    target in document order is the card, the record returned for it is the
    link's, and the other product comes before it in the result. *)
Lemma extractor_document_order_counterexample :
  document_candidates card_first_soup
  = [target_card_record; ariel_record; target_link_record]
  ∧ _extract_products_from_html card_first_soup
    = [ariel_record; target_link_record]
  ∧ target_link_record ∈ _extract_products_from_html card_first_soup
  ∧ ¬ first_of_its_id (document_candidates card_first_soup) target_link_record.
Proof.
  assert (Hdoc : document_candidates card_first_soup
                 = [target_card_record; ariel_record; target_link_record])
    by (vm_compute; reflexivity).
  assert (Hout : _extract_products_from_html card_first_soup
                 = [ariel_record; target_link_record])
    by (vm_compute; reflexivity).
  split; [exact Hdoc|]. split; [exact Hout|]. split.
  - rewrite Hout. apply list_elem_of_In. right. left. reflexivity.
  - rewrite Hdoc. intros (j & Hj & Hfirst).
    destruct j as [|[|[|j]]]; simpl in Hj; try discriminate.
    apply (Hfirst 0 target_card_record); [lia | reflexivity | reflexivity].
Qed.

Lemma page_records_NoDup w s keyword j pp :
  page_records w s keyword j = Some pp → NoDup (ids pp).
Proof.
  intros Hp.
  destruct s; simpl in Hp; unfold mobile_records, browser_records in Hp.
  - destruct (session_get w keyword j) as [resp|]; [|done].
    destruct (status_code resp =? 200)%Z; [|done].
    injection Hp as <-. apply extract_ids_NoDup.
  - destruct (driver_get w keyword j) as [html|]; [|done].
    injection Hp as <-. apply extract_ids_NoDup.
Qed.

(** C3, as the code has it. A run of a strategy requests the pages 1..n for
    some n within the page budget, and the list it accumulates is the
    concatenation, in page order, of the lists extracted from exactly those
    pages (a page that could not be obtained contributes nothing); within each
    page's list no identifier occurs twice. The [seen_ids] set is local to one
    extraction, so nothing removes a record whose identifier an earlier page
    already supplied. *)
Theorem accumulated_list_per_page_unique w s keyword tid k st :
  ∃ ps ti st' n,
    run_strategy w s keyword k tid st = (Ret (ps, ti), st')
    ∧ n ≤ k
    ∧ pages_fetched s (new_fetches st st') = seq 1 n
    ∧ ps = concat ((λ j, default [] (page_records w s keyword j)) <$> seq 1 n)
    ∧ ∀ j pp, page_records w s keyword j = Some pp → NoDup (ids pp).
Proof.
  exists (strategy_outcome w s keyword tid k).1.1,
         (strategy_outcome w s keyword tid k).1.2,
         (add_fetches (fetch_of s keyword <$>
            seq 1 (strategy_outcome w s keyword tid k).2) st),
         (strategy_outcome w s keyword tid k).2.
  split; [apply search_products_outcome|].
  split; [apply outcome_count_le|].
  split; [by rewrite new_fetches_add, pages_fetched_same|].
  split; [|intros j pp; apply page_records_NoDup].
  pose proof (outcome_count_le w s keyword tid k) as Hle.
  destruct s; simpl in *.
  - pose proof (scan_products false (mobile_records w keyword) tid (seq 1 k) []
                  target_not_found) as H.
    destruct (scan _ _ _ _ _ _) as [[ps ti] n]. simpl in *.
    by rewrite take_seq_le in H.
  - destruct (browser_available w); [|done].
    pose proof (scan_products true (browser_records w keyword) tid (seq 1 k) []
                  target_not_found) as H.
    destruct (scan _ _ _ _ _ _) as [[ps ti] n]. simpl in *.
    by rewrite take_seq_le in H.
Qed.

(** In [repeating_world] the run requests both pages, and its list is the two
    page lists one after the other, each free of repetitions. *)
Lemma accumulated_list_witness :
  ∃ ps ti st',
    run_strategy repeating_world Mobile "wasmiddel" 2 (Some TARGET) blank_state
    = (Ret (ps, ti), st')
    ∧ pages_fetched Mobile (new_fetches blank_state st') = [1; 2]
    ∧ ids ps = [ARIEL; ROBIJN] ++ [ROBIJN; DREFT]
    ∧ (ids <$> page_records repeating_world Mobile "wasmiddel" 1) = Some [ARIEL; ROBIJN]
    ∧ (ids <$> page_records repeating_world Mobile "wasmiddel" 2) = Some [ROBIJN; DREFT]
    ∧ NoDup [ARIEL; ROBIJN] ∧ NoDup [ROBIJN; DREFT].
Proof.
  destruct (accumulated_list_per_page_unique repeating_world Mobile "wasmiddel"
              (Some TARGET) 2 blank_state)
    as (ps & ti & st' & n & Hrun & Hle & Hlog & Hps & Hpage).
  assert (Hn : n = 2).
  { assert (Hlen : length (pages_fetched Mobile (new_fetches blank_state st')) = 2).
    { vm_compute in Hrun. injection Hrun as _ _ <-. vm_compute. reflexivity. }
    rewrite Hlog, length_seq in Hlen. exact Hlen. }
  subst n.
  exists ps, ti, st'.
  split; [exact Hrun|].
  split; [exact Hlog|].
  split; [rewrite Hps; vm_compute; reflexivity|].
  split; [vm_compute; reflexivity|].
  split; [vm_compute; reflexivity|].
  split.
  - apply (Hpage 1 (default [] (page_records repeating_world Mobile "wasmiddel" 1))).
    vm_compute. reflexivity.
  - apply (Hpage 2 (default [] (page_records repeating_world Mobile "wasmiddel" 2))).
    vm_compute. reflexivity.
Defined.

(** C3 as stated fails: in [repeating_world] the second page lists a product
    of the first page again, and the accumulated list holds it twice. *)
Lemma cross_page_duplicates_counterexample :
  ∃ ps ti st',
    search_products_mobile repeating_world "wasmiddel" 2 (Some TARGET) blank_state
    = (Ret (ps, ti), st')
    ∧ ids ps = [ARIEL; ROBIJN; ROBIJN; DREFT]
    ∧ ¬ NoDup (ids ps).
Proof.
  eexists _, _, _. split; [vm_compute; reflexivity|].
  split; [reflexivity|].
  intros Hnd. apply NoDup_cons in Hnd as [_ Hnd].
  apply NoDup_cons in Hnd as [Hnotin _].
  apply Hnotin. left.
Qed.

(** ** Failures inside the strategies *)

(** C6. [find_product_ranking] returns a result for every input and every
    behaviour of the network; it has no exceptional outcome. A strategy whose
    request for page [j] fails stops there: it returns the records of the
    pages before [j] and no match, having requested pages 1..j only. When the
    lightweight strategy fails and the rendered strategy is unavailable or
    fails as well, the result is a not-found result. *)
Theorem scraping_failures_absorbed w keyword tid k st :
  ∃ r st',
    find_product_ranking w keyword tid k st = (Ret r, st')
    ∧ (∀ s j st0, j ≤ k → fails_at w s keyword tid j →
         ∃ st1,
           run_strategy w s keyword k (Some tid) st0
           = (Ret (concat ((λ i, default [] (page_records w s keyword i))
                             <$> seq 1 (j - 1)),
                   target_not_found), st1)
           ∧ pages_fetched s (new_fetches st0 st1) = seq 1 j)
    ∧ ((∃ j, fails_at w Mobile keyword tid j) →
       (browser_available w = false ∨ ∃ j, fails_at w Browser keyword tid j) →
       not_found_result r).
Proof.
  rewrite find_product_ranking_run.
  set (om := strategy_outcome w Mobile keyword (Some tid) k).
  set (ob := strategy_outcome w Browser keyword (Some tid) k).
  eexists (if found om.1.2 then _ else _), (if found om.1.2 then _ else _).
  split; [by destruct (found om.1.2)|]. split.
  - intros s j st0 Hle Hfail.
    pose proof (search_products_outcome w s keyword k (Some tid) st0) as Hrun.
    rewrite (outcome_fail _ _ _ _ _ _ Hfail Hle) in Hrun. simpl in Hrun.
    eexists. split; [exact Hrun|].
    by rewrite new_fetches_add, pages_fetched_same.
  - intros [j Hm] Hb.
    assert (Hom : om.1.2 = target_not_found).
    { apply outcome_not_found. by eapply fails_not_matches. }
    assert (Hob : ob.1.2 = target_not_found).
    { apply outcome_not_found. destruct Hb as [Hb|[j' Hb]].
      - by apply unavailable_not_matches.
      - by eapply fails_not_matches. }
    rewrite Hom. simpl. destruct (0 <? length ob.1.1).
    + apply result_of_not_found. by rewrite Hob.
    + by apply result_of_not_found.
Qed.

Lemma offline_fails_mobile : fails_at offline_world Mobile "lenor" TARGET 1.
Proof.
  split; [exact I|]. split; [lia|]. split; [intros i Hi; lia|]. reflexivity.
Defined.

Lemma offline_fails_browser : fails_at offline_world Browser "lenor" TARGET 1.
Proof.
  split; [reflexivity|]. split; [lia|]. split; [intros i Hi; lia|]. reflexivity.
Defined.

Lemma scraping_failures_witness :
  ∃ r st',
    find_product_ranking offline_world "lenor" TARGET 3 blank_state = (Ret r, st')
    ∧ not_found_result r
    ∧ ∃ st1, run_strategy offline_world Mobile "lenor" 3 (Some TARGET) blank_state
             = (Ret ([], target_not_found), st1)
             ∧ pages_fetched Mobile (new_fetches blank_state st1) = [1].
Proof.
  destruct (scraping_failures_absorbed offline_world "lenor" TARGET 3 blank_state)
    as (r & st' & Hrun & Hstrat & Hnf).
  exists r, st'. split; [exact Hrun|]. split.
  - apply Hnf.
    + exists 1. exact offline_fails_mobile.
    + right. exists 1. exact offline_fails_browser.
  - apply (Hstrat Mobile 1 blank_state); [lia | exact offline_fails_mobile].
Defined.

Example offline_locate :
  (find_product_ranking offline_world "lenor" TARGET 3 blank_state).1
  = Ret {| position := None; r_page_product := None; r_page := None;
           product := None; total_found := 0 |}.
Proof. vm_compute. reflexivity. Qed.

(** ** Validation of product URLs *)

Lemma span_decimal_run ds post :
  Py.all_chars Py.is_decimal ds = true →
  Py.span_decimal (ds +:+ String "/" post) = (ds, String "/" post).
Proof.
  induction ds as [|c ds IH]; simpl; [done|].
  intros [Hc Hds]%andb_true_iff. by rewrite Hc, IH.
Qed.

Lemma startswith_slash tl :
  Py.startswith "/" tl = true → ∃ post, tl = String "/" post.
Proof.
  unfold Py.startswith. destruct tl as [|c tl]; cbn [String.prefix]; [done|].
  destruct (ascii_dec "/" c) as [<-|]; [|done]. by exists tl.
Qed.

Lemma startswith_slash_cons post : Py.startswith "/" (String "/" post) = true.
Proof.
  unfold Py.startswith. cbn [String.prefix].
  destruct (ascii_dec "/" "/"); [by destruct post | done].
Qed.

Lemma re_search_id_complete s :
  has_id_segment s → ∃ product_id, Py.re_search_id s = Some product_id.
Proof.
  intros (pre & ds & post & -> & Hlen & Hds).
  induction pre as [|c pre IH].
  - change (Py.re_search_id ("" +:+ "/" +:+ ds +:+ "/" +:+ post))
      with (Py.re_search_id (String "/" (ds +:+ String "/" post))).
    rewrite re_search_id_cons. simpl (Ascii.eqb _ _).
    rewrite span_decimal_run by done. cbn [fst snd].
    apply Nat.leb_le in Hlen. rewrite Hlen, startswith_slash_cons.
    by exists ds.
  - change (Py.re_search_id (String c pre +:+ "/" +:+ ds +:+ "/" +:+ post))
      with (Py.re_search_id (String c (pre +:+ "/" +:+ ds +:+ "/" +:+ post))).
    rewrite re_search_id_cons. destruct IH as [i Hi]. rewrite Hi.
    destruct (Ascii.eqb c "/"); [|by exists i].
    destruct (_ && _); eauto.
Qed.

Lemma re_search_id_sound s product_id :
  Py.re_search_id s = Some product_id → has_id_segment s.
Proof.
  induction s as [|c s IH]; [done|].
  rewrite re_search_id_cons.
  assert (Hrest : Py.re_search_id s = Some product_id → has_id_segment (String c s)).
  { intros (pre & ds & post & -> & Hlen & Hds)%IH.
    by exists (String c pre), ds, post. }
  destruct (Ascii.eqb c "/") eqn:Hc; [|done].
  apply Ascii.eqb_eq in Hc as ->.
  pose proof (span_decimal_spec s) as Hspan.
  destruct (Py.span_decimal s) as [ds tl]. destruct Hspan as (-> & Hds & _).
  cbn [fst snd].
  destruct ((10 <=? Py.len ds) && Py.startswith "/" tl) eqn:Hok; [|done].
  intros _. apply andb_true_iff in Hok as [Hlen Htl].
  apply startswith_slash in Htl as [post ->].
  exists "", ds, post. split_and!; [done | by apply Nat.leb_le | done].
Qed.

(** The pattern of [get_product_id] finds nothing exactly in the texts
    without a run of ten or more digits between slashes. *)
Lemma re_search_id_None_iff s :
  Py.re_search_id s = None ↔ ¬ has_id_segment s.
Proof.
  split.
  - intros Hnone [i Hi]%re_search_id_complete. congruence.
  - intros Hno. destruct (Py.re_search_id s) as [i|] eqn:Hs; [|done].
    destruct Hno. by eapply re_search_id_sound.
Qed.

(** C7, as the code has it. For a product URL without a run of ten or more
    digits between slashes, deriving the identifier raises the validation
    error; [add_tracked_product] lets it through to its caller and
    [track_product] returns [None]; in each case the state is untouched, so
    no page is requested and nothing is written. *)
Theorem malformed_url_rejected w keyword product_url stop_after_days st :
  ¬ has_id_segment product_url →
  get_product_id product_url st = (Raise VALIDATION_ERROR, st)
  ∧ add_tracked_product w keyword product_url stop_after_days st
    = (Raise VALIDATION_ERROR, st)
  ∧ track_product w keyword product_url st = (Ret None, st).
Proof.
  intros Hno%re_search_id_None_iff.
  assert (Hid : get_product_id product_url st = (Raise VALIDATION_ERROR, st)).
  { unfold get_product_id. by rewrite Hno. }
  split; [done|]. split.
  - unfold add_tracked_product, mbind, M_bind, bind. by rewrite Hid.
  - unfold track_product, try_except, mbind, M_bind, bind. by rewrite Hid.
Qed.

Lemma malformed_url_witness :
  add_tracked_product two_page_world "lenor" "https://www.bol.com/nl/nl/p/lenor/12345/"
    None blank_state
  = (Raise VALIDATION_ERROR, blank_state)
  ∧ track_product two_page_world "lenor" "https://www.bol.com/nl/nl/p/lenor/12345/"
      blank_state
    = (Ret None, blank_state).
Proof.
  apply (malformed_url_rejected two_page_world "lenor"
           "https://www.bol.com/nl/nl/p/lenor/12345/" None blank_state).
  apply re_search_id_None_iff. vm_compute. reflexivity.
Defined.

(** C7 as stated fails: [find_product_ranking] takes any text as the
    identifier. Given one without digits it requests both pages and returns a
    not-found result. *)
Lemma locate_unvalidated_counterexample :
  ¬ has_id_segment "geen-id"
  ∧ ∃ r st',
      find_product_ranking two_page_world "lenor" "geen-id" 2 blank_state
      = (Ret r, st')
      ∧ position r = None
      ∧ total_found r = 4
      ∧ new_fetches blank_state st'
        = [fetch_of Mobile "lenor" 1; fetch_of Mobile "lenor" 2].
Proof.
  split.
  - apply re_search_id_None_iff. vm_compute. reflexivity.
  - eexists _, _. split; [vm_compute; reflexivity|].
    split; [reflexivity|]. split; reflexivity.
Qed.

Example valid_url_accepted :
  (get_product_id
     "https://www.bol.com/nl/nl/p/lenor-geurbooster/9300000170626119/?cid=17"
     blank_state).1
  = Ret "9300000170626119".
Proof. reflexivity. Qed.

(** ** The scheduler *)

Lemma dt_compare_same_day a b :
  ordinal a = ordinal b →
  dt_compare a b
  = match (hour a ?= hour b)%Z with
    | Eq =>
        match (minute a ?= minute b)%Z with
        | Eq =>
            match (second a ?= second b)%Z with
            | Eq => (microsecond a ?= microsecond b)%Z
            | c => c
            end
        | c => c
        end
    | c => c
    end.
Proof. intros H. unfold dt_compare. by rewrite H, Z.compare_refl. Qed.

Lemma dt_ge_nine now_dutch :
  valid_datetime now_dutch →
  dt_ge now_dutch (replace_time now_dutch 9 0 0 0) = bool_decide (9 ≤ hour now_dutch)%Z.
Proof.
  intros (_ & _ & Hmin & Hsec & Hus). unfold dt_ge.
  rewrite dt_compare_same_day by done. simpl.
  destruct (Z.compare_spec (hour now_dutch) 9) as [Heq|Hlt|Hgt].
  - rewrite bool_decide_eq_true_2 by lia.
    destruct (Z.compare_spec (minute now_dutch) 0); [|lia|done].
    destruct (Z.compare_spec (second now_dutch) 0); [|lia|done].
    destruct (Z.compare_spec (microsecond now_dutch) 0); [done|lia|done].
  - by rewrite bool_decide_eq_false_2 by lia.
  - by rewrite bool_decide_eq_true_2 by lia.
Qed.

Lemma tz_ge_nine now_dutch :
  valid_datetime (local now_dutch) →
  tz_ge now_dutch (tz_replace_time now_dutch 9 0 0 0)
  = bool_decide (9 ≤ hour (local now_dutch))%Z.
Proof.
  intros Hvalid. unfold tz_ge, tz_compare. cbn [utcoffset tz_replace_time local].
  rewrite Z.eqb_refl. apply (dt_ge_nine _ Hvalid).
Qed.

Lemma _get_next_run_time_run w st :
  (_get_next_run_time w st).1
  = match fromutc (dutch_tz w) (utc_clock w (ticks st)) with
    | Ret now_dutch =>
        if tz_ge now_dutch (tz_replace_time now_dutch 9 0 0 0)
        then match tz_add_days now_dutch 1 with
             | Ret tomorrow => Ret (tz_replace_time tomorrow 9 0 0 0)
             | Raise e => Raise e
             end
        else Ret (tz_replace_time now_dutch 9 0 0 0)
    | Raise e => Raise e
    end.
Proof.
  unfold _get_next_run_time, mbind, M_bind, bind, datetime_now_tz, lift, ret.
  simpl. destruct (fromutc _ _) as [now_dutch|e]; [|done].
  destruct (tz_ge _ _); [|done]. by destruct (tz_add_days now_dutch 1).
Qed.

(** The wall-clock fields of the next run. For a reading [now_dutch] of the
    Amsterdam clock: before 09:00 the result shows today 09:00:00, at or after
    09:00 it shows tomorrow 09:00:00 (the last representable day has no
    tomorrow), and it is later than the reading. The result carries the UTC
    offset of the reading, whatever offset is in force on the day it
    shows. *)
Lemma next_run_wall_clock w st now_dutch :
  (datetime_now_tz w st).1 = Ret now_dutch →
  valid_datetime (local now_dutch) →
  ((hour (local now_dutch) < 9)%Z →
     (_get_next_run_time w st).1
     = Ret {| local := {| ordinal := ordinal (local now_dutch); hour := 9;
                          minute := 0; second := 0; microsecond := 0 |};
              utcoffset := utcoffset now_dutch |})
  ∧ ((9 ≤ hour (local now_dutch))%Z → (ordinal (local now_dutch) < MAXORDINAL)%Z →
     (_get_next_run_time w st).1
     = Ret {| local := {| ordinal := ordinal (local now_dutch) + 1; hour := 9;
                          minute := 0; second := 0; microsecond := 0 |};
              utcoffset := utcoffset now_dutch |})
  ∧ (∀ next_run, (_get_next_run_time w st).1 = Ret next_run →
       tz_lt now_dutch next_run ∧ utcoffset next_run = utcoffset now_dutch).
Proof.
  intros Hnow Hvalid. rewrite _get_next_run_time_run.
  unfold datetime_now_tz in Hnow. cbn [fst] in Hnow. rewrite Hnow.
  rewrite (tz_ge_nine _ Hvalid).
  pose proof Hvalid as (Hord & Hhour & Hmin & Hsec & Hus).
  split_and!.
  - intros Hlt. by rewrite bool_decide_eq_false_2 by lia.
  - intros Hge Hmax. rewrite bool_decide_eq_true_2 by done.
    unfold tz_add_days, add_days.
    assert (Hin : (1 <=? ordinal (local now_dutch) + 1)%Z
                  && (ordinal (local now_dutch) + 1 <=? MAXORDINAL)%Z = true).
    { apply andb_true_iff. split; apply Z.leb_le; lia. }
    by rewrite Hin.
  - intros next_run. case_bool_decide as Hnine.
    + unfold tz_add_days, add_days.
      destruct ((1 <=? ordinal (local now_dutch) + 1)%Z && _); [|done].
      intros [= <-]. split; [|done].
      unfold tz_lt, tz_compare. cbn [utcoffset tz_replace_time local].
      rewrite Z.eqb_refl. unfold dt_compare. simpl.
      by rewrite (proj2 (Z.compare_lt_iff _ _)) by lia.
    + intros [= <-]. split; [|done].
      unfold tz_lt, tz_compare. cbn [utcoffset tz_replace_time local].
      rewrite Z.eqb_refl. rewrite dt_compare_same_day by done. simpl.
      by rewrite (proj2 (Z.compare_lt_iff _ _)) by lia.
Qed.

Lemma at_0800_valid : valid_datetime at_0800.
Proof. unfold valid_datetime, MAXORDINAL. simpl. lia. Defined.

Lemma at_090001_valid : valid_datetime at_090001.
Proof. unfold valid_datetime, MAXORDINAL. simpl. lia. Defined.

Lemma next_run_wall_clock_witness :
  (_get_next_run_time (clock_world at_0800) blank_state).1
  = Ret {| local := {| ordinal := 739000; hour := 9; minute := 0; second := 0;
                       microsecond := 0 |};
           utcoffset := 120 |}
  ∧ (_get_next_run_time (clock_world at_090001) blank_state).1
    = Ret {| local := {| ordinal := 739001; hour := 9; minute := 0; second := 0;
                         microsecond := 0 |};
             utcoffset := 120 |}
  ∧ tz_lt {| local := at_090001; utcoffset := 120 |}
      {| local := {| ordinal := 739001; hour := 9; minute := 0; second := 0;
                     microsecond := 0 |};
         utcoffset := 120 |}.
Proof.
  destruct (next_run_wall_clock (clock_world at_0800) blank_state
              {| local := at_0800; utcoffset := 120 |} eq_refl at_0800_valid)
    as (Hbefore & _ & _).
  destruct (next_run_wall_clock (clock_world at_090001) blank_state
              {| local := at_090001; utcoffset := 120 |} eq_refl at_090001_valid)
    as (_ & Hafter & Hstrict).
  split; [apply Hbefore; simpl; lia|].
  assert (Hnext := Hafter ltac:(simpl; lia) ltac:(unfold MAXORDINAL; simpl; lia)).
  split; [exact Hnext|]. apply Hstrict. exact Hnext.
Defined.

(** Where the next run is 09:00 in Amsterdam: a moment whose zone offset is
    the one the value carries is left as it is by [normalize], so the time in
    the zone at that moment is the wall clock the value shows. *)
Lemma normalize_same_offset tz a :
  valid_datetime (local a) →
  (∀ utc, utc_of a = Ret utc → tz utc = utcoffset a) →
  (∃ utc, utc_of a = Ret utc) →
  normalize tz a = Ret a.
Proof.
  intros (Hord & Hhour & Hmin & Hsec & Hus) Hsame [utc Hutc].
  unfold normalize. rewrite Hutc. unfold fromutc. rewrite (Hsame utc Hutc).
  unfold utc_of, add_minutes in Hutc.
  destruct (_ && _) eqn:Hrange in Hutc; [|done]. injection Hutc as <-.
  assert (Hback : shift_minutes (shift_minutes (local a) (- utcoffset a)) (utcoffset a)
                  = local a).
  { destruct a as [[o h mi sec us] off]. unfold shift_minutes, minutes_of. simpl in *.
    f_equal; Z.div_mod_to_equations; lia. }
  unfold add_minutes. rewrite Hback.
  assert (Hin : (1 <=? ordinal (local a))%Z && (ordinal (local a) <=? MAXORDINAL)%Z = true).
  { apply andb_true_iff. split; apply Z.leb_le; lia. }
  rewrite Hin. by destruct a.
Qed.

(** C8, the code at a change of the clock. On Saturday 27 March 2027 at 10:00
    in Amsterdam (winter time, UTC+1) the next run is computed as Sunday
    28 March 09:00:00 at UTC+1. Summer time has started by then: in Amsterdam
    that moment is 10:00:00, not 09:00:00. *)
Theorem next_run_across_clock_change :
  (datetime_now_tz (amsterdam_world spring_eve_utc) blank_state).1
  = Ret {| local := {| ordinal := 740067; hour := 10; minute := 0; second := 0;
                       microsecond := 0 |};
           utcoffset := 60 |}
  ∧ (_get_next_run_time (amsterdam_world spring_eve_utc) blank_state).1
    = Ret {| local := {| ordinal := 740068; hour := 9; minute := 0; second := 0;
                         microsecond := 0 |};
             utcoffset := 60 |}
  ∧ normalize amsterdam_2027
      {| local := {| ordinal := 740068; hour := 9; minute := 0; second := 0;
                     microsecond := 0 |};
         utcoffset := 60 |}
    = Ret {| local := {| ordinal := 740068; hour := 10; minute := 0; second := 0;
                         microsecond := 0 |};
             utcoffset := 120 |}.
Proof. split_and!; vm_compute; reflexivity. Qed.

(** The same in autumn: on Saturday 30 October 2027 at 10:00 in Amsterdam
    (summer time, UTC+2) the next run is Sunday 31 October 09:00:00 at UTC+2,
    which is 08:00:00 in Amsterdam. In June the next run is 09:00:00 in
    Amsterdam. *)
Example next_run_autumn_and_june :
  (∃ next_run,
     (_get_next_run_time (amsterdam_world autumn_eve_utc) blank_state).1 = Ret next_run
     ∧ next_run = {| local := {| ordinal := 740285; hour := 9; minute := 0;
                                 second := 0; microsecond := 0 |};
                     utcoffset := 120 |}
     ∧ normalize amsterdam_2027 next_run
       = Ret {| local := {| ordinal := 740285; hour := 8; minute := 0; second := 0;
                            microsecond := 0 |};
                utcoffset := 60 |})
  ∧ (∃ next_run,
       (_get_next_run_time (amsterdam_world june_utc) blank_state).1 = Ret next_run
       ∧ normalize amsterdam_2027 next_run = Ret next_run
       ∧ hour (local next_run) = 9%Z).
Proof.
  split; eexists; (split; [vm_compute; reflexivity|]);
    split; vm_compute; reflexivity.
Qed.





(** ** The names the batch stores *)

Lemma find_product_ranking_state w keyword tid k st :
  ∃ fs, (find_product_ranking w keyword tid k st).2 = add_fetches fs st.
Proof.
  rewrite find_product_ranking_run.
  destruct (found _); eexists; reflexivity.
Qed.

Lemma located_name_sentinel ranking p :
  product ranking = Some p → prod_name p = UNKNOWN_PRODUCT →
  located_name ranking = None.
Proof.
  intros Hp Hn. unfold located_name. rewrite Hp, Hn.
  rewrite bool_decide_eq_true_2 by done. by rewrite andb_false_r.
Qed.

(** C10, as the code has it. For a batch-run entry whose located product
    carries the sentinel name, the check appends one history record, and the
    name in it is the entry's stored name when that is present, not empty and
    not the text "None", and the name derived from the tracked URL otherwise;
    it is not taken from the located product. *)
Theorem history_name_when_sentinel w row st ranking st1 p :
  find_product_ranking w (tr_keyword row) (tr_product_id row) 50 st
  = (Ret ranking, st1) →
  product ranking = Some p → prod_name p = UNKNOWN_PRODUCT →
  ∃ out st2 h,
    check_row w row st = (Ret out, st2)
    ∧ product_tracking st2 = product_tracking st ++ [h]
    ∧ (∀ n, tr_product_name row = Some n → n ≠ "" → n ≠ "None" →
            hr_product_name h = n)
    ∧ (tr_product_name row = None ∨ tr_product_name row = Some ""
       ∨ tr_product_name row = Some "None" →
       hr_product_name h = _extract_name_from_url (tr_product_url row)).
Proof.
  intros Hrun Hp Hname.
  destruct (find_product_ranking_state w (tr_keyword row) (tr_product_id row) 50 st)
    as [fs Hst].
  rewrite Hrun in Hst. simpl in Hst. subst st1.
  unfold check_row, try_except, mbind, M_bind, bind. rewrite Hrun.
  rewrite (located_name_sentinel _ _ Hp Hname).
  unfold save_to_db, mbind, M_bind, bind, datetime_now, modify_state. rewrite Hp.
  set (h := {| hr_keyword := tr_keyword row;
               hr_product_id := tr_product_id row;
               hr_product_name :=
                 stored_or_url_name (tr_product_name row) (tr_product_url row);
               hr_position := position ranking;
               hr_page_product := r_page_product ranking;
               hr_date := clock w (ticks (add_fetches fs st)) |}).
  assert (Hh : (∀ n, tr_product_name row = Some n → n ≠ "" → n ≠ "None" →
                     hr_product_name h = n)
               ∧ (tr_product_name row = None ∨ tr_product_name row = Some ""
                  ∨ tr_product_name row = Some "None" →
                  hr_product_name h = _extract_name_from_url (tr_product_url row))).
  { subst h. simpl. unfold stored_or_url_name. split.
    - intros n -> Hne Hnone. destruct n; [done|]. simpl.
      by rewrite bool_decide_eq_false_2.
    - by intros [->|[->| ->]]. }
  destruct (negb (truthy_opt (tr_product_name row)));
    (eexists _, _, h; split; [reflexivity|]; split; [reflexivity | exact Hh]).
Qed.

Lemma history_name_witness :
  ∃ out st2 h,
    check_row sentinel_world (tracked_entry (Some "Mijn wasmiddel"))
      (tracked_state (Some "Mijn wasmiddel")) = (Ret out, st2)
    ∧ product_tracking st2 = [h]
    ∧ hr_product_name h = "Mijn wasmiddel".
Proof.
  destruct (find_product_ranking sentinel_world "lenor" TARGET 50
              (tracked_state (Some "Mijn wasmiddel")))
    as [[ranking|e] st1] eqn:Hrun; [|vm_compute in Hrun; discriminate].
  assert (Hp : product ranking
               = Some {| prod_id := TARGET; prod_name := UNKNOWN_PRODUCT;
                         prod_url := TRACKED_URL |}).
  { vm_compute in Hrun. by injection Hrun as <- <-. }
  destruct (history_name_when_sentinel sentinel_world
              (tracked_entry (Some "Mijn wasmiddel"))
              (tracked_state (Some "Mijn wasmiddel")) ranking st1 _ Hrun Hp eq_refl)
    as (out & st2 & h & Hcheck & Hhist & Hstored & _).
  exists out, st2, h. split; [exact Hcheck|]. split; [exact Hhist|].
  apply Hstored; [reflexivity | discriminate | discriminate].
Defined.

(** C10 as stated fails: the entry's stored name is "Mijn wasmiddel", the
    located product carries the sentinel, and the history record gets the
    stored name, not the name derived from the tracked URL. *)
Lemma history_name_counterexample :
  ∃ ranking st1 outcomes st',
    find_product_ranking sentinel_world "lenor" TARGET 50
      (tracked_state (Some "Mijn wasmiddel")) = (Ret ranking, st1)
    ∧ prod_name <$> product ranking = Some UNKNOWN_PRODUCT
    ∧ run_scheduled_checks sentinel_world (tracked_state (Some "Mijn wasmiddel"))
      = (Ret outcomes, st')
    ∧ hr_product_name <$> product_tracking st' = ["Mijn wasmiddel"]
    ∧ _extract_name_from_url TRACKED_URL = "Lenor Geurbooster"
    ∧ hr_product_name <$> product_tracking st' ≠ [_extract_name_from_url TRACKED_URL].
Proof.
  eexists _, _, _, _.
  split; [vm_compute; reflexivity|].
  split; [reflexivity|].
  split; [vm_compute; reflexivity|].
  split; [reflexivity|].
  split; [vm_compute; reflexivity|].
  vm_compute. discriminate.
Qed.

(** With no stored name the history record gets the name derived from the
    URL, and the tracked entry's name is filled in with the located name as
    it is, here the sentinel. *)
Example backfill_with_located_name :
  let st' := (run_scheduled_checks sentinel_world (tracked_state None)).2 in
  hr_product_name <$> product_tracking st' = ["Lenor Geurbooster"]
  ∧ tr_product_name <$> tracked_products st' = [Some "Unknown Product"].
Proof. vm_compute. split; reflexivity. Qed.

(* ===================================================================== *)
(** * Further properties of the code *)

(** ** Well-formed records *)

Lemma slice_to_len n s : Py.len (Py.slice_to n s) ≤ n.
Proof.
  unfold Py.len. revert s. induction n as [|n IH]; intros s.
  - by destruct s.
  - destruct s as [|c s]; cbn [Py.slice_to String.length]; [lia|].
    specialize (IH s). lia.
Qed.

Lemma link_name_len link : Py.len (link_name link) ≤ 100.
Proof.
  unfold link_name.
  repeat match goal with
         | |- context [if ?b then _ else _] => destruct b
         end;
    try apply slice_to_len; vm_compute; lia.
Qed.

Lemma card_name_len elem : Py.len (card_name elem) ≤ 100.
Proof.
  unfold card_name. destruct (py_or _ _) as [text|]; [|vm_compute; lia].
  destruct (_ && _); [apply slice_to_len | vm_compute; lia].
Qed.

Lemma link_url_absolute href : Py.startswith "http" (link_url href) = true.
Proof.
  unfold link_url. destruct (Py.startswith "http" href) eqn:Hh; [done|].
  vm_compute. reflexivity.
Qed.

(** Every record the extractor returns carries an identifier made of ten or
    more decimal digits. *)
Theorem extracted_ids_are_digit_runs soup r :
  r ∈ _extract_products_from_html soup →
  10 ≤ Py.len (prod_id r) ∧ Py.all_chars Py.is_decimal (prod_id r) = true.
Proof.
  intros Hr%extract_ids_wellformed. unfold Py.re_fullmatch_id in Hr.
  apply andb_true_iff in Hr as [Hlen Hall]. split; [|done].
  by apply Nat.leb_le.
Qed.

Lemma extracted_ids_witness :
  10 ≤ Py.len TARGET ∧ Py.all_chars Py.is_decimal TARGET = true.
Proof.
  apply (extracted_ids_are_digit_runs card_first_soup target_link_record).
  vm_compute. apply list_elem_of_In. right. left. reflexivity.
Defined.

Lemma extract_elem_origin soup r :
  r ∈ _extract_products_from_html soup →
  (∃ link, link ∈ find_all_a_href soup ∧ link_candidate link = Some r)
  ∨ (∃ elem, elem ∈ find_all_data_product_id soup ∧ card_candidate elem = Some r).
Proof.
  rewrite extract_keep_first. intros [Hr _]%keep_first_elem.
  unfold scan_candidates in Hr.
  apply elem_of_app in Hr as [(link & Hin & Hc)%list_elem_of_omap
                             |(elem & Hin & Hc)%list_elem_of_omap]; eauto.
Qed.

(** Every record the extractor returns has a name of at most 100 characters
    and an absolute URL. The record comes from an element of the page: either
    a link [<a href=...>] whose [href] holds the record's identifier between
    slashes, and the URL is that [href] itself when it starts with "http" and
    "https://www.bol.com" followed by the [href] otherwise; or an element
    whose [data-product-id] is the record's identifier, and the URL is
    "https://www.bol.com/nl/nl/p/<id>/". *)
Theorem extracted_records_bounded soup r :
  r ∈ _extract_products_from_html soup →
  Py.len (prod_name r) ≤ 100
  ∧ Py.startswith "http" (prod_url r) = true
  ∧ ((∃ link href,
        link ∈ soup ∧ tag_name link = "a" ∧ get "href" link = Some href
        ∧ Py.re_search_id href = Some (prod_id r)
        ∧ prod_url r = (if Py.startswith "http" href then href
                        else "https://www.bol.com" +:+ href))
     ∨ (∃ elem,
          elem ∈ soup ∧ get "data-product-id" elem = Some (prod_id r)
          ∧ prod_url r = "https://www.bol.com/nl/nl/p/" +:+ prod_id r +:+ "/")).
Proof.
  intros [(link & Hin & Hc)|(elem & Hin & Hc)]%extract_elem_origin.
  - apply list_elem_of_filter in Hin as [[Ha [href Hhref]] Hin].
    unfold link_candidate in Hc. rewrite Hhref in Hc. cbn [default from_option id] in Hc.
    destruct (_ && _); [|done].
    destruct (Py.re_search_id href) as [product_id|] eqn:Hid; [|done].
    injection Hc as <-. cbn [prod_id prod_name prod_url].
    split; [apply link_name_len|]. split; [apply link_url_absolute|].
    left. exists link, href. by rewrite Hid.
  - apply list_elem_of_filter in Hin as [[pid Hpid] Hin].
    unfold card_candidate in Hc. rewrite Hpid in Hc. cbn [default from_option id] in Hc.
    destruct (_ && _); [|done].
    injection Hc as <-. cbn [prod_id prod_name prod_url].
    split; [apply card_name_len|]. split; [vm_compute; reflexivity|].
    right. by exists elem.
Qed.

Lemma extracted_records_witness :
  Py.len (prod_name target_link_record) ≤ 100
  ∧ Py.startswith "http" (prod_url target_link_record) = true
  ∧ ((∃ link href,
        link ∈ card_first_soup ∧ tag_name link = "a" ∧ get "href" link = Some href
        ∧ Py.re_search_id href = Some (prod_id target_link_record)
        ∧ prod_url target_link_record
          = (if Py.startswith "http" href then href
             else "https://www.bol.com" +:+ href))
     ∨ (∃ elem,
          elem ∈ card_first_soup
          ∧ get "data-product-id" elem = Some (prod_id target_link_record)
          ∧ prod_url target_link_record
            = "https://www.bol.com/nl/nl/p/" +:+ prod_id target_link_record +:+ "/")).
Proof.
  apply (extracted_records_bounded card_first_soup target_link_record).
  vm_compute. apply list_elem_of_In. right. left. reflexivity.
Defined.

(** ** Identifiers and names derived from URLs *)

Lemma re_search_id_occurs s product_id :
  Py.re_search_id s = Some product_id →
  ∃ pre post, s = pre +:+ "/" +:+ product_id +:+ "/" +:+ post.
Proof.
  induction s as [|c s IH]; [done|].
  rewrite re_search_id_cons.
  assert (Hrest : Py.re_search_id s = Some product_id →
            ∃ pre post, String c s = pre +:+ "/" +:+ product_id +:+ "/" +:+ post).
  { intros (pre & post & ->)%IH. by exists (String c pre), post. }
  destruct (Ascii.eqb c "/") eqn:Hc; [|done].
  apply Ascii.eqb_eq in Hc as ->.
  pose proof (span_decimal_spec s) as Hspan.
  destruct (Py.span_decimal s) as [ds tl]. destruct Hspan as (-> & _ & _).
  cbn [fst snd].
  destruct ((10 <=? Py.len ds) && Py.startswith "/" tl) eqn:Hok; [|done].
  intros [= <-]. apply andb_true_iff in Hok as [_ Htl].
  apply startswith_slash in Htl as [post ->]. by exists "", post.
Qed.

(** [get_product_id] accepts every URL that holds a run of ten or more
    digits between two slashes; what it returns is such a run, standing
    between two slashes of the URL; and it changes nothing. *)
Theorem get_product_id_sound product_url st :
  (has_id_segment product_url →
   ∃ product_id, get_product_id product_url st = (Ret product_id, st))
  ∧ (∀ product_id st',
       get_product_id product_url st = (Ret product_id, st') →
       st' = st
       ∧ 10 ≤ Py.len product_id
       ∧ Py.all_chars Py.is_decimal product_id = true
       ∧ ∃ pre post, product_url = pre +:+ "/" +:+ product_id +:+ "/" +:+ post).
Proof.
  unfold get_product_id. split.
  - intros [product_id Hs]%re_search_id_complete. rewrite Hs. by exists product_id.
  - intros product_id st'.
    destruct (Py.re_search_id product_url) as [i|] eqn:Hs; [|done].
    intros [= <- <-]. split; [done|].
    pose proof (re_search_id_fullmatch _ _ Hs) as Hfull.
    unfold Py.re_fullmatch_id in Hfull. apply andb_true_iff in Hfull as [Hlen Hall].
    split; [by apply Nat.leb_le|]. split; [done|].
    by apply re_search_id_occurs.
Qed.

Lemma get_product_id_witness :
  ∃ product_id, get_product_id TRACKED_URL blank_state = (Ret product_id, blank_state)
                ∧ 10 ≤ Py.len product_id.
Proof.
  destruct (get_product_id_sound TRACKED_URL blank_state) as [Hacc Hsound].
  destruct Hacc as [product_id Hid].
  { exists "https://www.bol.com/nl/nl/p/lenor-geurbooster", TARGET, "".
    split; [reflexivity|]. split; [vm_compute; lia | reflexivity]. }
  exists product_id. split; [exact Hid|].
  destruct (Hsound product_id blank_state Hid) as (_ & Hlen & _). exact Hlen.
Defined.

Lemma title_char_not_hyphen c :
  not_hyphen c = true →
  not_hyphen (Py.to_lower c) = true ∧ not_hyphen (Py.to_upper c) = true.
Proof.
  destruct c as [[] [] [] [] [] [] [] []]; vm_compute; intros; split; congruence.
Qed.

Lemma replace_hyphen_free s :
  Py.all_chars not_hyphen (Py.replace_char "-" " " s) = true.
Proof.
  induction s as [|c s IH]; [done|]. cbn [Py.replace_char Py.all_chars].
  rewrite IH, andb_true_r. unfold not_hyphen.
  destruct (Ascii.eqb c "-") eqn:Hc; [done | by rewrite Hc].
Qed.

Lemma title_hyphen_free p s :
  Py.all_chars not_hyphen s = true →
  Py.all_chars not_hyphen (Py.title_from p s) = true.
Proof.
  revert p. induction s as [|c s IH]; intros p; [done|].
  cbn [Py.title_from Py.all_chars]. intros [Hc Hs]%andb_true_iff.
  destruct (title_char_not_hyphen c Hc) as [Hlo Hup].
  destruct (Py.is_upper c || Py.is_lower c); cbn [Py.all_chars].
  - rewrite (IH true Hs), andb_true_r. by destruct p.
  - by rewrite Hc, (IH false Hs).
Qed.

Lemma squeeze_hyphen_free p s :
  Py.all_chars not_hyphen s = true →
  Py.all_chars not_hyphen (Py.squeeze_from p s) = true.
Proof.
  revert p. induction s as [|c s IH]; intros p; [done|].
  cbn [Py.squeeze_from Py.all_chars]. intros [Hc Hs]%andb_true_iff.
  destruct (Py.is_space c).
  - destruct p; [by apply IH|]. cbn [Py.all_chars]. by rewrite (IH true Hs).
  - cbn [Py.all_chars]. by rewrite Hc, (IH false Hs).
Qed.

Lemma lstrip_all_chars P s :
  Py.all_chars P s = true → Py.all_chars P (Py.lstrip s) = true.
Proof.
  induction s as [|c s IH]; [done|]. cbn [Py.lstrip].
  destruct (Py.is_space c); [|done].
  cbn [Py.all_chars]. intros [_ Hs]%andb_true_iff. by apply IH.
Qed.

Lemma rstrip_all_chars P s :
  Py.all_chars P s = true → Py.all_chars P (Py.rstrip s) = true.
Proof.
  induction s as [|c s IH]; [done|]. cbn [Py.rstrip Py.all_chars].
  intros [Hc Hs]%andb_true_iff. specialize (IH Hs).
  destruct (Py.rstrip s) as [|d t].
  - destruct (Py.is_space c); [done|]. cbn [Py.all_chars]. by rewrite Hc.
  - cbn [Py.all_chars] in *. by rewrite Hc, IH.
Qed.

Lemma squeeze_well_spaced p s : well_spaced p (Py.squeeze_from p s) = true.
Proof.
  revert p. induction s as [|c s IH]; intros p; [done|].
  cbn [Py.squeeze_from]. destruct (Py.is_space c) eqn:Hc.
  - destruct p; [apply IH|]. cbn [well_spaced].
    by rewrite (IH true).
  - cbn [well_spaced]. rewrite Hc. apply IH.
Qed.

Lemma well_spaced_fixed p s :
  well_spaced p s = true → Py.squeeze_from p s = s.
Proof.
  revert p. induction s as [|c s IH]; intros p; [done|].
  cbn [well_spaced Py.squeeze_from]. destruct (Py.is_space c).
  - intros [[Hsp Hp%negb_true_iff]%andb_true_iff Hs]%andb_true_iff.
    apply Ascii.eqb_eq in Hsp as ->. rewrite Hp. by rewrite (IH true Hs).
  - intros Hs. by rewrite (IH false Hs).
Qed.

Lemma well_spaced_weaken p s :
  well_spaced p s = true → well_spaced false s = true.
Proof.
  destruct s as [|c s]; [done|]. cbn [well_spaced].
  destruct (Py.is_space c); [|done].
  intros [[-> _]%andb_true_iff ->]%andb_true_iff. done.
Qed.

Lemma lstrip_well_spaced p s :
  well_spaced p s = true → well_spaced false (Py.lstrip s) = true.
Proof.
  revert p. induction s as [|c s IH]; intros p; [done|].
  cbn [Py.lstrip]. destruct (Py.is_space c) eqn:Hc.
  - cbn [well_spaced]. rewrite Hc. intros [_ Hs]%andb_true_iff. by eapply IH.
  - apply well_spaced_weaken.
Qed.

Lemma rstrip_well_spaced p s :
  well_spaced p s = true → well_spaced p (Py.rstrip s) = true.
Proof.
  revert p. induction s as [|c s IH]; intros p; [done|].
  cbn [Py.rstrip well_spaced]. destruct (Py.is_space c) eqn:Hc.
  - intros [Hhead Hs]%andb_true_iff. specialize (IH true Hs).
    destruct (Py.rstrip s) as [|d t]; [done|].
    cbn [well_spaced] in *. by rewrite Hc, Hhead, IH.
  - intros Hs. specialize (IH false Hs).
    destruct (Py.rstrip s) as [|d t]; cbn [well_spaced] in *; by rewrite Hc.
Qed.

Lemma rstrip_nonspace c r :
  Py.is_space c = false → Py.rstrip (String c r) = String c (Py.rstrip r).
Proof.
  intros Hc. cbn [Py.rstrip]. destruct (Py.rstrip r); [by rewrite Hc | done].
Qed.

Lemma rstrip_idem s : Py.rstrip (Py.rstrip s) = Py.rstrip s.
Proof.
  induction s as [|c s IH]; [done|]. cbn [Py.rstrip].
  destruct (Py.rstrip s) as [|d t] eqn:Ht.
  - destruct (Py.is_space c) eqn:Hc; [done|].
    cbn [Py.rstrip]. by rewrite Hc.
  - change (Py.rstrip (String c (String d t))) with
      (match Py.rstrip (String d t) with
       | EmptyString => if Py.is_space c then EmptyString else String c EmptyString
       | r => String c r
       end).
    by rewrite IH.
Qed.

Lemma lstrip_head s :
  Py.lstrip s = EmptyString
  ∨ ∃ c r, Py.lstrip s = String c r ∧ Py.is_space c = false.
Proof.
  induction s as [|c s IH]; [by left|]. cbn [Py.lstrip].
  destruct (Py.is_space c) eqn:Hc; [done|]. right. by exists c, s.
Qed.

Lemma strip_idem s : Py.strip (Py.strip s) = Py.strip s.
Proof.
  unfold Py.strip. destruct (lstrip_head s) as [->|(c & r & -> & Hc)]; [done|].
  rewrite (rstrip_nonspace _ _ Hc). cbn [Py.lstrip]. rewrite Hc.
  by rewrite (rstrip_nonspace _ _ Hc), rstrip_idem.
Qed.

Lemma name_pipeline_tidy part :
  let name :=
    Py.strip (Py.re_sub_spaces (Py.title (Py.replace_char "-" " " part))) in
  Py.strip name = name ∧ Py.re_sub_spaces name = name
  ∧ Py.all_chars not_hyphen name = true.
Proof.
  intros name. subst name. split_and!.
  - apply strip_idem.
  - apply (well_spaced_fixed false). unfold Py.strip.
    apply rstrip_well_spaced. eapply lstrip_well_spaced.
    apply squeeze_well_spaced.
  - unfold Py.strip. apply rstrip_all_chars, lstrip_all_chars.
    apply squeeze_hyphen_free, title_hyphen_free, replace_hyphen_free.
Qed.

Lemma name_from_parts_pipeline parts name :
  name_from_parts parts = Some name →
  ∃ part, name = Py.strip (Py.re_sub_spaces (Py.title (Py.replace_char "-" " " part))).
Proof.
  induction parts as [|part rest IH]; [done|]. cbn [name_from_parts].
  destruct (_ && _ && _); [|done].
  destruct (negb _); [|done]. intros [= <-]. by exists part.
Qed.

(** The name derived from a URL is in normal form whatever the URL: it has
    no leading or trailing whitespace, its only whitespace is single spaces
    between words, and it holds no hyphen. *)
Theorem url_name_is_tidy product_url :
  let name := _extract_name_from_url product_url in
  Py.strip name = name
  ∧ Py.re_sub_spaces name = name
  ∧ Py.all_chars not_hyphen name = true.
Proof.
  unfold _extract_name_from_url.
  destruct (Py.re_search_slug product_url) as [slug|]; [apply name_pipeline_tidy|].
  destruct (name_from_parts _) as [name|] eqn:Hparts.
  - apply name_from_parts_pipeline in Hparts as [part ->]. apply name_pipeline_tidy.
  - vm_compute. done.
Qed.

Example url_name_ex :
  _extract_name_from_url
    "https://www.bol.com/nl/nl/p/lenor-geurbooster--6-x-235g/9300000170626119/"
  = "Lenor Geurbooster 6 X 235G".
Proof. vm_compute. reflexivity. Qed.

(** ** More on [find_product_ranking] *)

Lemma page_records_fullmatch w s keyword j pp r :
  page_records w s keyword j = Some pp → r ∈ pp →
  Py.re_fullmatch_id (prod_id r) = true.
Proof.
  intros Hp Hr.
  destruct s; simpl in Hp; unfold mobile_records, browser_records in Hp.
  - destruct (session_get w keyword j) as [resp|]; [|done].
    destruct (status_code resp =? 200)%Z; [|done].
    injection Hp as <-. by eapply extract_ids_wellformed.
  - destruct (driver_get w keyword j) as [html|]; [|done].
    injection Hp as <-. by eapply extract_ids_wellformed.
Qed.

Lemma matches_fullmatch w s keyword tid k :
  matches w s keyword tid k → Py.re_fullmatch_id tid = true.
Proof.
  intros (p & m & _ & _ & _ & _ & pp & Hpp & _ & (r & Hr & <-) & _).
  eapply page_records_fullmatch; [done|]. by eapply list_elem_of_lookup_2.
Qed.

Lemma find_product_ranking_fst w keyword tid k st :
  ¬ matches w Mobile keyword tid k → ¬ matches w Browser keyword tid k →
  ∃ r, (find_product_ranking w keyword tid k st).1 = Ret r ∧ not_found_result r.
Proof.
  intros Hm Hb. rewrite find_product_ranking_run.
  pose proof (outcome_not_found _ _ _ _ k Hm) as Hom.
  pose proof (outcome_not_found _ _ _ _ k Hb) as Hob.
  set (om := strategy_outcome w Mobile keyword (Some tid) k) in *.
  set (ob := strategy_outcome w Browser keyword (Some tid) k) in *.
  rewrite Hom. cbn [found target_not_found fst].
  destruct (0 <? length ob.1.1); eexists; (split; [reflexivity|]);
    apply result_of_not_found; [by rewrite Hob | done].
Qed.

(** An identifier that is not a run of ten or more digits, the empty text
    among them, is never located: the result is a not-found result whatever
    the pages hold. *)
Theorem malformed_target_never_found w keyword tid k st :
  Py.re_fullmatch_id tid = false →
  ∃ r, (find_product_ranking w keyword tid k st).1 = Ret r ∧ not_found_result r.
Proof.
  intros Hbad. apply find_product_ranking_fst.
  - intros Hm%matches_fullmatch. congruence.
  - intros Hm%matches_fullmatch. congruence.
Qed.

Lemma malformed_target_witness :
  ∃ r, (find_product_ranking two_page_world "lenor" "" 5 blank_state).1 = Ret r
       ∧ not_found_result r.
Proof.
  apply (malformed_target_never_found two_page_world "lenor" "" 5 blank_state).
  reflexivity.
Defined.

(** When the lightweight strategy matches the target, the rendered strategy
    is not run at all: no page is requested through the browser. *)
Theorem browser_skipped_after_mobile_match w keyword tid k st :
  matches w Mobile keyword tid k →
  pages_fetched Browser
    (new_fetches st (find_product_ranking w keyword tid k st).2) = [].
Proof.
  intros (p & m & Hle & Hfirst). rewrite find_product_ranking_run.
  rewrite (outcome_hit _ _ _ _ _ _ _ Hfirst Hle). simpl.
  rewrite new_fetches_add. by apply pages_fetched_other.
Qed.

Lemma browser_skipped_witness :
  pages_fetched Browser
    (new_fetches blank_state
       (find_product_ranking two_page_world "lenor" TARGET 5 blank_state).2) = [].
Proof.
  apply browser_skipped_after_mobile_match.
  exists 2, 2. split; [lia | exact two_page_first_appears].
Defined.

(** [find_product_ranking] only requests pages: it leaves both tables and the
    clock as they are, adds at most [2 * max_pages] requests to the log, and
    every one of them is for the keyword it was given. *)
Theorem find_product_ranking_frame w keyword tid k st :
  let st' := (find_product_ranking w keyword tid k st).2 in
  tracked_products st' = tracked_products st
  ∧ product_tracking st' = product_tracking st
  ∧ ticks st' = ticks st
  ∧ ∃ fs, fetches st' = fetches st ++ fs
          ∧ length fs ≤ 2 * k
          ∧ ∀ f, f ∈ fs → fetch_keyword f = keyword.
Proof.
  simpl. rewrite find_product_ranking_run.
  pose proof (outcome_count_le w Mobile keyword (Some tid) k) as Hm.
  pose proof (outcome_count_le w Browser keyword (Some tid) k) as Hb.
  set (om := strategy_outcome w Mobile keyword (Some tid) k) in *.
  set (ob := strategy_outcome w Browser keyword (Some tid) k) in *.
  destruct (found _); simpl; (split_and!; [done | done | done |]);
    eexists; (split; [reflexivity|]).
  - split; [rewrite length_fmap, length_seq; lia|].
    by intros f (p & -> & _)%list_elem_of_fmap.
  - split; [rewrite length_app, !length_fmap, !length_seq; lia|].
    by intros f [(p & -> & _)%list_elem_of_fmap
                |(p & -> & _)%list_elem_of_fmap]%elem_of_app.
Qed.

Lemma first_with_id_Some tid ps :
  (∃ r, r ∈ ps ∧ prod_id r = tid) →
  ∃ pr, first_with_id tid ps = Some pr ∧ prod_id pr = tid.
Proof.
  induction ps as [|q ps IH]; intros (r & Hr & Hid).
  - by apply elem_of_nil in Hr.
  - cbn [first_with_id]. destruct (String.eqb (prod_id q) tid) eqn:Hq.
    + apply String.eqb_eq in Hq. by exists q.
    + apply String.eqb_neq in Hq. apply IH.
      apply elem_of_cons in Hr as [->|Hr]; [done|]. by exists r.
Qed.

Lemma concat_seq_last (F : nat → list Product) p :
  1 ≤ p → concat (F <$> seq 1 p) = concat (F <$> seq 1 (p - 1)) ++ F p.
Proof.
  intros Hp. assert (Hs : seq 1 p = seq 1 (p - 1) ++ [p]).
  { assert (Hp' : p = (p - 1) + 1) by lia. rewrite Hp' at 1.
    rewrite seq_app. simpl. do 2 f_equal. lia. }
  rewrite Hs at 1. rewrite fmap_app, concat_app. simpl. by rewrite app_nil_r.
Qed.

Lemma outcome_result_consistent w s keyword tid k :
  let o := strategy_outcome w s keyword (Some tid) k in
  found o.1.2 = true →
  ∃ p m a pr,
    position (result_of tid o.1.1 o.1.2) = Some m
    ∧ r_page (result_of tid o.1.1 o.1.2) = Some p
    ∧ r_page_product (result_of tid o.1.1 o.1.2) = Some a
    ∧ product (result_of tid o.1.1 o.1.2) = Some pr
    ∧ prod_id pr = tid
    ∧ 1 ≤ p ≤ k ∧ 1 ≤ m ≤ a
    ∧ a ≤ total_found (result_of tid o.1.1 o.1.2).
Proof.
  intros o Hf. subst o.
  destruct (outcome_found _ _ _ _ _ Hf) as (p & m & Hle & Hfirst).
  rewrite (outcome_hit _ _ _ _ _ _ _ Hfirst Hle). cbn [fst snd].
  destruct Hfirst as (_ & Hp1 & _ & pp & Hpp & Hm1 & (r & Hr & Hid) & _).
  assert (Hcat : concat ((λ j, default [] (page_records w s keyword j)) <$> seq 1 p)
                 = concat ((λ j, default [] (page_records w s keyword j))
                             <$> seq 1 (p - 1)) ++ pp).
  { rewrite concat_seq_last by done. by rewrite Hpp. }
  destruct (first_with_id_Some tid
              (concat ((λ j, default [] (page_records w s keyword j)) <$> seq 1 p)))
    as (pr & Hpr & Hprid).
  { exists r. split; [|done]. rewrite Hcat. apply elem_of_app. right.
    by eapply list_elem_of_lookup_2. }
  exists p, m, (count_before w s keyword p + m), pr.
  unfold result_of. cbn [found position r_page r_page_product product total_found
                        position_on_page page page_product].
  split_and!; try done; try lia.
  rewrite Hcat, length_app. unfold count_before.
  apply lookup_lt_Some in Hr. lia.
Qed.

(** A result that reports a position is consistent: the page lies within
    [1..max_pages], the position on the page is at least 1 and at most the
    absolute position, the absolute position is at most the total count, and
    the product returned carries the target identifier. *)
Theorem located_result_consistent w keyword tid k st r m :
  (find_product_ranking w keyword tid k st).1 = Ret r →
  position r = Some m →
  ∃ p a pr,
    r_page r = Some p ∧ r_page_product r = Some a
    ∧ product r = Some pr ∧ prod_id pr = tid
    ∧ 1 ≤ p ≤ k ∧ 1 ≤ m ≤ a ∧ a ≤ total_found r.
Proof.
  rewrite find_product_ranking_run.
  pose proof (outcome_result_consistent w Mobile keyword tid k) as Hm.
  pose proof (outcome_result_consistent w Browser keyword tid k) as Hb.
  cbv zeta in Hm, Hb.
  set (om := strategy_outcome w Mobile keyword (Some tid) k) in *.
  set (ob := strategy_outcome w Browser keyword (Some tid) k) in *.
  assert (Hnone : ∀ ps ti, found ti = false → position (result_of tid ps ti) = None).
  { intros ps ti Hf. unfold result_of. by rewrite Hf. }
  destruct (found om.1.2) eqn:Hfm; cbn [fst].
  - intros [= <-] Hpos.
    destruct (Hm eq_refl) as (p & m' & a & pr & Hm' & ?). 
    rewrite Hpos in Hm'. injection Hm' as <-. by exists p, a, pr.
  - destruct (0 <? length ob.1.1).
    + intros [= <-] Hpos. destruct (found ob.1.2) eqn:Hfb.
      * destruct (Hb eq_refl) as (p & m' & a & pr & Hm' & ?).
        rewrite Hpos in Hm'. injection Hm' as <-. by exists p, a, pr.
      * by rewrite Hnone in Hpos.
    + intros [= <-] Hpos. by rewrite Hnone in Hpos.
Qed.

Lemma located_result_witness :
  ∃ p a pr,
    Some 2 = Some p ∧ Some 4 = Some a
    ∧ Some {| prod_id := TARGET; prod_name := "Lenor";
              prod_url := "https://www.bol.com/nl/nl/p/item/9300000170626119/" |}
      = Some pr
    ∧ prod_id pr = TARGET ∧ 1 ≤ p ≤ 5 ∧ 1 ≤ 2 ≤ a ∧ a ≤ 4.
Proof.
  apply (located_result_consistent two_page_world "lenor" TARGET 5 blank_state
           {| position := Some 2; r_page_product := Some 4; r_page := Some 2;
              product := Some {| prod_id := TARGET; prod_name := "Lenor";
                                 prod_url := "https://www.bol.com/nl/nl/p/item/9300000170626119/" |};
              total_found := 4 |} 2).
  - vm_compute. reflexivity.
  - reflexivity.
Defined.

(** ** More on the two strategies *)

Lemma scan_all soe records tid pages ps ti :
  found ti = false →
  (∀ j, j ∈ pages → ∃ ppj, records j = Some ppj ∧ absent tid ppj
                            ∧ (soe = true → ppj ≠ [])) →
  scan soe records (Some tid) pages ps ti
  = (ps ++ concat ((λ j, default [] (records j)) <$> pages), ti, length pages).
Proof.
  intros Hf. revert ps. induction pages as [|j pages IH]; intros ps Hall; simpl.
  - by rewrite app_nil_r.
  - destruct (Hall j) as (ppj & Hj & Hab & Hne); [by left|].
    rewrite Hj. rewrite (check_target_absent _ _ _ _ _ Hab). simpl.
    assert (Hstop : found ti || soe && (length ppj =? 0) = false).
    { rewrite Hf. destruct soe; simpl; [|done].
      destruct ppj; [by destruct Hne | done]. }
    rewrite Hstop, IH.
    2:{ intros j' Hj'. apply Hall. by right. }
    by rewrite <- app_assoc.
Qed.

Lemma scan_empty records tid pre p post ps ti :
  found ti = false →
  (∀ j, j ∈ pre → ∃ ppj, records j = Some ppj ∧ absent tid ppj
                          ∧ (true = true → ppj ≠ [])) →
  records p = Some [] →
  scan true records (Some tid) (pre ++ p :: post) ps ti
  = (ps ++ concat ((λ j, default [] (records j)) <$> pre), ti, S (length pre)).
Proof.
  intros Hf Hpre Hp. revert ps Hpre.
  induction pre as [|j pre IH]; intros ps Hpre; simpl.
  - rewrite Hp. rewrite check_target_absent.
    2:{ intros r Hr. by apply elem_of_nil in Hr. }
    simpl. by rewrite orb_true_r, !app_nil_r.
  - destruct (Hpre j) as (ppj & Hj & Hab & Hne); [by left|].
    rewrite Hj. rewrite (check_target_absent _ _ _ _ _ Hab). simpl.
    assert (Hstop : found ti || (length ppj =? 0) = false).
    { rewrite Hf. destruct ppj; [by destruct Hne | done]. }
    rewrite Hstop. rewrite IH.
    2:{ intros j' Hj'. apply Hpre. by right. }
    by rewrite <- !app_assoc.
Qed.

(** The rendered strategy stops at the first page that yields no record: it
    requests that page and none after it, and returns what the pages before
    it gave. The lightweight strategy has no such exit. *)
Theorem browser_stops_at_empty_page w keyword tid k j st :
  browser_available w = true → 1 ≤ j ≤ k →
  (∀ i, 1 ≤ i < j → passed w Browser keyword tid i) →
  page_records w Browser keyword j = Some [] →
  ∃ st1,
    search_products_browser w keyword k (Some tid) st
    = (Ret (concat ((λ i, default [] (page_records w Browser keyword i))
                      <$> seq 1 (j - 1)),
            target_not_found), st1)
    ∧ pages_fetched Browser (new_fetches st st1) = seq 1 j.
Proof.
  intros Hav [Hj1 Hle] Hpassed Hempty.
  pose proof (search_products_browser_outcome w keyword k (Some tid) st) as Hrun.
  cbv zeta in Hrun.
  assert (Hout : strategy_outcome w Browser keyword (Some tid) k
                 = (concat ((λ i, default [] (page_records w Browser keyword i))
                              <$> seq 1 (j - 1)), target_not_found, j)).
  { rewrite strategy_outcome_scan by done.
    assert (Hsplit : seq 1 k = seq 1 (j - 1) ++ j :: seq (S j) (k - j)).
    { assert (Hk : k = (j - 1) + S (k - j)) by lia.
      rewrite Hk at 1. rewrite seq_app.
      replace (1 + (j - 1)) with j by lia. done. }
    rewrite Hsplit. cbn [stops_on_empty]. rewrite scan_empty; try done.
    - rewrite length_seq. simpl. by replace (S (j - 1)) with j by lia.
    - intros i [? ?]%elem_of_seq_1. apply Hpassed. lia. }
  rewrite Hout in Hrun. cbn [fst snd] in Hrun.
  eexists. split; [exact Hrun|].
  by rewrite new_fetches_add, pages_fetched_same.
Qed.

Lemma browser_stops_witness :
  ∃ st1,
    search_products_browser fallback_world "wasmiddel" 5 (Some TARGET) blank_state
    = (Ret (concat ((λ i, default []
                       (page_records fallback_world Browser "wasmiddel" i))
                      <$> seq 1 1),
            target_not_found), st1)
    ∧ pages_fetched Browser (new_fetches blank_state st1) = [1; 2].
Proof.
  apply (browser_stops_at_empty_page fallback_world "wasmiddel" TARGET 5 2
           blank_state).
  - reflexivity.
  - lia.
  - intros i Hi. assert (i = 1) as -> by lia.
    eexists. split; [vm_compute; reflexivity|].
    split; [|discriminate].
    apply (find_on_page_None _ 1). vm_compute. reflexivity.
  - vm_compute. reflexivity.
Defined.

(** A strategy that obtains every one of the [max_pages] pages without
    meeting the target (and, for the rendered strategy, without an empty
    page) requests all of them, in order, and returns all their records. *)
Theorem exhaustive_scan w s keyword tid k st :
  strategy_runs w s →
  (∀ i, 1 ≤ i ≤ k → passed w s keyword tid i) →
  ∃ st1,
    run_strategy w s keyword k (Some tid) st
    = (Ret (concat ((λ i, default [] (page_records w s keyword i)) <$> seq 1 k),
            target_not_found), st1)
    ∧ pages_fetched s (new_fetches st st1) = seq 1 k.
Proof.
  intros Hruns Hpassed.
  pose proof (search_products_outcome w s keyword k (Some tid) st) as Hrun.
  cbv zeta in Hrun.
  assert (Hout : strategy_outcome w s keyword (Some tid) k
                 = (concat ((λ i, default [] (page_records w s keyword i))
                              <$> seq 1 k), target_not_found, k)).
  { rewrite strategy_outcome_scan by done. rewrite scan_all; try done.
    - by rewrite length_seq.
    - intros i Hi%elem_of_seq_1. by apply Hpassed. }
  rewrite Hout in Hrun. cbn [fst snd] in Hrun.
  eexists. split; [exact Hrun|].
  by rewrite new_fetches_add, pages_fetched_same.
Qed.

Lemma exhaustive_scan_witness :
  ∃ st1,
    run_strategy repeating_world Mobile "wasmiddel" 3 (Some TARGET) blank_state
    = (Ret (concat ((λ i, default []
                       (page_records repeating_world Mobile "wasmiddel" i))
                      <$> seq 1 3),
            target_not_found), st1)
    ∧ pages_fetched Mobile (new_fetches blank_state st1) = [1; 2; 3].
Proof.
  apply (exhaustive_scan repeating_world Mobile "wasmiddel" TARGET 3 blank_state).
  - exact I.
  - intros i Hi.
    assert (i = 1 ∨ i = 2 ∨ i = 3) as [->|[->| ->]] by lia;
      (eexists; split; [vm_compute; reflexivity|];
       split; [|discriminate];
       apply (find_on_page_None _ 1); vm_compute; reflexivity).
Defined.

(** A tracked product whose own URL is the [href] of a link on the first
    result page is found there: the identifier derived from the URL is the
    one the extractor gives the link's record, so the result reports page 1
    and an absolute position equal to the position on that page. *)
Theorem tracked_link_on_first_page_is_found
    w keyword product_url tid k st resp link :
  get_product_id product_url st = (Ret tid, st) →
  Py.contains "/p/" product_url = true →
  1 ≤ k →
  session_get w keyword 1 = Ret resp → status_code resp = 200%Z →
  link ∈ text resp → tag_name link = "a" → get "href" link = Some product_url →
  ∃ r m,
    (find_product_ranking w keyword tid k st).1 = Ret r
    ∧ r_page r = Some 1 ∧ position r = Some m ∧ r_page_product r = Some m.
Proof.
  intros Hid Hp Hk Hget Hstatus Hlink Htag Hhref.
  assert (Hs : Py.re_search_id product_url = Some tid).
  { unfold get_product_id in Hid.
    destruct (Py.re_search_id product_url); [by injection Hid as -> | done]. }
  assert (Htruthy : Py.truthy product_url = true).
  { destruct product_url; [done | done]. }
  set (rec := {| prod_id := tid; prod_name := link_name link;
                 prod_url := link_url product_url |}).
  assert (Hcand : link_candidate link = Some rec).
  { unfold link_candidate. rewrite Hhref.
    change (default "" (Some product_url)) with product_url.
    by rewrite Htruthy, Hp, Hs. }
  set (pp := _extract_products_from_html (text resp)).
  assert (Hin : tid ∈ ids pp).
  { destruct (keep_first_complete ∅ (scan_candidates (text resp)) rec) as [Hn|Hin].
    - unfold scan_candidates. apply elem_of_app. left.
      apply list_elem_of_omap. exists link. split; [|done].
      apply list_elem_of_filter. split; [|done]. split; [done|]. by rewrite Hhref.
    - by apply not_elem_of_empty in Hn.
    - unfold pp. by rewrite extract_keep_first. }
  destruct (find_on_page tid 1 pp) as [m|] eqn:Hfind.
  2:{ apply find_on_page_None in Hfind.
      apply list_elem_of_fmap in Hin as (r & Hr & Hrin). destruct (Hfind r Hrin).
      done. }
  apply find_on_page_first_at in Hfind.
  assert (Hrec : page_records w Mobile keyword 1 = Some pp).
  { cbn [page_records]. unfold mobile_records. rewrite Hget, Hstatus. done. }
  assert (Hfirst : first_appears w Mobile keyword tid 1 m).
  { split; [exact I|]. split; [lia|]. split; [intros j Hj; lia|]. by exists pp. }
  rewrite find_product_ranking_run.
  rewrite (outcome_hit _ _ _ _ _ _ _ Hfirst Hk). cbn [fst snd found].
  eexists _, m. split; [reflexivity|]. unfold result_of. cbn. done.
Qed.

Lemma tracked_link_witness :
  ∃ r m,
    (find_product_ranking sentinel_world "lenor" TARGET 50 blank_state).1 = Ret r
    ∧ r_page r = Some 1 ∧ position r = Some m ∧ r_page_product r = Some m.
Proof.
  apply (tracked_link_on_first_page_is_found sentinel_world "lenor"
           "/nl/nl/p/lenor-geurbooster/9300000170626119/" TARGET 50 blank_state
           {| status_code := 200;
              text := [link_to ARIEL "Ariel";
                       bare_anchor "/nl/nl/p/lenor-geurbooster/9300000170626119/"] |}
           (bare_anchor "/nl/nl/p/lenor-geurbooster/9300000170626119/")).
  - reflexivity.
  - reflexivity.
  - lia.
  - reflexivity.
  - reflexivity.
  - apply list_elem_of_In. right. left. reflexivity.
  - reflexivity.
  - vm_compute. reflexivity.
Defined.

(** ** The table of tracked products *)

Lemma find_product_ranking_ret w keyword tid k st :
  ∃ r fs, find_product_ranking w keyword tid k st = (Ret r, add_fetches fs st).
Proof.
  rewrite find_product_ranking_run. destruct (found _); eexists _, _; reflexivity.
Qed.

Lemma foldr_max_ge (l : list nat) x : x ∈ l → x ≤ foldr Nat.max 0 l.
Proof.
  induction l as [|y l IH]; [by intros ?%elem_of_nil|].
  intros [->|Hx]%elem_of_cons; simpl; [lia|]. specialize (IH Hx). lia.
Qed.

Lemma next_rowid_fresh rows : next_rowid rows ∉ tr_id <$> rows.
Proof.
  unfold next_rowid. intros Hin%foldr_max_ge. lia.
Qed.

Lemma add_tracked_product_run w keyword product_url stop_after_days st tid :
  get_product_id product_url st = (Ret tid, st) →
  ∃ new_id row st',
    add_tracked_product w keyword product_url stop_after_days st
    = (Ret (new_id, keyword, tid, product_url), st')
    ∧ tracked_products st' = tracked_products st ++ [row]
    ∧ product_tracking st' = product_tracking st
    ∧ tr_id row = new_id ∧ (new_id ∉ row_ids st)
    ∧ tr_keyword row = keyword ∧ tr_product_id row = tid
    ∧ tr_product_url row = product_url
    ∧ tr_active row = 1%Z ∧ tr_daily_scheduler row = 0%Z
    ∧ tr_stop_after_days row = stop_after_days
    ∧ (NoDup (row_ids st) → NoDup (row_ids st')).
Proof.
  intros Hid.
  destruct (find_product_ranking_ret w keyword tid 1 st) as (r & fs & Hrun).
  unfold add_tracked_product, try_except, mbind, M_bind, bind. rewrite Hid, Hrun.
  set (name := match located_name r with
               | Some n => n
               | None => _extract_name_from_url product_url
               end).
  assert (Hname : (match located_name r with
                   | Some n => ret n
                   | None => ret (_extract_name_from_url product_url)
                   end) (add_fetches fs st) = (Ret name, add_fetches fs st)).
  { unfold name. by destruct (located_name r). }
  rewrite Hname.
  unfold datetime_now, get_state, modify_state, ret. cbn.
  eexists _, _, _. split; [reflexivity|]. cbn.
  split_and!; try reflexivity.
  - apply next_rowid_fresh.
  - intros Hnd. unfold row_ids. cbn. rewrite fmap_app. cbn.
    apply NoDup_app. split_and!; [done | | apply NoDup_singleton].
    intros x Hx ->%list_elem_of_singleton. by apply next_rowid_fresh in Hx.
Qed.

(** For a URL from which an identifier can be derived, and a [stop_after_days]
    that is absent or an integer of 64 signed bits (what the INSERT accepts),
    [add_tracked_product] appends exactly one row: under a key no row has yet,
    active, not yet scheduled, carrying the keyword, the identifier, the URL
    and [stop_after_days]; keys stay distinct, and the history is not
    written. *)
Theorem add_tracked_product_inserts w keyword product_url stop_after_days st tid :
  sqlite_integer stop_after_days →
  get_product_id product_url st = (Ret tid, st) →
  ∃ new_id row st',
    add_tracked_product w keyword product_url stop_after_days st
    = (Ret (new_id, keyword, tid, product_url), st')
    ∧ tracked_products st' = tracked_products st ++ [row]
    ∧ product_tracking st' = product_tracking st
    ∧ tr_id row = new_id ∧ (new_id ∉ row_ids st)
    ∧ tr_keyword row = keyword ∧ tr_product_id row = tid
    ∧ tr_product_url row = product_url
    ∧ tr_active row = 1%Z ∧ tr_daily_scheduler row = 0%Z
    ∧ tr_stop_after_days row = stop_after_days
    ∧ (NoDup (row_ids st) → NoDup (row_ids st')).
Proof. intros _. apply add_tracked_product_run. Qed.

Lemma add_tracked_product_witness :
  ∃ new_id row st',
    add_tracked_product sentinel_world "ariel"
      "https://www.bol.com/nl/nl/p/ariel-pods/9300000000000001/" (Some 30%Z)
      (tracked_state None)
    = (Ret (new_id, "ariel", ARIEL,
            "https://www.bol.com/nl/nl/p/ariel-pods/9300000000000001/"), st')
    ∧ tracked_products st' = tracked_products (tracked_state None) ++ [row]
    ∧ tr_id row = new_id ∧ (new_id ∉ row_ids (tracked_state None))
    ∧ tr_daily_scheduler row = 0%Z
    ∧ tr_stop_after_days row = Some 30%Z.
Proof.
  assert (Hfits : sqlite_integer (Some 30%Z)) by (simpl; lia).
  destruct (add_tracked_product_inserts sentinel_world "ariel"
              "https://www.bol.com/nl/nl/p/ariel-pods/9300000000000001/" (Some 30%Z)
              (tracked_state None) ARIEL Hfits eq_refl)
    as (new_id & row & st' & Hadd & Hrows & _ & Hid & Hfresh & _ & _ & _ & _ & Hd & Hs & _).
  exists new_id, row, st'.
  split; [exact Hadd|]. split; [exact Hrows|]. split; [exact Hid|].
  split; [exact Hfresh|]. split; [exact Hd | exact Hs].
Defined.

Lemma filter_none {A} (P : A → Prop) `{∀ x, Decision (P x)} (l : list A) :
  (∀ x, x ∈ l → ¬ P x) → filter P l = [].
Proof.
  induction l as [|x l IH]; intros Hno; [done|].
  rewrite filter_cons_False by (apply Hno; by left).
  apply IH. intros y Hy. apply Hno. by right.
Qed.




Lemma fmap_unchanged {A} (f : A → A) (l : list A) :
  (∀ x, x ∈ l → f x = x) → f <$> l = l.
Proof.
  induction l as [|x l IH]; intros Hf; [done|]. cbn.
  rewrite Hf by (by left). f_equal. apply IH. intros y Hy. apply Hf. by right.
Qed.



Lemma filter_key_unique (rows : list TrackedRow) row :
  NoDup (tr_id <$> rows) → row ∈ rows →
  filter (λ r, tr_id r = tr_id row) rows = [row].
Proof.
  induction rows as [|x rows IH]; [by intros _ ?%elem_of_nil|].
  cbn [fmap list_fmap]. intros [Hx Hnd]%NoDup_cons [->|Hin]%elem_of_cons.
  - rewrite filter_cons_True by done. f_equal. apply filter_none.
    intros y Hy Heq. apply Hx. rewrite <- Heq. apply list_elem_of_fmap. by exists y.
  - rewrite filter_cons_False; [by apply IH|].
    intros Heq. apply Hx. rewrite Heq. apply list_elem_of_fmap. by exists row.
Qed.

Lemma filter_key_fmap (f : TrackedRow → TrackedRow) k (rows : list TrackedRow) :
  (∀ r, tr_id (f r) = tr_id r) →
  filter (λ r, tr_id r = k) (f <$> rows) = f <$> filter (λ r, tr_id r = k) rows.
Proof.
  intros Hf. induction rows as [|x rows IH]; [done|]. cbn [fmap list_fmap].
  destruct (decide (tr_id x = k)) as [Hx|Hx].
  - rewrite !filter_cons_True by (by rewrite ?Hf). cbn. by rewrite IH.
  - rewrite !filter_cons_False by (by rewrite ?Hf). done.
Qed.



Lemma toggle_daily_scheduler_run st row :
  NoDup (row_ids st) → row ∈ tracked_products st →
  (tr_daily_scheduler row = 0 ∨ tr_daily_scheduler row = 1)%Z →
  ∃ st1,
    toggle_daily_scheduler (tr_id row) st
    = (Ret (bool_decide (tr_daily_scheduler row = 0%Z)), st1)
    ∧ (∀ r, r ∈ tracked_products st1 → tr_id r = tr_id row →
            tr_daily_scheduler r = (1 - tr_daily_scheduler row)%Z)
    ∧ (∃ r, r ∈ tracked_products st1 ∧ tr_id r = tr_id row
            ∧ tr_active r = tr_active row
            ∧ tr_daily_scheduler r = (1 - tr_daily_scheduler row)%Z)
    ∧ toggle_daily_scheduler (tr_id row) st1
      = (Ret (bool_decide (tr_daily_scheduler row = 1%Z)), st).
Proof.
  intros Hnd Hin Hflag.
  set (upd := λ (v : Z) (r : TrackedRow),
         if bool_decide (tr_id r = tr_id row)
         then {| tr_id := tr_id r; tr_keyword := tr_keyword r;
                 tr_product_id := tr_product_id r;
                 tr_product_url := tr_product_url r;
                 tr_product_name := tr_product_name r;
                 tr_active := tr_active r;
                 tr_created_at := tr_created_at r;
                 tr_stop_after_days := tr_stop_after_days r;
                 tr_daily_scheduler := v |}
         else r).
  assert (Hupd_id : ∀ v r, tr_id (upd v r) = tr_id r).
  { intros v r. unfold upd. by case_bool_decide. }
  set (v1 := (1 - tr_daily_scheduler row)%Z).
  set (st1 := set_tracked_products (upd v1 <$> tracked_products st) st).
  assert (Hnew : (if (tr_daily_scheduler row =? 0)%Z then 1%Z else 0%Z) = v1).
  { unfold v1. destruct Hflag as [-> | ->]; done. }
  assert (Hrun1 : toggle_daily_scheduler (tr_id row) st
                  = (Ret (bool_decide (tr_daily_scheduler row = 0%Z)), st1)).
  { unfold toggle_daily_scheduler, mbind, M_bind, bind, get_state, ret,
      update_daily_scheduler, modify_state.
    rewrite (filter_key_unique _ _ Hnd Hin). cbn [head]. rewrite Hnew.
    f_equal. unfold v1. destruct Hflag as [-> | ->]; done. }
  exists st1. split; [exact Hrun1|]. split; [|split].
  - intros r (r0 & -> & Hr0)%list_elem_of_fmap. rewrite Hupd_id. intros Heq.
    unfold upd. by rewrite bool_decide_eq_true_2.
  - exists (upd v1 row). split.
    { apply list_elem_of_fmap. by exists row. }
    unfold upd. by rewrite bool_decide_eq_true_2.
  - unfold toggle_daily_scheduler, mbind, M_bind, bind, get_state, ret,
      update_daily_scheduler, modify_state.
    cbn [tracked_products st1 set_tracked_products].
    rewrite (filter_key_fmap (upd v1)) by apply Hupd_id.
    rewrite (filter_key_unique _ _ Hnd Hin). cbn [fmap list_fmap head].
    assert (Hv : tr_daily_scheduler (upd v1 row) = v1).
    { unfold upd. by rewrite bool_decide_eq_true_2. }
    rewrite Hv. f_equal.
    { unfold v1. destruct Hflag as [-> | ->]; done. }
    assert (Hrows1 : tracked_products st1 = upd v1 <$> tracked_products st) by done.
    rewrite Hrows1, <- list_fmap_compose.
    rewrite fmap_unchanged.
    { unfold st1, set_tracked_products. cbn. by destruct st. }
    intros r Hr. cbn. unfold upd.
    destruct (bool_decide (tr_id r = tr_id row)) eqn:Hb; cbn; rewrite Hb; [|done].
    apply bool_decide_eq_true_1 in Hb as Hid.
    assert (r = row) as ->.
    { assert (Hone := filter_key_unique _ _ Hnd Hin).
      assert (Hrin : r ∈ filter (λ r0, tr_id r0 = tr_id row) (tracked_products st)).
      { by apply list_elem_of_filter. }
      rewrite Hone in Hrin. by apply list_elem_of_singleton in Hrin. }
    destruct row. cbn in *. f_equal. unfold v1. cbn.
    destruct Hflag as [-> | ->]; done.
Qed.

(** With distinct keys and a flag that is 0 or 1, [toggle_daily_scheduler]
    flips the flag of the row and returns the new state; toggling a second
    time returns the opposite and restores the whole state. *)
Theorem toggle_twice_restores st row :
  NoDup (row_ids st) → row ∈ tracked_products st →
  (tr_daily_scheduler row = 0 ∨ tr_daily_scheduler row = 1)%Z →
  ∃ st1,
    toggle_daily_scheduler (tr_id row) st
    = (Ret (bool_decide (tr_daily_scheduler row = 0%Z)), st1)
    ∧ (∀ r, r ∈ tracked_products st1 → tr_id r = tr_id row →
            tr_daily_scheduler r = (1 - tr_daily_scheduler row)%Z)
    ∧ toggle_daily_scheduler (tr_id row) st1
      = (Ret (bool_decide (tr_daily_scheduler row = 1%Z)), st).
Proof.
  intros Hnd Hin Hflag.
  destruct (toggle_daily_scheduler_run st row Hnd Hin Hflag)
    as (st1 & H1 & H2 & _ & H3).
  by exists st1.
Qed.

Lemma two_row_state_NoDup : NoDup (row_ids two_row_state).
Proof.
  apply NoDup_cons. split.
  - intros Hin. apply list_elem_of_In in Hin. simpl in Hin.
    destruct Hin as [H|[]]; discriminate.
  - apply NoDup_singleton.
Defined.

Lemma toggle_twice_witness :
  ∃ row st1,
    tr_id row = 2
    ∧ toggle_daily_scheduler 2 two_row_state = (Ret true, st1)
    ∧ toggle_daily_scheduler 2 st1 = (Ret false, two_row_state).
Proof.
  eexists {| tr_id := 2; tr_keyword := "ariel"; tr_product_id := ARIEL;
             tr_product_url := "https://www.bol.com/nl/nl/p/ariel-pods/9300000000000001/";
             tr_product_name := Some "Ariel"; tr_active := 1;
             tr_created_at := Some morning;
             tr_stop_after_days := None; tr_daily_scheduler := 0 |}.
  match goal with |- ∃ st1, tr_id ?r = _ ∧ _ =>
    destruct (toggle_twice_restores two_row_state r two_row_state_NoDup)
      as (st1 & H1 & _ & H2)
  end.
  - apply list_elem_of_In. right. left. reflexivity.
  - left. reflexivity.
  - exists st1. split; [reflexivity|]. split; [exact H1 | exact H2].
Defined.

(** ** The batch of scheduled checks *)

Lemma elem_of_select_scheduled r rows :
  r ∈ select_scheduled rows ↔
  r ∈ rows ∧ tr_active r = 1%Z ∧ tr_daily_scheduler r = 1%Z.
Proof.
  unfold select_scheduled. rewrite merge_sort_Permutation.
  rewrite list_elem_of_filter. tauto.
Qed.

Lemma check_row_run w row st :
  ∃ ranking fs h st',
    find_product_ranking w (tr_keyword row) (tr_product_id row) 50 st
    = (Ret ranking, add_fetches fs st)
    ∧ check_row w row st
      = (Ret (Checked (tr_id row) (tr_keyword row) (tr_product_id row)
                (position ranking) (total_found ranking)), st')
    ∧ product_tracking st' = product_tracking st ++ [h]
    ∧ h = {| hr_keyword := tr_keyword row;
             hr_product_id := tr_product_id row;
             hr_product_name :=
               match located_name ranking with
               | Some name => name
               | None => stored_or_url_name (tr_product_name row) (tr_product_url row)
               end;
             hr_position := position ranking;
             hr_page_product := r_page_product ranking;
             hr_date := clock w (ticks st) |}
    ∧ fetches st' = fetches st ++ fs
    ∧ row_ids st' = row_ids st
    ∧ (truthy_opt (tr_product_name row) = true ∨ product ranking = None →
       tracked_products st' = tracked_products st).
Proof.
  destruct (find_product_ranking_ret w (tr_keyword row) (tr_product_id row) 50 st)
    as (ranking & fs & Hrun).
  exists ranking, fs.
  unfold check_row, try_except, mbind, M_bind, bind. rewrite Hrun.
  unfold save_to_db, mbind, M_bind, bind, datetime_now, modify_state.
  destruct (negb (truthy_opt (tr_product_name row))) eqn:Hstored.
  - destruct (product ranking) as [p|] eqn:Hp.
    + eexists _, _. split; [reflexivity|]. split; [reflexivity|].
      unfold update_product_name, modify_state, ret. cbn.
      split; [reflexivity|]. split; [reflexivity|]. split; [reflexivity|]. split.
      * unfold row_ids. cbn. rewrite <- list_fmap_compose. apply list_fmap_ext.
        intros i r _. cbn. by case_bool_decide.
      * intros [Ht|Hn]; [|done]. rewrite Ht in Hstored. done.
    + eexists _, _. split; [reflexivity|]. split; [reflexivity|].
      unfold ret. cbn. by split_and!.
  - eexists _, _. split; [reflexivity|]. split; [reflexivity|].
    unfold ret. cbn. by split_and!.
Qed.

(** Every ranking check of the batch appends exactly one history record. It
    carries the entry's keyword and identifier and the position and absolute
    position of the result, and when the located product has a usable name
    (not empty, not the sentinel) that name is the one recorded. The keys of
    the table are left as they are. *)
Theorem check_appends_history w row st ranking st1 :
  find_product_ranking w (tr_keyword row) (tr_product_id row) 50 st
  = (Ret ranking, st1) →
  ∃ st' h,
    check_row w row st
    = (Ret (Checked (tr_id row) (tr_keyword row) (tr_product_id row)
              (position ranking) (total_found ranking)), st')
    ∧ product_tracking st' = product_tracking st ++ [h]
    ∧ hr_keyword h = tr_keyword row ∧ hr_product_id h = tr_product_id row
    ∧ hr_position h = position ranking
    ∧ hr_page_product h = r_page_product ranking
    ∧ (∀ name, located_name ranking = Some name → hr_product_name h = name)
    ∧ row_ids st' = row_ids st.
Proof.
  intros Hrun.
  destruct (check_row_run w row st)
    as (ranking' & fs & h & st' & Hrun' & Hcheck & Hhist & -> & _ & Hids & _).
  rewrite Hrun in Hrun'. injection Hrun' as <- _.
  eexists st', _. split; [exact Hcheck|]. split; [exact Hhist|]. cbn.
  split_and!; try done. by intros name ->.
Qed.

Lemma check_appends_history_witness :
  ∃ st' h,
    check_row two_page_world (tracked_entry (Some "Mijn wasmiddel"))
      (tracked_state (Some "Mijn wasmiddel"))
    = (Ret (Checked 1 "lenor" TARGET (Some 2) 4), st')
    ∧ product_tracking st' = [h]
    ∧ hr_product_name h = "Lenor".
Proof.
  destruct (find_product_ranking two_page_world "lenor" TARGET 50
              (tracked_state (Some "Mijn wasmiddel")))
    as [[ranking|e] st1] eqn:Hrun; [|vm_compute in Hrun; discriminate].
  assert (Hr : ranking
               = {| position := Some 2; r_page_product := Some 4; r_page := Some 2;
                    product := Some {| prod_id := TARGET; prod_name := "Lenor";
                                       prod_url := "https://www.bol.com/nl/nl/p/item/9300000170626119/" |};
                    total_found := 4 |}).
  { vm_compute in Hrun. by injection Hrun as <- <-. }
  destruct (check_appends_history two_page_world
              (tracked_entry (Some "Mijn wasmiddel"))
              (tracked_state (Some "Mijn wasmiddel")) ranking st1 Hrun)
    as (st' & h & Hcheck & Hhist & _ & _ & _ & _ & Hname & _).
  exists st', h. rewrite Hr in Hcheck. split; [exact Hcheck|].
  split; [exact Hhist|]. apply Hname. rewrite Hr. reflexivity.
Defined.

(** A ranking check never overwrites a stored name: when the tracked entry
    has a non-empty name, the table of tracked products is exactly the same
    after the check. *)
Theorem stored_name_never_overwritten w row st :
  truthy_opt (tr_product_name row) = true →
  tracked_products (check_row w row st).2 = tracked_products st.
Proof.
  intros Hstored.
  destruct (check_row_run w row st)
    as (ranking & fs & h & st' & _ & Hcheck & _ & _ & _ & _ & Hsame).
  rewrite Hcheck. cbn. apply Hsame. by left.
Qed.

Lemma stored_name_witness :
  tracked_products
    (check_row sentinel_world (tracked_entry (Some "Mijn wasmiddel"))
       (tracked_state (Some "Mijn wasmiddel"))).2
  = [tracked_entry (Some "Mijn wasmiddel")].
Proof.
  apply (stored_name_never_overwritten sentinel_world
           (tracked_entry (Some "Mijn wasmiddel"))
           (tracked_state (Some "Mijn wasmiddel"))).
  reflexivity.
Defined.

(** The expiry test of the batch. An entry whose [stop_after_days] have
    passed since [created_at] ([now >= created_at + stop_after_days], the
    boundary included) is made inactive and reported as deactivated, without
    any page request and without a history record; an entry not yet expired
    gets its ranking check and one history record. *)
Theorem expiry_decides_the_check w row st days created deadline :
  tr_stop_after_days row = Some days →
  tr_created_at row = Some created →
  add_days created days = Ret deadline →
  (dt_ge (clock w (ticks st)) deadline = true →
   ∃ st',
     scheduled_row w row st
     = (Ret (Deactivated (tr_id row) (tr_keyword row) (tr_product_id row)), st')
     ∧ fetches st' = fetches st
     ∧ product_tracking st' = product_tracking st
     ∧ ∀ r, r ∈ tracked_products st' → tr_id r = tr_id row → tr_active r = 0%Z)
  ∧ (dt_ge (clock w (ticks st)) deadline = false →
     ∃ position total st' h,
       scheduled_row w row st
       = (Ret (Checked (tr_id row) (tr_keyword row) (tr_product_id row)
                 position total), st')
       ∧ product_tracking st' = product_tracking st ++ [h]).
Proof.
  intros Hdays Hcreated Hdeadline.
  unfold scheduled_row, mbind, M_bind, bind. rewrite Hdays, Hcreated.
  unfold _parse_dt, ret, datetime_now, lift. cbn. rewrite Hdeadline. split.
  - intros ->. unfold remove_tracked_product, modify_state. cbn.
    eexists. split; [reflexivity|]. cbn. split_and!; try done.
    intros r (r0 & -> & Hr0)%list_elem_of_fmap. case_bool_decide; [done|].
    by intros.
  - intros ->.
    match goal with |- context [check_row w row ?s] =>
      destruct (check_row_run w row s)
        as (ranking & fs & h & st' & _ & Hcheck & Hhist & _)
    end.
    rewrite Hcheck. by eexists _, _, st', h.
Qed.

Lemma expiry_witness :
  (∃ st',
     scheduled_row (clock_world at_deadline) expiring_entry expiring_state
     = (Ret (Deactivated 1 "lenor" TARGET), st')
     ∧ fetches st' = []
     ∧ product_tracking st' = [])
  ∧ (∃ position total st' h,
       scheduled_row (clock_world before_deadline) expiring_entry expiring_state
       = (Ret (Checked 1 "lenor" TARGET position total), st')
       ∧ product_tracking st' = [h]).
Proof.
  split.
  - destruct (expiry_decides_the_check (clock_world at_deadline) expiring_entry
                expiring_state 30 morning at_deadline eq_refl eq_refl eq_refl)
      as [Hexp _].
    destruct (Hexp eq_refl) as (st' & Hrun & Hf & Hh & _).
    exists st'. split; [exact Hrun|]. split; [exact Hf | exact Hh].
  - destruct (expiry_decides_the_check (clock_world before_deadline) expiring_entry
                expiring_state 30 morning at_deadline eq_refl eq_refl eq_refl)
      as [_ Hnot].
    exact (Hnot eq_refl).
Defined.

Lemma scheduled_row_id w row st o st' :
  scheduled_row w row st = (Ret o, st') → outcome_id o = tr_id row.
Proof.
  unfold scheduled_row, mbind, M_bind, bind.
  match goal with
  | |- match ?e with pair _ _ => _ end = _ → _ =>
      destruct e as [[expired|e0] st0]; [|done]
  end.
  destruct expired.
  - unfold remove_tracked_product, modify_state, ret. cbn. by intros [= <- _].
  - destruct (check_row_run w row st0)
      as (ranking & fs & h & st1 & _ & Hcheck & _).
    rewrite Hcheck. by intros [= <- _].
Qed.

Lemma scheduled_rows_ids w rows results st outs st' :
  scheduled_rows w rows results st = (Ret outs, st') →
  outcome_id <$> outs = (outcome_id <$> results) ++ (tr_id <$> rows).
Proof.
  revert results st. induction rows as [|row rows IH]; intros results st.
  - cbn. intros [= <- _]. by rewrite app_nil_r.
  - cbn [scheduled_rows]. unfold mbind, M_bind, bind.
    destruct (scheduled_row w row st) as [[o|e] st0] eqn:Hrow; [|done].
    intros Hrest%IH. rewrite Hrest, fmap_app. cbn.
    rewrite (scheduled_row_id _ _ _ _ _ Hrow). by rewrite <- app_assoc.
Qed.

#[local] Instance by_id_total : Total by_id.
Proof. intros a b. unfold by_id. lia. Qed.

(** When the batch returns, it returns one outcome per row that was active
    and scheduled when it started, in ascending order of their keys, and no
    outcome about any other row. *)
Theorem batch_outcomes_follow_selection w st outs st' :
  run_scheduled_checks w st = (Ret outs, st') →
  outcome_id <$> outs = tr_id <$> select_scheduled (tracked_products st)
  ∧ Sorted le (outcome_id <$> outs)
  ∧ ∀ o, o ∈ outs →
      ∃ row, row ∈ tracked_products st ∧ tr_id row = outcome_id o
             ∧ tr_active row = 1%Z ∧ tr_daily_scheduler row = 1%Z.
Proof.
  unfold run_scheduled_checks, mbind, M_bind, bind, get_state.
  intros Hids%scheduled_rows_ids. cbn in Hids. split; [done|]. split.
  - rewrite Hids. eapply Sorted_fmap; [|apply (Sorted_merge_sort by_id)].
    done.
  - intros o Ho.
    assert (Hin : outcome_id o ∈ tr_id <$> select_scheduled (tracked_products st)).
    { rewrite <- Hids. apply list_elem_of_fmap. by exists o. }
    apply list_elem_of_fmap in Hin as (row & Hid & Hrow).
    apply elem_of_select_scheduled in Hrow as (? & ? & ?). by exists row.
Qed.

Lemma batch_outcomes_witness :
  ∃ outs st',
    run_scheduled_checks sentinel_world two_row_state = (Ret outs, st')
    ∧ outcome_id <$> outs = [1].
Proof.
  destruct (run_scheduled_checks sentinel_world two_row_state)
    as [[outs|e] st'] eqn:Hrun; [|vm_compute in Hrun; discriminate].
  exists outs, st'. split; [reflexivity|].
  destruct (batch_outcomes_follow_selection sentinel_world two_row_state outs st' Hrun)
    as (Hids & _ & _).
  rewrite Hids. vm_compute. reflexivity.
Defined.

(** ** How the operations on the table compose *)



Lemma removed_rows_inactive tracked_id st r :
  r ∈ tracked_products (remove_tracked_product tracked_id st).2 →
  tr_id r = tracked_id → tr_active r = 0%Z.
Proof.
  cbn. intros (r0 & -> & Hr0)%list_elem_of_fmap. case_bool_decide; [done|].
  by intros.
Qed.

(** A removed product disappears from what is shown and from what is
    checked: after [remove_tracked_product], the list of active products and
    the selection of the batch hold no row with that key, while the list that
    includes inactive products still holds every key of the table. *)
Theorem removed_product_is_hidden tracked_id st :
  let st' := (remove_tracked_product tracked_id st).2 in
  (∃ shown, list_tracked_products false st' = (Ret shown, st')
            ∧ ∀ r, r ∈ shown → tr_id r ≠ tracked_id)
  ∧ (∀ r, r ∈ select_scheduled (tracked_products st') → tr_id r ≠ tracked_id)
  ∧ (∃ every, list_tracked_products true st' = (Ret every, st')
              ∧ tr_id <$> every ≡ₚ row_ids st).
Proof.
  intros st'. split_and!.
  - eexists. split; [reflexivity|]. intros r Hr Hid.
    rewrite merge_sort_Permutation in Hr.
    apply list_elem_of_filter in Hr as [Hact Hr].
    rewrite (removed_rows_inactive _ _ _ Hr Hid) in Hact. done.
  - intros r (Hr & Hact & _)%elem_of_select_scheduled Hid.
    rewrite (removed_rows_inactive _ _ _ Hr Hid) in Hact. done.
  - eexists. split; [reflexivity|]. rewrite merge_sort_Permutation.
    unfold row_ids. subst st'. cbn. rewrite <- list_fmap_compose.
    erewrite list_fmap_ext; [reflexivity|].
    intros i r _. cbn. by case_bool_decide.
Qed.

(** For a URL from which an identifier can be derived, [track_product]
    returns the result of the search and appends exactly one history record:
    keyword, identifier, position and absolute position of the result, and as
    name the located product's name, or "Unknown" when nothing was located.
    The table of tracked products is not touched. *)
Theorem track_product_records w keyword product_url st tid :
  get_product_id product_url st = (Ret tid, st) →
  ∃ result st' h,
    track_product w keyword product_url st = (Ret (Some result), st')
    ∧ (find_product_ranking w keyword tid 50 st).1 = Ret result
    ∧ product_tracking st' = product_tracking st ++ [h]
    ∧ tracked_products st' = tracked_products st
    ∧ hr_keyword h = keyword ∧ hr_product_id h = tid
    ∧ hr_position h = position result
    ∧ hr_page_product h = r_page_product result
    ∧ hr_product_name h
      = match product result with Some p => prod_name p | None => "Unknown" end.
Proof.
  intros Hid.
  destruct (find_product_ranking_ret w keyword tid 50 st) as (result & fs & Hrun).
  unfold track_product, try_except, mbind, M_bind, bind. rewrite Hid, Hrun.
  unfold save_to_db, mbind, M_bind, bind, datetime_now, modify_state, ret. cbn.
  eexists result, _, _. split; [reflexivity|]. cbn. by split_and!.
Qed.

Lemma track_product_witness :
  ∃ result st' h,
    track_product offline_world "lenor" TRACKED_URL blank_state
    = (Ret (Some result), st')
    ∧ product_tracking st' = [h]
    ∧ hr_product_name h = "Unknown" ∧ hr_position h = None.
Proof.
  destruct (track_product_records offline_world "lenor" TRACKED_URL blank_state
              TARGET eq_refl)
    as (result & st' & h & Hrun & Hres & Hhist & _ & _ & _ & Hpos & _ & Hname).
  exists result, st', h. split; [exact Hrun|]. split; [exact Hhist|].
  assert (Hr : result = {| position := None; r_page_product := None;
                           r_page := None; product := None; total_found := 0 |}).
  { vm_compute in Hres. by injection Hres as <-. }
  rewrite Hname, Hpos, Hr. split; reflexivity.
Defined.

(** ** More on the scheduler loop *)

(** The loop does not end on its own. As long as no stop is requested, a
    running loop stays running whatever happens inside it: an exception in
    the computation or in the batch only sends it through the back-off sleep
    and on to the next round. *)
Theorem loop_ends_only_after_stop s ls s' :
  steps s ls s' → running s = true → at_point s ≠ Exited →
  (StopRequest ∉ ls) →
  running s' = true ∧ at_point s' ≠ Exited.
Proof.
  induction 1 as [s|s l s1 ls s2 Hstep Hsteps IH]; intros Hon Hpt Hnostop;
    [done|].
  apply IH.
  - inversion Hstep; subst; cbn; try done.
    destruct Hnostop. by left.
  - inversion Hstep; subst; cbn; try done. congruence.
  - intros Hin. apply Hnostop. by right.
Qed.

Lemma loop_ends_only_after_stop_witness :
  running {| running := true; at_point := AtWhile |} = true
  ∧ at_point {| running := true; at_point := AtWhile |} ≠ Exited.
Proof.
  apply (loop_ends_only_after_stop
           {| running := true; at_point := Computing |}
           [Internal; Internal]
           {| running := true; at_point := AtWhile |}).
  - eapply steps_cons.
    { apply (step_compute_raises {| running := true; at_point := Computing |}).
      reflexivity. }
    eapply steps_cons.
    { apply (step_backoff_over {| running := true; at_point := BackingOff |}).
      reflexivity. }
    apply steps_nil.
  - reflexivity.
  - discriminate.
  - intros Hin. apply list_elem_of_In in Hin. simpl in Hin.
    destruct Hin as [H|[H|[]]]; discriminate.
Defined.

Lemma own_steps_cons l ls :
  own_steps (l :: ls)
  = (if bool_decide (l = Internal ∨ l = RunBatch) then 1 else 0) + own_steps ls.
Proof.
  unfold own_steps. case_bool_decide.
  - by rewrite filter_cons_True.
  - by rewrite filter_cons_False.
Qed.

(** A stop takes effect within four steps of the loop thread. Once the flag
    is cleared and no start follows, the thread takes at most
    [steps_to_exit] more steps of its own, four at the most (the computation,
    the sleep, the test after waking, the test of the loop), none of them a
    batch call; and wherever it is short of the exit, it can take a step. *)
Theorem stopped_loop_exits :
  (∀ s ls s',
     steps s ls s' → running s = false → (StartRequest ∉ ls) →
     own_steps ls + steps_to_exit (at_point s') ≤ steps_to_exit (at_point s)
     ∧ own_steps ls ≤ 4)
  ∧ (∀ s, running s = false → at_point s ≠ Exited → ∃ s', step s Internal s').
Proof.
  split.
  - assert (Hmain : ∀ s ls s',
              steps s ls s' → running s = false → (StartRequest ∉ ls) →
              own_steps ls + steps_to_exit (at_point s')
              ≤ steps_to_exit (at_point s)).
    { induction 1 as [s|s l s1 ls s2 Hstep Hsteps IH]; intros Hoff Hnostart.
      - unfold own_steps. cbn. lia.
      - rewrite own_steps_cons.
        assert (Hoff1 : running s1 = false).
        { inversion Hstep; subst; cbn; try done. destruct Hnostart. by left. }
        assert (Hnostart' : StartRequest ∉ ls).
        { intros Hin. apply Hnostart. by right. }
        specialize (IH Hoff1 Hnostart').
        inversion Hstep; subst;
          try (rewrite bool_decide_eq_true_2 by (by left));
          try (rewrite bool_decide_eq_true_2 by (by right));
          try (rewrite bool_decide_eq_false_2 by (intros [?|?]; discriminate));
          cbn in *;
          repeat match goal with
                 | H : at_point _ = _ |- _ => rewrite H in *
                 end;
          cbn in *; try congruence; try lia. }
    intros s ls s' Hsteps Hoff Hnostart.
    pose proof (Hmain s ls s' Hsteps Hoff Hnostart) as H.
    split; [done|]. destruct (at_point s); cbn in H; lia.
  - intros [r p] Hoff Hpt. cbn in *. subst r. destruct p.
    + eexists. by apply step_while_false.
    + eexists. by apply step_sleep.
    + eexists. by apply step_wake.
    + eexists. by apply step_skip.
    + eexists. by apply step_batch_returns.
    + eexists. by apply step_backoff_over.
    + done.
Qed.

Lemma stopped_loop_exits_witness :
  own_steps [Internal; Internal; Internal] + steps_to_exit Exited
  ≤ steps_to_exit Sleeping
  ∧ own_steps [Internal; Internal; Internal] ≤ 4.
Proof.
  destruct stopped_loop_exits as [Hbound _].
  apply (Hbound {| running := false; at_point := Sleeping |}
                [Internal; Internal; Internal]
                {| running := false; at_point := Exited |}).
  - eapply steps_cons.
    { apply (step_wake {| running := false; at_point := Sleeping |}). reflexivity. }
    eapply steps_cons.
    { apply (step_skip {| running := false; at_point := AfterWake |}); reflexivity. }
    eapply steps_cons.
    { apply (step_while_false {| running := false; at_point := AtWhile |}); reflexivity. }
    apply steps_nil.
  - reflexivity.
  - intros Hin. apply list_elem_of_In in Hin. simpl in Hin.
    destruct Hin as [H|[H|[H|[]]]]; discriminate.
Defined.

(** ** The request handlers *)



(** [POST /api/check/<id>] for an existing entry answers 200 with the result
    of the search and appends exactly one history record. The name recorded
    is the located product's name when that is usable, else the stored name
    when there is one, else the name derived from the URL. Unlike the batch
    it never writes to the table of tracked products. *)
Theorem api_check_one_records w st row :
  NoDup (row_ids st) → row ∈ tracked_products st →
  ∃ result st' h,
    api_check_one w (tr_id row) st = (Ret (JsonCheck result, 200), st')
    ∧ (find_product_ranking w (tr_keyword row) (tr_product_id row) 50 st).1
      = Ret result
    ∧ product_tracking st' = product_tracking st ++ [h]
    ∧ tracked_products st' = tracked_products st
    ∧ hr_keyword h = tr_keyword row ∧ hr_product_id h = tr_product_id row
    ∧ hr_position h = position result
    ∧ hr_product_name h
      = match located_name result with
        | Some name => name
        | None =>
            match tr_product_name row with
            | Some name => if Py.truthy name then name
                           else _extract_name_from_url (tr_product_url row)
            | None => _extract_name_from_url (tr_product_url row)
            end
        end.
Proof.
  intros Hnd Hin.
  destruct (find_product_ranking_ret w (tr_keyword row) (tr_product_id row) 50 st)
    as (result & fs & Hrun).
  unfold api_check_one, get_tracked_product, try_except, mbind, M_bind, bind,
    get_state, ret.
  rewrite (filter_key_unique _ _ Hnd Hin). cbn [head]. rewrite Hrun.
  unfold save_to_db, mbind, M_bind, bind, datetime_now, modify_state. cbn.
  eexists result, _, _. split; [reflexivity|]. cbn.
  split_and!; try done.
  destruct (located_name result); [done|].
  destruct (tr_product_name row) as [name|]; [|done]. cbn.
  by destruct (Py.truthy name).
Qed.

Lemma api_check_one_records_witness :
  ∃ result st' h,
    api_check_one sentinel_world 1 (tracked_state None)
    = (Ret (JsonCheck result, 200), st')
    ∧ product_tracking st' = [h]
    ∧ tracked_products st' = [tracked_entry None]
    ∧ hr_product_name h = "Lenor Geurbooster".
Proof.
  destruct (api_check_one_records sentinel_world (tracked_state None)
              (tracked_entry None))
    as (result & st' & h & Hrun & Hres & Hhist & Hrows & _ & _ & _ & Hname).
  { apply NoDup_singleton. }
  { apply list_elem_of_In. left. reflexivity. }
  exists result, st', h. split; [exact Hrun|]. split; [exact Hhist|].
  split; [exact Hrows|].
  assert (Hloc : located_name result = None).
  { vm_compute in Hres. injection Hres as <-. reflexivity. }
  rewrite Hname, Hloc. vm_compute. reflexivity.
Defined.
